(** * gemini-cli-ntfy: activity detection and backstop notification core

    A shallow embedding of the Go code of
      - [containsVisibleContent], [OutputMonitor] (pkg/monitor/output_monitor.go),
      - [TerminalSequenceDetector] (package monitor, same listing),
      - [TerminalState] (package monitor),
      - [BackstopNotifier] (pkg/notification/backstop_notifier.go),
      - the wiring of [NewDependencies] (package main),
    followed by the properties of the specification, each proved or refuted
    on the embedding.

    Conventions.
      - A byte ([uint8]) is a [Z] in 0..255; a [[]byte] or [string] is a
        [list Z].  No arithmetic is done on bytes, only comparisons.
      - A Go [int] index is a [Z].  Slice indexing [data[i]] is bounds
        checked: out of range is a run-time panic, modelled by [Panic].
      - Loops carry fuel, one unit per execution of the body; running out
        of fuel is the outcome [OutOfFuel], distinct from a panic.
      - [time.Now()] is an input: every top-level call receives the clock
        reading [now : Z], used for each [time.Now()] within the call.
      - Each method of a mutex-protected struct is one atomic step. *)

From Stdlib Require Import String ZArith Arith List Bool Lia.
Import ListNotations.
Local Open Scope Z_scope.

Set Implicit Arguments.

(* ===================================================================== *)
(** ** Outcomes of Go code that indexes slices and loops *)
(* ===================================================================== *)

Inductive outcome (A : Type) : Type :=
| Done (a : A)
| Panic
| OutOfFuel.

Arguments Done {A} a.
Arguments Panic {A}.
Arguments OutOfFuel {A}.

Definition bind {A B : Type} (m : outcome A) (k : A -> outcome B) : outcome B :=
  match m with
  | Done a => k a
  | Panic => Panic
  | OutOfFuel => OutOfFuel
  end.

Notation "x <- m ;; k" := (bind m (fun x => k))
  (at level 61, m at next level, right associativity).

(** Go's short-circuit [a && b] and [a || b] on conditions that index. *)
Definition andThen (a b : outcome bool) : outcome bool :=
  x <- a ;; if x then b else Done false.
Definition orElse (a b : outcome bool) : outcome bool :=
  x <- a ;; if x then Done true else b.

Infix "&&&" := andThen (at level 40, left associativity).
Infix "|||" := orElse (at level 50, left associativity).

(** [len(data)] *)
Definition len (data : list Z) : Z := Z.of_nat (length data).

(** [data[i]], bounds checked. *)
Definition index (data : list Z) (i : Z) : outcome Z :=
  if (0 <=? i) && (i <? len data)
  then match nth_error data (Z.to_nat i) with
       | Some b => Done b
       | None => Panic
       end
  else Panic.

(** [data[i] == c] *)
Definition byteIs (data : list Z) (i c : Z) : outcome bool :=
  b <- index data i ;; Done (b =? c).

(** Byte constants used by the sources. *)
Definition ESC : Z := 27.        (* 0x1B, '\033' *)
Definition BEL : Z := 7.         (* 0x07 *)
Definition CSI8 : Z := 155.      (* 0x9B *)
Definition LF : Z := 10.         (* '\n' *)
Definition CR : Z := 13.         (* '\r' *)
Definition TAB : Z := 9.         (* '\t' *)
Definition LBRACKET : Z := 91.   (* '[' *)
Definition RBRACKET : Z := 93.   (* ']' *)
Definition LPAREN : Z := 40.     (* '(' *)
Definition RPAREN : Z := 41.     (* ')' *)
Definition BACKSLASH : Z := 92.  (* '\\' *)

(** Bytes of an ASCII string literal, to write inputs readably:
    [[ESC] ++ bs "[2J"] is the Go literal ["\x1b[2J"]. *)
Fixpoint bs (s : string) : list Z :=
  match s with
  | EmptyString => []
  | String c r => Z.of_nat (Ascii.nat_of_ascii c) :: bs r
  end.

(* ===================================================================== *)
(** ** Escape sequence classifier: [containsVisibleContent] *)
(* ===================================================================== *)

Module Classifier.

(** [c >= 0x40 && c <= 0x7E] *)
Definition isFinal (c : Z) : bool := (64 <=? c) && (c <=? 126).

(** The test at the bottom of the outer loop body:
    [b == '\n' || b == '\r' || b == '\t'], [b >= 32 && b <= 126], [b >= 128]. *)
Definition isVisibleByte (b : Z) : bool :=
  (b =? LF) || (b =? CR) || (b =? TAB) || ((32 <=? b) && (b <=? 126)) || (128 <=? b).

(** Every loop takes fuel, one unit per execution of its body; the test of
    the loop condition itself costs nothing. *)

(** [for i < len(data) { c := data[i]; i++; if c >= 0x40 && c <= 0x7E { break } }]
    (the loop is written twice in the source, after [ESC [] and after 0x9B). *)
Fixpoint skipCSI (data : list Z) (fuel : nat) (i : Z) : outcome Z :=
  if i <? len data then
    match fuel with
    | O => OutOfFuel
    | S fuel' =>
        c <- index data i ;;
        let i := i + 1 in
        if isFinal c then Done i else skipCSI data fuel' i
    end
  else Done i.

(** [for i < len(data) { c := data[i]; i++;
       if c == 0x07 { break }
       if c == 0x1B && i < len(data) && data[i] == '\\' { i++; break } }] *)
Fixpoint skipOSC (data : list Z) (fuel : nat) (i : Z) : outcome Z :=
  if i <? len data then
    match fuel with
    | O => OutOfFuel
    | S fuel' =>
        c <- index data i ;;
        let i := i + 1 in
        if c =? BEL then Done i
        else
          st <- Done (c =? ESC) &&& Done (i <? len data) &&& byteIs data i BACKSLASH ;;
          if st then Done (i + 1) else skipOSC data fuel' i
    end
  else Done i.

(** The outer loop [for i < len(data) { ... }] with its [return true]s;
    falling out of the loop is [return false]. *)
Fixpoint scan (data : list Z) (fuel : nat) (i : Z) : outcome bool :=
  if i <? len data then
    match fuel with
    | O => OutOfFuel
    | S fuel' =>
        b <- index data i ;;
        (* the code after the if/else-if on b, reached with the current i *)
        let checkVisible (i : Z) : outcome bool :=
          if isVisibleByte b then Done true else scan data fuel' (i + 1) in
        if b =? ESC then
          let i := i + 1 in
          if i <? len data then
            next <- index data i ;;
            if next =? LBRACKET then
              i <- skipCSI data fuel' (i + 1) ;;
              scan data fuel' i
            else if next =? RBRACKET then
              i <- skipOSC data fuel' (i + 1) ;;
              scan data fuel' i
            else if (next =? LPAREN) || (next =? RPAREN) then
              let i := i + 1 in
              let i := if i <? len data then i + 1 else i in
              scan data fuel' i
            else checkVisible i
          else checkVisible i
        else if b =? CSI8 then
          i <- skipCSI data fuel' (i + 1) ;;
          scan data fuel' i
        else checkVisible i
    end
  else Done false.

(** [containsVisibleContent(data)]: the scan starts at [i := 0]; [len(data)]
    units of fuel are given to every loop. *)
Definition containsVisibleContent (data : list Z) : outcome bool :=
  scan data (length data) 0.

End Classifier.


(* ===================================================================== *)
(** ** What output is made of: sequences and single bytes *)
(* ===================================================================== *)

(** The vocabulary in which the specification describes the classifier: a
    byte slice read as escape sequences and single bytes.  Nothing here is
    taken from the code. *)
Module Tokens.

Inductive Token : Type :=
| TokCSI (params : list Z) (final : Z)       (* ESC [ params final *)
| TokOSC (body : list Z) (st : bool)         (* ESC ] body BEL, or ESC ] body ESC \ when st *)
| TokCharset (closing : bool) (set : Z)      (* ESC ( set, or ESC ) set when closing *)
| TokCSI8 (params : list Z) (final : Z)      (* 0x9B params final *)
| TokEscPair (x : Z)                         (* ESC x, with x none of [ ] ( ) *)
| TokByte (b : Z).                           (* one byte on its own *)

Definition terminator (st : bool) : list Z :=
  if st then [ESC; BACKSLASH] else [BEL].

Definition bytesOf (t : Token) : list Z :=
  match t with
  | TokCSI params final => ESC :: LBRACKET :: params ++ [final]
  | TokOSC body st => ESC :: RBRACKET :: body ++ terminator st
  | TokCharset closing set => [ESC; if closing then RPAREN else LPAREN; set]
  | TokCSI8 params final => CSI8 :: params ++ [final]
  | TokEscPair x => [ESC; x]
  | TokByte b => [b]
  end.

Definition flatten (toks : list Token) : list Z := concat (map bytesOf toks).

(** Parameter bytes: any byte that is not a final byte 0x40-0x7E. *)
Definition paramsOk (params : list Z) : bool :=
  forallb (fun c => negb (Classifier.isFinal c)) params.

(** The body of an OSC sequence holds no terminator: no BEL, and no ESC
    with a backslash after it. *)
Fixpoint oscBodyOk (body : list Z) : bool :=
  match body with
  | [] => true
  | c :: r =>
      negb (c =? BEL) &&
      negb ((c =? ESC) && match r with
                          | q :: _ => q =? BACKSLASH
                          | [] => false
                          end) &&
      oscBodyOk r
  end.

(** The four kinds of sequence the specification lists. *)
Definition isRecognizedSequence (t : Token) : bool :=
  match t with
  | TokCSI params final => paramsOk params && Classifier.isFinal final
  | TokOSC body _ => oscBodyOk body
  | TokCharset _ _ => true
  | TokCSI8 params final => paramsOk params && Classifier.isFinal final
  | TokEscPair _ | TokByte _ => false
  end.

Definition isSingleByte (t : Token) : bool :=
  match t with
  | TokByte _ => true
  | _ => false
  end.

(** A single byte that is printable ASCII, newline, carriage return, tab
    or at least 0x80. *)
Definition isVisibleToken (t : Token) : bool :=
  match t with
  | TokByte b => Classifier.isVisibleByte b
  | _ => false
  end.

(** A reading of a slice the way the scan goes over it: the four kinds of
    sequence, ESC with the byte after it when that byte opens none of
    them, and single bytes other than the two introducers. *)
Definition isScanToken (t : Token) : bool :=
  match t with
  | TokEscPair x =>
      negb ((x =? LBRACKET) || (x =? RBRACKET) || (x =? LPAREN) || (x =? RPAREN))
  | TokByte b => negb ((b =? ESC) || (b =? CSI8))
  | _ => isRecognizedSequence t
  end.

(** A sequence cut short by the end of the slice. *)
Inductive Truncated : Type :=
| CutNone                          (* nothing is cut *)
| CutEsc                           (* ESC *)
| CutCSI (params : list Z)         (* ESC [ params *)
| CutOSC (body : list Z)           (* ESC ] body *)
| CutCharset (closing : bool)      (* ESC ( or ESC ) *)
| CutCSI8 (params : list Z).       (* 0x9B params *)

Definition bytesOfTruncated (c : Truncated) : list Z :=
  match c with
  | CutNone => []
  | CutEsc => [ESC]
  | CutCSI params => ESC :: LBRACKET :: params
  | CutOSC body => ESC :: RBRACKET :: body
  | CutCharset closing => [ESC; if closing then RPAREN else LPAREN]
  | CutCSI8 params => CSI8 :: params
  end.

Definition truncatedOk (c : Truncated) : bool :=
  match c with
  | CutCSI params | CutCSI8 params => paramsOk params
  | CutOSC body => oscBodyOk body
  | _ => true
  end.

End Tokens.

(* ===================================================================== *)
(** ** Terminal sequence detector *)
(* ===================================================================== *)

Module Detector.

(** [bytes.HasPrefix(l, seq)] and [bytes.Contains(l, seq)]. *)
Fixpoint HasPrefix (l seq : list Z) : bool :=
  match seq, l with
  | [], _ => true
  | _ :: _, [] => false
  | c :: seq', b :: l' => (b =? c) && HasPrefix l' seq'
  end.

Fixpoint Contains (l seq : list Z) : bool :=
  HasPrefix l seq ||
  match l with
  | [] => false
  | _ :: r => Contains r seq
  end.

Definition screenClearSequences : list (list Z) :=
  [ [ESC] ++ bs "[2J";   (* Clear entire screen *)
    [ESC] ++ bs "[3J";   (* Clear entire screen and scrollback *)
    [ESC] ++ bs "[H";    (* Move cursor to home position *)
    [ESC] ++ bs "[0J";   (* Clear from cursor to end of screen *)
    [ESC] ++ bs "[1J";   (* Clear from cursor to beginning of screen *)
    [ESC] ++ bs "c" ].   (* Reset terminal *)

Definition statusInterferingSequences : list (list Z) :=
  [ [ESC] ++ bs "[r";
    [ESC] ++ bs "[?47h";
    [ESC] ++ bs "[?1047h";
    [ESC] ++ bs "[?1049h";
    [ESC] ++ bs "[?47l";
    [ESC] ++ bs "[?1047l";
    [ESC] ++ bs "[?1049l";
    [ESC] ++ bs "D";
    [ESC] ++ bs "M";
    [ESC] ++ bs "[S";
    [ESC] ++ bs "[T" ].

Definition focusInSequence : list Z := [ESC] ++ bs "[I".
Definition focusOutSequence : list Z := [ESC] ++ bs "[O".

(** *** The title pattern
    [regexp.MustCompile(`\033\](?:0|1|2);([^\007\033]*?)(?:\007|\033\\)`)].

    The class [[^\007\033]] excludes both bytes a terminator can start with,
    so at a given start the body is the whole run of bytes before the first
    BEL or ESC, and the match exists iff that byte is BEL, or ESC followed
    by a backslash.  [FindAllSubmatch] reports the leftmost match, resumes
    after its end, and returns the capture group of each match. *)

(** The run matched by [([^\007\033]*?)] and what follows it. *)
Fixpoint titleBody (l : list Z) : list Z * list Z :=
  match l with
  | [] => ([], [])
  | b :: r =>
      if (b =? BEL) || (b =? ESC) then ([], l)
      else let (t, rest) := titleBody r in (b :: t, rest)
  end.

(** A match of the pattern starting at the head of [l]: the captured title
    and the number of bytes of the whole match. *)
Definition matchTitleAt (l : list Z) : option (list Z * nat) :=
  match l with
  | e :: rb :: d :: semi :: body =>
      if (e =? ESC) && (rb =? RBRACKET) &&
         ((d =? 48) || (d =? 49) || (d =? 50)) && (semi =? 59)
      then
        let (title, rest) := titleBody body in
        match rest with
        | t :: rest' =>
            if t =? BEL then Some (title, (4 + length title + 1)%nat)
            else match rest' with
                 | q :: _ =>
                     if (t =? ESC) && (q =? BACKSLASH)
                     then Some (title, (4 + length title + 2)%nat)
                     else None
                 | [] => None
                 end
        | [] => None
        end
      else None
  | _ => None
  end.

(** [titlePattern.FindAllSubmatch(l, -1)], keeping capture group 1 of each
    match; [skip] counts the bytes of the previous match still to pass. *)
Fixpoint findAllTitles (skip : nat) (l : list Z) : list (list Z) :=
  match l with
  | [] => []
  | _ :: r =>
      match skip with
      | S k => findAllTitles k r
      | O =>
          match matchTitleAt l with
          | Some (title, n) => title :: findAllTitles (n - 1) r
          | None => findAllTitles 0 r
          end
      end
  end.

(** *** [detectBottomLineClear] *)

(** [for j < len(data) && data[j] != 'H' && data[j] != 'f' { j++ }] *)
Fixpoint seekHf (data : list Z) (fuel : nat) (j : Z) : outcome Z :=
  c <- Done (j <? len data)
       &&& (x <- index data j ;; Done (negb (x =? 72)))
       &&& (x <- index data j ;; Done (negb (x =? 102))) ;;
  if c then
    match fuel with
    | O => OutOfFuel
    | S fuel' => seekHf data fuel' (j + 1)
    end
  else Done j.

(** [for k := k0; cond(k); k++ { if body(k) { return true } }]: the result
    is [true] when the loop returned from the function. *)
Fixpoint forReturn (fuel : nat) (cond : Z -> bool) (body : Z -> outcome bool)
    (k : Z) : outcome bool :=
  if cond k then
    match fuel with
    | O => OutOfFuel
    | S fuel' =>
        r <- body k ;;
        if r then Done true else forReturn fuel' cond body (k + 1)
    end
  else Done false.

(** [data[k] == '\033' && data[k+1] == '[' &&
     (data[k+2] == 'K' || (k+3 < len(data) && data[k+2] == '2' && data[k+3] == 'K'))] *)
Definition lineClearAt (data : list Z) (k : Z) : outcome bool :=
  byteIs data k ESC &&& byteIs data (k + 1) LBRACKET &&&
  (byteIs data (k + 2) 75 |||
   (Done (k + 3 <? len data) &&& byteIs data (k + 2) 50 &&& byteIs data (k + 3) 75)).

(** The body of the loop over [i]. *)
Definition cursorThenClearAt (data : list Z) (i : Z) : outcome bool :=
  c <- byteIs data i ESC &&& byteIs data (i + 1) LBRACKET ;;
  if c then
    j <- seekHf data (length data) (i + 2) ;;
    c' <- Done (j <? len data) &&& (byteIs data j 72 ||| byteIs data j 102) ;;
    if c' then
      forReturn (length data)
        (fun k => (k <? len data - 2) && (k <? j + 20))
        (lineClearAt data) (j + 1)
    else Done false
  else Done false.

Definition detectBottomLineClear (data : list Z) : outcome bool :=
  r <- forReturn (length data) (fun i => i <? len data - 5)
         (cursorThenClearAt data) 0 ;;
  if r then Done true
  else if Contains data ([ESC] ++ bs "[0J") || Contains data ([ESC] ++ bs "[J")
       then Done true
       else Done false.

(** *** The handler interface and the detector *)

(** [interfaces.ScreenEventHandler], over the state [H] of the implementation. *)
Class ScreenEventHandler (H : Type) : Type := {
  HandleScreenClear : H -> H;
  HandleTitleChange : list Z -> H -> H;
  HandleFocusIn : H -> H;
  HandleFocusOut : H -> H
}.

Record TerminalSequenceDetector : Type := {
  buffer : list Z;
  focusReportingEnabled : bool
}.

Definition NewTerminalSequenceDetector : TerminalSequenceDetector :=
  {| buffer := []; focusReportingEnabled := false |}.

Definition maxBufferSize : Z := 512.

(** [data[lo:]] for [0 <= lo <= len(data)]. *)
Definition sliceFrom (data : list Z) (lo : Z) : list Z := skipn (Z.to_nat lo) data.

(** [DetectSequences(data, handler)]; a nil handler is [None].  The result
    is the detector and the handler after the call. *)
Definition DetectSequences {H : Type} `{ScreenEventHandler H}
    (data : list Z) (handler : option H) (t : TerminalSequenceDetector)
  : outcome (TerminalSequenceDetector * option H) :=
  match handler with
  | None => Done (t, None)
  | Some h =>
      let buf := buffer t ++ data in
      let foundClear := existsb (Contains buf) screenClearSequences in
      let foundClear :=
        if negb foundClear then existsb (Contains buf) statusInterferingSequences
        else foundClear in
      foundClear <- (if negb foundClear then detectBottomLineClear buf
                     else Done foundClear) ;;
      let h := if foundClear then HandleScreenClear h else h in
      let h := if Contains buf focusInSequence then HandleFocusIn h else h in
      let h := if Contains buf focusOutSequence then HandleFocusOut h else h in
      let h := match findAllTitles 0 buf with
               | [] => h
               | m :: ms => HandleTitleChange (last ms m) h
               end in
      let buf := if len buf >? maxBufferSize
                 then sliceFrom buf (len buf - maxBufferSize)
                 else buf in
      Done ({| buffer := buf; focusReportingEnabled := focusReportingEnabled t |},
            Some h)
  end.

(** Successive [DetectSequences] calls on one detector with one handler. *)
Fixpoint feed {H : Type} `{ScreenEventHandler H}
    (chunks : list (list Z)) (h : H) (t : TerminalSequenceDetector)
  : outcome (TerminalSequenceDetector * H) :=
  match chunks with
  | [] => Done (t, h)
  | c :: rest =>
      r <- DetectSequences c (Some h) t ;;
      match snd r with
      | Some h' => feed rest h' (fst r)
      | None => Panic
      end
  end.

(** The events a handler can receive, and the handler that records them. *)
Inductive ScreenEvent : Type :=
| ScreenClear
| TitleChange (title : list Z)
| FocusIn
| FocusOut.

#[export] Instance Recorder : ScreenEventHandler (list ScreenEvent) := {
  HandleScreenClear h := h ++ [ScreenClear];
  HandleTitleChange title h := h ++ [TitleChange title];
  HandleFocusIn h := h ++ [FocusIn];
  HandleFocusOut h := h ++ [FocusOut]
}.

(** The handler of the detector's tests. *)
Record mockScreenEventHandler : Type := {
  screenClearCount : Z;
  titleChanges : list (list Z);
  focusInCount : Z;
  focusOutCount : Z
}.

#[export] Instance Mock : ScreenEventHandler mockScreenEventHandler := {
  HandleScreenClear m :=
    {| screenClearCount := screenClearCount m + 1; titleChanges := titleChanges m;
       focusInCount := focusInCount m; focusOutCount := focusOutCount m |};
  HandleTitleChange title m :=
    {| screenClearCount := screenClearCount m; titleChanges := titleChanges m ++ [title];
       focusInCount := focusInCount m; focusOutCount := focusOutCount m |};
  HandleFocusIn m :=
    {| screenClearCount := screenClearCount m; titleChanges := titleChanges m;
       focusInCount := focusInCount m + 1; focusOutCount := focusOutCount m |};
  HandleFocusOut m :=
    {| screenClearCount := screenClearCount m; titleChanges := titleChanges m;
       focusInCount := focusInCount m; focusOutCount := focusOutCount m + 1 |}
}.

Definition newMock : mockScreenEventHandler :=
  {| screenClearCount := 0; titleChanges := []; focusInCount := 0; focusOutCount := 0 |}.

(** *** Vocabulary of the properties *)

(** The last [n] bytes of [l] (all of [l] when it is shorter). *)
Definition lastBytes (n : nat) (l : list Z) : list Z :=
  skipn (length l - n) l.

(** The events a fresh detector reports over successive chunks. *)
Definition eventsOf (chunks : list (list Z)) : outcome (list ScreenEvent) :=
  r <- feed chunks (@nil ScreenEvent) NewTerminalSequenceDetector ;; Done (snd r).

End Detector.

(* ===================================================================== *)
(** ** Terminal state *)
(* ===================================================================== *)

Module TermState.

Record TerminalState : Type := {
  title : list Z;
  focused : bool;
  lastFocusChange : Z;
  focusReportingEnabled : bool
}.

(** [NewTerminalState()], at clock reading [now]. *)
Definition NewTerminalState (now : Z) : TerminalState :=
  {| title := []; focused := true; lastFocusChange := now;
     focusReportingEnabled := false |}.

Definition SetTitle (newTitle : list Z) (ts : TerminalState) : TerminalState :=
  {| title := newTitle; focused := focused ts;
     lastFocusChange := lastFocusChange ts;
     focusReportingEnabled := focusReportingEnabled ts |}.

Definition GetTitle (ts : TerminalState) : list Z := title ts.

(** [if ts.focused != focused { ts.focused = focused; ts.lastFocusChange = time.Now() }] *)
Definition SetFocused (newFocused : bool) (now : Z) (ts : TerminalState) : TerminalState :=
  if negb (Bool.eqb (focused ts) newFocused) then
    {| title := title ts; focused := newFocused; lastFocusChange := now;
       focusReportingEnabled := focusReportingEnabled ts |}
  else ts.

Definition IsFocused (ts : TerminalState) : bool := focused ts.
Definition GetLastFocusChange (ts : TerminalState) : Z := lastFocusChange ts.

Definition SetFocusReportingEnabled (enabled : bool) (ts : TerminalState) : TerminalState :=
  {| title := title ts; focused := focused ts;
     lastFocusChange := lastFocusChange ts;
     focusReportingEnabled := enabled |}.

End TermState.

(* ===================================================================== *)
(** ** Backstop notification engine *)
(* ===================================================================== *)

Module Backstop.

Record Notification : Type := {
  Title : string;
  Message : string;
  Time : Z;
  Pattern : string
}.

(** A runtime timer made by [time.AfterFunc(bn.timeout, bn.sendBackstopNotification)].
    [Pending]: armed, not yet due or not yet noticed by the runtime.
    [Stopped]: [Stop()] came first.
    [Expired]: the runtime started the callback, which has yet to take the lock.
    [Ran]: the callback has run. *)
Inductive TimerStatus : Type := Pending | Stopped | Expired | Ran.

Record Timer : Type := {
  deadline : Z;
  status : TimerStatus
}.

(** Where a call of [underlying.Send] comes from. *)
Inductive CallSite : Type :=
| FromSend        (* the forward at the end of [Send] *)
| FromBackstop.   (* the delivery in [sendBackstopNotification] *)

(** The notifier with what it refers to: the timers of the runtime, which
    [timer] points into, and the notifications its underlying notifier
    has received, each with its call site. *)
Record BackstopNotifier : Type := {
  timeout : Z;
  lastNotificationTime : Z;
  lastActivityTime : Z;
  lastUserInteraction : Z;
  timer : option nat;
  backstopSent : bool;
  backstopDisabled : bool;
  idleNotificationSentSinceLastInteraction : bool;
  (* the surroundings *)
  timers : list Timer;
  underlying : list (CallSite * Notification)
}.

(** Field updates. *)
Definition set_lastNotificationTime (v : Z) (bn : BackstopNotifier) :=
  {| timeout := timeout bn; lastNotificationTime := v;
     lastActivityTime := lastActivityTime bn; lastUserInteraction := lastUserInteraction bn;
     timer := timer bn; backstopSent := backstopSent bn;
     backstopDisabled := backstopDisabled bn;
     idleNotificationSentSinceLastInteraction := idleNotificationSentSinceLastInteraction bn;
     timers := timers bn; underlying := underlying bn |}.
Definition set_lastActivityTime (v : Z) (bn : BackstopNotifier) :=
  {| timeout := timeout bn; lastNotificationTime := lastNotificationTime bn;
     lastActivityTime := v; lastUserInteraction := lastUserInteraction bn;
     timer := timer bn; backstopSent := backstopSent bn;
     backstopDisabled := backstopDisabled bn;
     idleNotificationSentSinceLastInteraction := idleNotificationSentSinceLastInteraction bn;
     timers := timers bn; underlying := underlying bn |}.
Definition set_lastUserInteraction (v : Z) (bn : BackstopNotifier) :=
  {| timeout := timeout bn; lastNotificationTime := lastNotificationTime bn;
     lastActivityTime := lastActivityTime bn; lastUserInteraction := v;
     timer := timer bn; backstopSent := backstopSent bn;
     backstopDisabled := backstopDisabled bn;
     idleNotificationSentSinceLastInteraction := idleNotificationSentSinceLastInteraction bn;
     timers := timers bn; underlying := underlying bn |}.
Definition set_timer (v : option nat) (bn : BackstopNotifier) :=
  {| timeout := timeout bn; lastNotificationTime := lastNotificationTime bn;
     lastActivityTime := lastActivityTime bn; lastUserInteraction := lastUserInteraction bn;
     timer := v; backstopSent := backstopSent bn;
     backstopDisabled := backstopDisabled bn;
     idleNotificationSentSinceLastInteraction := idleNotificationSentSinceLastInteraction bn;
     timers := timers bn; underlying := underlying bn |}.
Definition set_backstopSent (v : bool) (bn : BackstopNotifier) :=
  {| timeout := timeout bn; lastNotificationTime := lastNotificationTime bn;
     lastActivityTime := lastActivityTime bn; lastUserInteraction := lastUserInteraction bn;
     timer := timer bn; backstopSent := v;
     backstopDisabled := backstopDisabled bn;
     idleNotificationSentSinceLastInteraction := idleNotificationSentSinceLastInteraction bn;
     timers := timers bn; underlying := underlying bn |}.
Definition set_backstopDisabled (v : bool) (bn : BackstopNotifier) :=
  {| timeout := timeout bn; lastNotificationTime := lastNotificationTime bn;
     lastActivityTime := lastActivityTime bn; lastUserInteraction := lastUserInteraction bn;
     timer := timer bn; backstopSent := backstopSent bn;
     backstopDisabled := v;
     idleNotificationSentSinceLastInteraction := idleNotificationSentSinceLastInteraction bn;
     timers := timers bn; underlying := underlying bn |}.
Definition set_idleNotificationSentSinceLastInteraction (v : bool) (bn : BackstopNotifier) :=
  {| timeout := timeout bn; lastNotificationTime := lastNotificationTime bn;
     lastActivityTime := lastActivityTime bn; lastUserInteraction := lastUserInteraction bn;
     timer := timer bn; backstopSent := backstopSent bn;
     backstopDisabled := backstopDisabled bn;
     idleNotificationSentSinceLastInteraction := v;
     timers := timers bn; underlying := underlying bn |}.
Definition set_timers (v : list Timer) (bn : BackstopNotifier) :=
  {| timeout := timeout bn; lastNotificationTime := lastNotificationTime bn;
     lastActivityTime := lastActivityTime bn; lastUserInteraction := lastUserInteraction bn;
     timer := timer bn; backstopSent := backstopSent bn;
     backstopDisabled := backstopDisabled bn;
     idleNotificationSentSinceLastInteraction := idleNotificationSentSinceLastInteraction bn;
     timers := v; underlying := underlying bn |}.
Definition set_underlying (v : list (CallSite * Notification)) (bn : BackstopNotifier) :=
  {| timeout := timeout bn; lastNotificationTime := lastNotificationTime bn;
     lastActivityTime := lastActivityTime bn; lastUserInteraction := lastUserInteraction bn;
     timer := timer bn; backstopSent := backstopSent bn;
     backstopDisabled := backstopDisabled bn;
     idleNotificationSentSinceLastInteraction := idleNotificationSentSinceLastInteraction bn;
     timers := timers bn; underlying := v |}.

(** *** The runtime's timers *)

(** Replace the status of timer [k]. *)
Fixpoint setStatus (k : nat) (st : TimerStatus) (ts : list Timer) : list Timer :=
  match ts, k with
  | [], _ => []
  | t :: r, O => {| deadline := deadline t; status := st |} :: r
  | t :: r, S k' => t :: setStatus k' st r
  end.

Definition statusOf (k : nat) (ts : list Timer) : option TimerStatus :=
  option_map status (nth_error ts k).

(** [t.Stop()]: a pending timer will not fire; otherwise nothing changes. *)
Definition stopTimer (k : nat) (ts : list Timer) : list Timer :=
  match statusOf k ts with
  | Some Pending => setStatus k Stopped ts
  | _ => ts
  end.

(** [if bn.timer != nil { bn.timer.Stop() }] *)
Definition stopIfSet (bn : BackstopNotifier) : BackstopNotifier :=
  match timer bn with
  | Some k => set_timers (stopTimer k (timers bn)) bn
  | None => bn
  end.

(** [if bn.timeout > 0 { bn.timer = time.AfterFunc(bn.timeout, bn.sendBackstopNotification) }] *)
Definition armIfConfigured (now : Z) (bn : BackstopNotifier) : BackstopNotifier :=
  if timeout bn >? 0 then
    set_timer (Some (length (timers bn)))
      (set_timers (timers bn ++ [{| deadline := now + timeout bn; status := Pending |}]) bn)
  else bn.

(** *** The methods, each one critical section under [bn.mu] *)

Definition startTimer (now : Z) (bn : BackstopNotifier) : BackstopNotifier :=
  armIfConfigured now bn.

Definition NewBackstopNotifier (timeout0 : Z) (now : Z) : BackstopNotifier :=
  let bn := {| timeout := timeout0; lastNotificationTime := 0;
               lastActivityTime := now; lastUserInteraction := now;
               timer := None; backstopSent := false; backstopDisabled := false;
               idleNotificationSentSinceLastInteraction := false;
               timers := []; underlying := [] |} in
  if timeout0 >? 0 then startTimer now bn else bn.

Definition Send (notification : Notification) (now : Z) (bn : BackstopNotifier)
  : BackstopNotifier :=
  let bn := set_lastActivityTime now bn in
  let bn := set_lastNotificationTime now bn in
  let bn := set_backstopSent false bn in
  let bn := stopIfSet bn in
  let bn := armIfConfigured now bn in
  set_underlying (underlying bn ++ [(FromSend, notification)]) bn.

Definition MarkActivity (now : Z) (bn : BackstopNotifier) : BackstopNotifier :=
  let bn := set_lastActivityTime now bn in
  let bn := set_backstopSent false bn in
  let bn := set_backstopDisabled false bn in
  let bn := stopIfSet bn in
  armIfConfigured now bn.

Definition backstopNotification (now : Z) : Notification :=
  {| Title := "Gemini needs attention"; Message := "No activity detected";
     Time := now; Pattern := "backstop" |}.

Definition sendBackstopNotification (now : Z) (bn : BackstopNotifier) : BackstopNotifier :=
  if backstopSent bn || backstopDisabled bn then bn
  else if idleNotificationSentSinceLastInteraction bn then bn
  else
    let notification := backstopNotification now in
    let bn := set_lastNotificationTime now bn in
    let bn := set_backstopSent true bn in
    let bn := set_idleNotificationSentSinceLastInteraction true bn in
    set_underlying (underlying bn ++ [(FromBackstop, notification)]) bn.

Definition SetBackstopSent (sent : bool) (bn : BackstopNotifier) : BackstopNotifier :=
  let bn := set_backstopSent sent bn in
  if sent then stopIfSet bn else bn.

Definition ResetSession (now : Z) (bn : BackstopNotifier) : BackstopNotifier :=
  let bn := set_backstopSent false bn in
  let bn := set_backstopDisabled false bn in
  let bn := set_lastActivityTime now bn in
  let bn := set_idleNotificationSentSinceLastInteraction false bn in
  let bn := stopIfSet bn in
  armIfConfigured now bn.

Definition DisableBackstopTimer (now : Z) (bn : BackstopNotifier) : BackstopNotifier :=
  let bn := set_backstopDisabled true bn in
  let bn := set_lastUserInteraction now bn in
  let bn := set_idleNotificationSentSinceLastInteraction false bn in
  stopIfSet bn.

Definition Close (bn : BackstopNotifier) : BackstopNotifier := stopIfSet bn.

(** *** Events of the engine

    Every method call is one event.  A timer fires in two steps: the
    runtime notices that a pending timer is due and starts its callback
    ([Expire]), and later the callback gets the lock and runs
    ([Callback]); method calls may come in between. *)
Inductive Event : Type :=
| EvSend (notification : Notification)
| EvMarkActivity
| EvSetBackstopSent (sent : bool)
| EvResetSession
| EvDisableBackstopTimer
| EvClose
| EvExpire (k : nat)
| EvCallback (k : nat).

Definition expire (k : nat) (now : Z) (bn : BackstopNotifier) : BackstopNotifier :=
  match nth_error (timers bn) k with
  | Some t =>
      match status t with
      | Pending =>
          if deadline t <=? now then set_timers (setStatus k Expired (timers bn)) bn
          else bn
      | _ => bn
      end
  | None => bn
  end.

Definition callback (k : nat) (now : Z) (bn : BackstopNotifier) : BackstopNotifier :=
  match statusOf k (timers bn) with
  | Some Expired =>
      sendBackstopNotification now (set_timers (setStatus k Ran (timers bn)) bn)
  | _ => bn
  end.

(** One event at clock reading [now]. *)
Definition step (now : Z) (e : Event) (bn : BackstopNotifier) : BackstopNotifier :=
  match e with
  | EvSend n => Send n now bn
  | EvMarkActivity => MarkActivity now bn
  | EvSetBackstopSent sent => SetBackstopSent sent bn
  | EvResetSession => ResetSession now bn
  | EvDisableBackstopTimer => DisableBackstopTimer now bn
  | EvClose => Close bn
  | EvExpire k => expire k now bn
  | EvCallback k => callback k now bn
  end.

Fixpoint run (trace : list (Z * Event)) (bn : BackstopNotifier) : BackstopNotifier :=
  match trace with
  | [] => bn
  | (now, e) :: rest => run rest (step now e bn)
  end.

(** The number of notifications delivered by [sendBackstopNotification]. *)
Definition isBackstopDelivery (d : CallSite * Notification) : bool :=
  match fst d with
  | FromBackstop => true
  | FromSend => false
  end.

Definition backstopDeliveries (bn : BackstopNotifier) : nat :=
  length (filter isBackstopDelivery (underlying bn)).

(** Kinds of events. *)
Definition isUserInteraction (e : Event) : bool :=
  match e with EvDisableBackstopTimer => true | _ => false end.
Definition isSessionReset (e : Event) : bool :=
  match e with EvResetSession => true | _ => false end.
Definition isActivity (e : Event) : bool :=
  match e with EvMarkActivity => true | _ => false end.

(** No timer other than the one [bn.timer] refers to is pending, and
    [bn.timer], when set, refers to an existing timer. *)
Definition timerPending (k : nat) (bn : BackstopNotifier) : bool :=
  match statusOf k (timers bn) with
  | Some Pending => true
  | _ => false
  end.

Definition wellFormed (bn : BackstopNotifier) : Prop :=
  (forall k, timerPending k bn = true -> timer bn = Some k) /\
  (forall k, timer bn = Some k -> (k < length (timers bn))%nat) /\
  (timers bn <> [] -> timeout bn > 0).

(** *** Vocabulary of the properties *)

(** "Already sent since the last interaction". *)
Definition idle (bn : BackstopNotifier) : bool :=
  idleNotificationSentSinceLastInteraction bn.

(** What is left of the one notification the current window may get. *)
Definition budget (bn : BackstopNotifier) : nat :=
  if idle bn then 0%nat else 1%nat.

Definition resetCost (e : Event) : nat :=
  if isSessionReset e then 1%nat else 0%nat.

(** Traces without a user interaction, and the session resets of a trace. *)
Definition noUserInteraction (trace : list (Z * Event)) : bool :=
  forallb (fun te => negb (isUserInteraction (snd te))) trace.

Definition sessionResets (trace : list (Z * Event)) : nat :=
  length (filter (fun te => isSessionReset (snd te)) trace).

(** A window with output in it: the timer fires, output re-arms it and it
    fires again; one notification is delivered. *)
Definition quietThenOutput : list (Z * Event) :=
  [ (30, EvExpire 0%nat); (30, EvCallback 0%nat);
    (31, EvMarkActivity);
    (61, EvExpire 1%nat); (61, EvCallback 1%nat) ].

(** The timer fires, the session is reset, the timer fires again. *)
Definition fireResetFire : list (Z * Event) :=
  [ (30, EvExpire 0%nat); (30, EvCallback 0%nat);
    (31, EvResetSession);
    (61, EvExpire 1%nat); (61, EvCallback 1%nat) ].

(** No timer is pending / every timer made before a given state is not. *)
Definition noPending (bn : BackstopNotifier) : Prop :=
  forall k, timerPending k bn = false.

(** [bn.timer] refers to a pending timer due at [t + bn.timeout]. *)
Definition armedAt (t : Z) (bn : BackstopNotifier) : bool :=
  match timer bn with
  | Some k =>
      match nth_error (timers bn) k with
      | Some tm =>
          match status tm with
          | Pending => deadline tm =? t + timeout bn
          | _ => false
          end
      | None => false
      end
  | None => false
  end.

(** Events that are neither a user interaction nor a session reset. *)
Definition withinWindow (trace : list (Z * Event)) : bool :=
  forallb (fun te => negb (isUserInteraction (snd te)) && negb (isSessionReset (snd te)))
          trace.

(** Events that leave [backstopSent] set: everything but activity, a
    forwarded notification, a session reset and [SetBackstopSent(false)]. *)
Definition keepsSent (e : Event) : bool :=
  match e with
  | EvSend _ | EvMarkActivity | EvResetSession | EvSetBackstopSent false => false
  | _ => true
  end.

Definition allKeepSent (trace : list (Z * Event)) : bool :=
  forallb (fun te => keepsSent (snd te)) trace.

(** A bell, then output, then the timer set by that output fires. *)
Definition bellThenOutput : list (Z * Event) :=
  [ (1, EvSetBackstopSent true);
    (2, EvMarkActivity);
    (32, EvExpire 1%nat); (32, EvCallback 1%nat) ].

(** Any notification handed to [Send]. *)
Definition startupNotification : Notification :=
  {| Title := "Gemini CLI Session Started"; Message := "Working directory: /";
     Time := 0; Pattern := "startup" |}.

End Backstop.

(* ===================================================================== *)
(** ** Output monitor *)
(* ===================================================================== *)

Module Monitor.

(** The notifier the monitor holds is an interface value; the monitor asks
    by type assertion for [MarkActivity], [SetBackstopSent] and
    [ResetSession].  Of the notifiers of the repository only
    [*BackstopNotifier] has them. *)
Inductive Notifier : Type :=
| IsBackstop (bn : Backstop.BackstopNotifier)
| SendOnly (sent : list Backstop.Notification).

Record OutputMonitor : Type := {
  notifier : Notifier;
  lastOutputTime : Z;
  lineBuffer : list Z;
  sequenceDetector : Detector.TerminalSequenceDetector;
  terminalState : TermState.TerminalState
}.

Definition set_notifier (v : Notifier) (om : OutputMonitor) :=
  {| notifier := v; lastOutputTime := lastOutputTime om; lineBuffer := lineBuffer om;
     sequenceDetector := sequenceDetector om; terminalState := terminalState om |}.
Definition set_lastOutputTime (v : Z) (om : OutputMonitor) :=
  {| notifier := notifier om; lastOutputTime := v; lineBuffer := lineBuffer om;
     sequenceDetector := sequenceDetector om; terminalState := terminalState om |}.
Definition set_lineBuffer (v : list Z) (om : OutputMonitor) :=
  {| notifier := notifier om; lastOutputTime := lastOutputTime om; lineBuffer := v;
     sequenceDetector := sequenceDetector om; terminalState := terminalState om |}.
Definition set_sequenceDetector (v : Detector.TerminalSequenceDetector) (om : OutputMonitor) :=
  {| notifier := notifier om; lastOutputTime := lastOutputTime om; lineBuffer := lineBuffer om;
     sequenceDetector := v; terminalState := terminalState om |}.
Definition set_terminalState (v : TermState.TerminalState) (om : OutputMonitor) :=
  {| notifier := notifier om; lastOutputTime := lastOutputTime om; lineBuffer := lineBuffer om;
     sequenceDetector := sequenceDetector om; terminalState := v |}.

Definition NewOutputMonitor (n : Notifier) (now : Z) : OutputMonitor :=
  {| notifier := n; lastOutputTime := now; lineBuffer := [];
     sequenceDetector := Detector.NewTerminalSequenceDetector;
     terminalState := TermState.NewTerminalState now |}.

Definition SetNotifier (n : Notifier) (om : OutputMonitor) : OutputMonitor :=
  set_notifier n om.

(** [if x, ok := om.notifier.(interface{ ... }); ok { x.method() }] *)
Definition ifBackstop (f : Backstop.BackstopNotifier -> Backstop.BackstopNotifier)
    (om : OutputMonitor) : OutputMonitor :=
  match notifier om with
  | IsBackstop bn => set_notifier (IsBackstop (f bn)) om
  | SendOnly _ => om
  end.

(** The monitor is its own screen event handler ([om.screenEventHandler = om]). *)
Definition HandleScreenClear (now : Z) (om : OutputMonitor) : OutputMonitor :=
  ifBackstop (Backstop.ResetSession now) om.
Definition HandleTitleChange (title : list Z) (om : OutputMonitor) : OutputMonitor :=
  set_terminalState (TermState.SetTitle title (terminalState om)) om.
Definition HandleFocusIn (now : Z) (om : OutputMonitor) : OutputMonitor :=
  set_terminalState (TermState.SetFocused true now (terminalState om)) om.
Definition HandleFocusOut (now : Z) (om : OutputMonitor) : OutputMonitor :=
  set_terminalState (TermState.SetFocused false now (terminalState om)) om.

Definition asHandler (now : Z) : Detector.ScreenEventHandler OutputMonitor :=
  {| Detector.HandleScreenClear := HandleScreenClear now;
     Detector.HandleTitleChange := HandleTitleChange;
     Detector.HandleFocusIn := HandleFocusIn now;
     Detector.HandleFocusOut := HandleFocusOut now |}.

(** [processLine(line)]: [bytes.Contains(line, []byte{0x07})] is the bell. *)
Definition processLine (line : list Z) (om : OutputMonitor) : OutputMonitor :=
  if Detector.Contains line [BEL]
  then ifBackstop (Backstop.SetBackstopSent true) om
  else om.

(** [buffer[lo:hi]], bounds checked. *)
Definition slice (data : list Z) (lo hi : Z) : outcome (list Z) :=
  if (0 <=? lo) && (lo <=? hi) && (hi <=? len data)
  then Done (firstn (Z.to_nat (hi - lo)) (skipn (Z.to_nat lo) data))
  else Panic.

(** [for i := 0; i < len(buffer); i++ {
       if buffer[i] == '\n' { line := buffer[start:i]; om.processLine(line); start = i + 1 } }]
    The state is the monitor together with the lines [processLine] has been
    called on so far, in order. *)
Fixpoint lineLoop (buffer : list Z) (fuel : nat) (i start : Z)
    (st : OutputMonitor * list (list Z))
  : outcome (Z * (OutputMonitor * list (list Z))) :=
  if i <? len buffer then
    match fuel with
    | O => OutOfFuel
    | S fuel' =>
        b <- index buffer i ;;
        if b =? LF then
          line <- slice buffer start i ;;
          lineLoop buffer fuel' (i + 1) (i + 1)
            (processLine line (fst st), snd st ++ [line])
        else lineLoop buffer fuel' (i + 1) start st
    end
  else Done (start, st).

(** [HandleData(data)] at clock reading [now].  The result is the monitor
    and the lines [processLine] was called on during the call. *)
Definition HandleData (data : list Z) (now : Z) (om : OutputMonitor)
  : outcome (OutputMonitor * list (list Z)) :=
  r <- @Detector.DetectSequences _ (asHandler now) data (Some om) (sequenceDetector om) ;;
  let om := match snd r with
            | Some om' => set_sequenceDetector (fst r) om'
            | None => om
            end in
  let om := set_lastOutputTime now om in
  visible <- Classifier.containsVisibleContent data ;;
  let om := if visible then ifBackstop (Backstop.MarkActivity now) om else om in
  let buffer := lineBuffer om ++ data in
  let om := set_lineBuffer [] om in
  r <- lineLoop buffer (length buffer) 0 0 (om, []) ;;
  let start := fst r in
  let om := fst (snd r) in
  let calls := snd (snd r) in
  if start <? len buffer then
    rest <- slice buffer start (len buffer) ;;
    Done (set_lineBuffer rest om, calls)
  else Done (om, calls).

(** [Flush()], with the lines [processLine] was called on. *)
Definition Flush (om : OutputMonitor) : OutputMonitor * list (list Z) :=
  if len (lineBuffer om) >? 0 then
    let line := lineBuffer om in
    (set_lineBuffer [] (processLine line om), [line])
  else (om, []).

(** Successive [HandleData] calls, collecting the [processLine] calls. *)
Fixpoint handleAll (chunks : list (list Z * Z)) (om : OutputMonitor)
  : outcome (OutputMonitor * list (list Z)) :=
  match chunks with
  | [] => Done (om, [])
  | (data, now) :: rest =>
      r <- HandleData data now om ;;
      r' <- handleAll rest (fst r) ;;
      Done (fst r', snd r ++ snd r')
  end.

(** *** The wiring of [NewDependencies]: what happens around the monitor *)

Inductive SysEvent : Type :=
| Output (data : list Z)   (* the PTY copy loop hands a chunk to [HandleData] *)
| UserInput                (* [inputHandler]: [DisableBackstopTimer] on a backstop notifier *)
| TimerExpire (k : nat)
| TimerCallback (k : nat).

Definition sysStep (now : Z) (e : SysEvent) (om : OutputMonitor) : outcome OutputMonitor :=
  match e with
  | Output data => r <- HandleData data now om ;; Done (fst r)
  | UserInput => Done (ifBackstop (Backstop.DisableBackstopTimer now) om)
  | TimerExpire k => Done (ifBackstop (Backstop.expire k now) om)
  | TimerCallback k => Done (ifBackstop (Backstop.callback k now) om)
  end.

Fixpoint sysRun (trace : list (Z * SysEvent)) (om : OutputMonitor) : outcome OutputMonitor :=
  match trace with
  | [] => Done om
  | (now, e) :: rest => om' <- sysStep now e om ;; sysRun rest om'
  end.

Definition deliveries (om : OutputMonitor) : nat :=
  match notifier om with
  | IsBackstop bn => Backstop.backstopDeliveries bn
  | SendOnly _ => O
  end.

(** *** Vocabulary of the properties *)

(** A byte string without a newline. *)
Definition noLF (l : list Z) : bool := forallb (fun b => negb (b =? LF)) l.

(** The lines, each followed by its newline, one after the other. *)
Definition joinLines (lines : list (list Z)) : list Z :=
  concat (map (fun l => l ++ [LF]) lines).

(** A monitor on a backstop notifier with a timeout of 30, made at time 0. *)
Definition monitor30 : OutputMonitor :=
  NewOutputMonitor (IsBackstop (Backstop.NewBackstopNotifier 30 0)) 0.

(** The child rings the bell on a line, prints more, and goes quiet. *)
Definition bellLineThenOutput : list (Z * SysEvent) :=
  [ (1, Output (bs "ding" ++ [BEL; LF]));
    (2, Output (bs "more"));
    (32, TimerExpire 2%nat); (32, TimerCallback 2%nat) ].

Definition backstopSentOf (om : OutputMonitor) : option bool :=
  match notifier om with
  | IsBackstop bn => Some (Backstop.backstopSent bn)
  | SendOnly _ => None
  end.

End Monitor.

(* ===================================================================== *)
(** ** Further vocabulary for the backstop engine *)
(* ===================================================================== *)

Module BackstopVocab.
Import Backstop.

(** The two steps of a timer firing. *)
Definition isTimerEvent (e : Event) : bool :=
  match e with
  | EvExpire _ | EvCallback _ => true
  | _ => false
  end.

Definition timerEventsOnly (trace : list (Z * Event)) : bool :=
  forallb (fun te => isTimerEvent (snd te)) trace.

(** Every event of the trace happens before [t]. *)
Definition allBefore (t : Z) (trace : list (Z * Event)) : bool :=
  forallb (fun te => fst te <? t) trace.

(** No callback has been started and not yet run. *)
Definition noExpired (bn : BackstopNotifier) : Prop :=
  forall k, statusOf k (timers bn) <> Some Expired.

(** No pending timer is due before [d]. *)
Definition pendingNotBefore (d : Z) (bn : BackstopNotifier) : Prop :=
  forall k tm, nth_error (timers bn) k = Some tm -> status tm = Pending -> d <= deadline tm.

(** Events that leave [backstopDisabled] set: all but activity and a
    session reset. *)
Definition keepsDisabled (e : Event) : bool :=
  match e with
  | EvMarkActivity | EvResetSession => false
  | _ => true
  end.

Definition allKeepDisabled (trace : list (Z * Event)) : bool :=
  forallb (fun te => keepsDisabled (snd te)) trace.

(** The notifications handed to [Send] in a trace, in order. *)
Fixpoint sentIn (trace : list (Z * Event)) : list Notification :=
  match trace with
  | [] => []
  | (_, EvSend n) :: rest => n :: sentIn rest
  | _ :: rest => sentIn rest
  end.

(** What the underlying notifier received from [Send]. *)
Definition forwarded (bn : BackstopNotifier) : list Notification :=
  map snd (filter (fun d => negb (isBackstopDelivery d)) (underlying bn)).

(** What it received from [sendBackstopNotification]. *)
Definition backstops (bn : BackstopNotifier) : list Notification :=
  map snd (filter isBackstopDelivery (underlying bn)).

End BackstopVocab.

(* ===================================================================== *)
(** ** Further vocabulary for the detector *)
(* ===================================================================== *)

Module DetectorVocab.
Import Detector.

(** Hand one event to a handler. *)
Definition notify {H : Type} `{ScreenEventHandler H} (h : H) (ev : ScreenEvent) : H :=
  match ev with
  | ScreenClear => HandleScreenClear h
  | TitleChange title => HandleTitleChange title h
  | FocusIn => HandleFocusIn h
  | FocusOut => HandleFocusOut h
  end.

(** The byte [c] does not occur in [l]. *)
Definition noByte (c : Z) (l : list Z) : bool :=
  forallb (fun b => negb (b =? c)) l.

(** The events of one call in the order the handler gets them: at most one
    of each kind. *)
Definition eventsOfCall (clear focusIn focusOut : bool) (title : option (list Z))
  : list ScreenEvent :=
  (if clear then [ScreenClear] else []) ++
  (if focusIn then [FocusIn] else []) ++
  (if focusOut then [FocusOut] else []) ++
  match title with
  | Some x => [TitleChange x]
  | None => []
  end.

(** An OSC title sequence: [ESC ] d ; title] and its terminator, BEL or,
    with [st], ESC and a backslash. *)
Definition titleSequence (d : Z) (title : list Z) (st : bool) : list Z :=
  ESC :: RBRACKET :: d :: 59 :: title ++ (if st then [ESC; BACKSLASH] else [BEL]).

(** ['0'], ['1'] or ['2']. *)
Definition isTitleKind (d : Z) : bool := (d =? 48) || (d =? 49) || (d =? 50).

End DetectorVocab.

(* ===================================================================== *)
(** ** More of the output monitor *)
(* ===================================================================== *)

Module MonitorVocab.
Import Monitor.

(** [HandleLine(line)]: [om.HandleData([]byte(line + "\n"))]. *)
Definition HandleLine (line : list Z) (now : Z) (om : OutputMonitor)
  : outcome (OutputMonitor * list (list Z)) :=
  HandleData (line ++ [LF]) now om.

(** [GetTerminalTitle()]; the terminal state is never nil. *)
Definition GetTerminalTitle (om : OutputMonitor) : list Z :=
  TermState.GetTitle (terminalState om).

(** [bytes.Contains(line, []byte{0x07})] *)
Definition hasBell (line : list Z) : bool := Detector.Contains line [BEL].

Definition isScreenClear (ev : Detector.ScreenEvent) : bool :=
  match ev with
  | Detector.ScreenClear => true
  | _ => false
  end.

(** The calls one [HandleData] makes on a backstop notifier, as events of
    the engine: a session reset for a screen clear, an activity mark for
    visible content, a bell for each line with one. *)
Definition engineEvents (now : Z) (clear visible : bool) (calls : list (list Z))
  : list (Z * Backstop.Event) :=
  (if clear then [(now, Backstop.EvResetSession)] else []) ++
  (if visible then [(now, Backstop.EvMarkActivity)] else []) ++
  map (fun _ => (now, Backstop.EvSetBackstopSent true)) (filter hasBell calls).

(** What the notifier under the monitor has been asked to deliver. *)
Definition notifications (n : Notifier) : list Backstop.Notification :=
  match n with
  | IsBackstop bn => map snd (Backstop.underlying bn)
  | SendOnly sent => sent
  end.

(** The title of the last title sequence of a window, if it holds one. *)
Definition lastTitle (window : list Z) : option (list Z) :=
  match Detector.findAllTitles 0 window with
  | [] => None
  | m :: ms => Some (last ms m)
  end.

End MonitorVocab.


(* ===================================================================== *)
(** ** Command line and child environment *)
(* ===================================================================== *)

Module Main.

(** [strings.HasPrefix(s, prefix)] *)
Definition HasPrefix (s prefix : string) : bool := String.prefix prefix s.

(** The cases of the [switch] in [main], and the test of its default case. *)
Definition isConfigFlag (arg : string) : bool :=
  String.eqb arg "--config" || String.eqb arg "-config".
Definition isQuietFlag (arg : string) : bool :=
  String.eqb arg "--quiet" || String.eqb arg "-quiet".
Definition isHelpFlag (arg : string) : bool :=
  String.eqb arg "--help" || String.eqb arg "-help".
Definition isConfigAssignment (arg : string) : bool :=
  HasPrefix arg "--config=" || HasPrefix arg "-config=".

(** The loop of [main] that separates the wrapper's flags from Gemini's.
    [args] is what is left of [os.Args] from index [i] on; a [--config]
    followed by a word that does not start with a dash takes the word with
    it ([i++] twice). *)
Fixpoint splitArgs (args ourArgs geminiArgs : list string) : list string * list string :=
  match args with
  | [] => (ourArgs, geminiArgs)
  | arg :: rest =>
      if isConfigFlag arg then
        let ourArgs := ourArgs ++ [arg] in
        match rest with
        | next :: rest' =>
            if negb (HasPrefix next "-")
            then splitArgs rest' (ourArgs ++ [next]) geminiArgs
            else splitArgs rest ourArgs geminiArgs
        | [] => splitArgs rest ourArgs geminiArgs
        end
      else if isQuietFlag arg then splitArgs rest (ourArgs ++ [arg]) geminiArgs
      else if isHelpFlag arg then splitArgs rest (ourArgs ++ [arg]) geminiArgs
      else if isConfigAssignment arg then splitArgs rest (ourArgs ++ [arg]) geminiArgs
      else splitArgs rest ourArgs (geminiArgs ++ [arg])
  end.

(** [arg == "-help" || arg == "--help" || arg == "-h"] *)
Definition isHelpWord (arg : string) : bool :=
  String.eqb arg "-help" || String.eqb arg "--help" || String.eqb arg "-h".

(** The condition of the inner loop of the early help check. *)
Definition countsAsGeminiArg (a : string) : bool :=
  negb (String.eqb a "-help") && negb (String.eqb a "--help") && negb (String.eqb a "-h") &&
  negb (String.eqb a "--quiet") && negb (String.eqb a "-quiet") &&
  negb (HasPrefix a "--config") && negb (HasPrefix a "-config").

(** The early help check over [os.Args[1:]]: [true] when [main] prints its
    usage and exits. *)
Fixpoint helpLoop (all rest : list string) : bool :=
  match rest with
  | [] => false
  | arg :: rest' =>
      if isHelpWord arg then
        let hasGeminiArgs := existsb countsAsGeminiArg all in
        if negb hasGeminiArgs then true else helpLoop all rest'
      else helpLoop all rest'
  end.

Definition showsUsage (args : list string) : bool := helpLoop args args.

(** *** Vocabulary of the properties *)

(** [l] is [a] and [b] interleaved, each in its order. *)
Inductive Merge {A : Type} : list A -> list A -> list A -> Prop :=
| MergeNil : Merge [] [] []
| MergeLeft (x : A) (a b l : list A) : Merge a b l -> Merge (x :: a) b (x :: l)
| MergeRight (x : A) (a b l : list A) : Merge a b l -> Merge a (x :: b) (x :: l).

(** One of the wrapper's own flags, as the loop recognises them. *)
Definition isOwnFlag (arg : string) : bool :=
  isConfigFlag arg || isQuietFlag arg || isHelpFlag arg || isConfigAssignment arg.

Definition notOwn (a : string) : bool := negb (isOwnFlag a).

End Main.

Module Process.



End Process.
(* ********************************************************************* *)
(** * Properties *)
(* ********************************************************************* *)

Unset Implicit Arguments.

(* ===================================================================== *)
(** ** Lengths and indexing *)
(* ===================================================================== *)

Module SliceFacts.

Lemma len_app (a b : list Z) : len (a ++ b) = len a + len b.
Proof. unfold len. rewrite length_app. lia. Qed.

Lemma len_nonneg (a : list Z) : 0 <= len a.
Proof. unfold len. lia. Qed.

Lemma len_cons (b : Z) (a : list Z) : len (b :: a) = 1 + len a.
Proof. unfold len. simpl length. lia. Qed.

Lemma len_nil : len [] = 0.
Proof. reflexivity. Qed.

Ltac lens := repeat rewrite ?len_app, ?len_cons, ?len_nil in *.

(** An index within range reads a byte. *)
Lemma index_ok (data : list Z) (i : Z) :
  0 <= i < len data -> exists b, index data i = Done b.
Proof.
  intros Hi. unfold index.
  replace ((0 <=? i) && (i <? len data))%bool with true
    by (symmetry; apply andb_true_intro; split; [apply Z.leb_le | apply Z.ltb_lt]; lia).
  destruct (nth_error data (Z.to_nat i)) eqn:E; [eauto|].
  apply nth_error_None in E. unfold len in Hi. lia.
Qed.

Lemma byteIs_ok (data : list Z) (i c : Z) :
  0 <= i < len data -> exists b, byteIs data i c = Done b.
Proof.
  intros Hi. unfold byteIs. destruct (index_ok data i Hi) as [b Hb].
  rewrite Hb. simpl. eauto.
Qed.

(** The byte after a prefix. *)
Lemma index_mid (buffer a c : list Z) (b i : Z) :
  buffer = a ++ b :: c -> i = len a -> index buffer i = Done b.
Proof.
  intros -> ->. unfold index.
  pose proof (len_nonneg a). pose proof (len_nonneg c).
  replace ((0 <=? len a) && (len a <? len (a ++ b :: c)))%bool with true.
  - unfold len. rewrite Nat2Z.id, nth_error_app2 by lia.
    rewrite Nat.sub_diag. reflexivity.
  - symmetry. apply andb_true_intro. split; [apply Z.leb_le; lia|].
    apply Z.ltb_lt. lens. lia.
Qed.

End SliceFacts.
(* ===================================================================== *)
(** ** The classifier never panics and never runs out of fuel *)
(* ===================================================================== *)

Module ClassifierTotal.
Import Classifier SliceFacts.

(** The inner loops stop within the fuel [len(data) - i], at an index that
    did not move backwards and did not pass the end of the slice. *)
Lemma skipCSI_total (data : list Z) :
  forall (fuel : nat) (i : Z),
    0 <= i -> len data - i <= Z.of_nat fuel ->
    exists i', skipCSI data fuel i = Done i' /\ i <= i' /\ i' <= Z.max i (len data).
Proof.
  induction fuel as [|fuel IH]; intros i H0 Hf; simpl.
  - destruct (i <? len data) eqn:E; [apply Z.ltb_lt in E; lia|].
    exists i. repeat split; lia.
  - destruct (i <? len data) eqn:E.
    + apply Z.ltb_lt in E.
      destruct (index_ok data i) as [c Hc]; [lia|]. rewrite Hc. simpl.
      destruct (isFinal c).
      * exists (i + 1). repeat split; lia.
      * destruct (IH (i + 1)) as [i' [Hi' [Hlo Hhi]]]; [lia|lia|].
        exists i'. repeat split; [assumption|lia|lia].
    + exists i. repeat split; lia.
Qed.

Lemma skipOSC_total (data : list Z) :
  forall (fuel : nat) (i : Z),
    0 <= i -> len data - i <= Z.of_nat fuel ->
    exists i', skipOSC data fuel i = Done i' /\ i <= i' /\ i' <= Z.max i (len data).
Proof.
  induction fuel as [|fuel IH]; intros i H0 Hf; simpl.
  - destruct (i <? len data) eqn:E; [apply Z.ltb_lt in E; lia|].
    exists i. repeat split; lia.
  - destruct (i <? len data) eqn:E.
    + apply Z.ltb_lt in E.
      destruct (index_ok data i) as [c Hc]; [lia|]. rewrite Hc. simpl.
      destruct (c =? BEL).
      * exists (i + 1). repeat split; lia.
      * unfold andThen, byteIs. simpl.
        destruct (c =? ESC); simpl.
        -- destruct (i + 1 <? len data) eqn:E1; simpl.
           ++ apply Z.ltb_lt in E1.
              destruct (index_ok data (i + 1)) as [d Hd]; [lia|]. rewrite Hd. simpl.
              destruct (d =? BACKSLASH).
              ** exists (i + 1 + 1). repeat split; lia.
              ** destruct (IH (i + 1)) as [i' [Hi' [Hlo Hhi]]]; [lia|lia|].
                 exists i'. repeat split; [assumption|lia|lia].
           ++ destruct (IH (i + 1)) as [i' [Hi' [Hlo Hhi]]]; [lia|lia|].
              exists i'. repeat split; [assumption|lia|lia].
        -- destruct (IH (i + 1)) as [i' [Hi' [Hlo Hhi]]]; [lia|lia|].
           exists i'. repeat split; [assumption|lia|lia].
    + exists i. repeat split; lia.
Qed.

(** The outer loop returns a boolean whenever its fuel covers the bytes
    that are left. *)
Lemma scan_total (data : list Z) :
  forall (fuel : nat) (i : Z),
    0 <= i -> len data - i <= Z.of_nat fuel ->
    exists b, scan data fuel i = Done b.
Proof.
  induction fuel as [|fuel IH]; intros i H0 Hf; simpl.
  - destruct (i <? len data) eqn:E; [apply Z.ltb_lt in E; lia|eauto].
  - destruct (i <? len data) eqn:E; [|eauto].
    apply Z.ltb_lt in E.
    destruct (index_ok data i) as [b Hb]; [lia|]. rewrite Hb. simpl.
    assert (Hcsi : forall j, i < j ->
              exists r, (i0 <- skipCSI data fuel j ;; scan data fuel i0) = Done r).
    { intros j Hj.
      destruct (skipCSI_total data fuel j) as [i' [Hi' [Hlo Hhi]]]; [lia|lia|].
      rewrite Hi'. simpl. apply IH; lia. }
    destruct (b =? ESC).
    + destruct (i + 1 <? len data) eqn:E1.
      * apply Z.ltb_lt in E1.
        destruct (index_ok data (i + 1)) as [nx Hnx]; [lia|]. rewrite Hnx. simpl.
        destruct (nx =? LBRACKET); [apply Hcsi; lia|].
        destruct (nx =? RBRACKET).
        { destruct (skipOSC_total data fuel (i + 1 + 1)) as [i' [Hi' [Hlo Hhi]]]; [lia|lia|].
          rewrite Hi'. simpl. apply IH; lia. }
        destruct ((nx =? LPAREN) || (nx =? RPAREN))%bool.
        { destruct (i + 1 + 1 <? len data); apply IH; lia. }
        destruct (isVisibleByte b); [eauto|]. apply IH; lia.
      * destruct (isVisibleByte b); [eauto|]. apply IH; lia.
    + destruct (b =? CSI8); [apply Hcsi; lia|].
      destruct (isVisibleByte b); [eauto|]. apply IH; lia.
Qed.

(** More fuel does not change a result. *)
Lemma skipCSI_mono (data : list Z) :
  forall (fuel : nat) (i r : Z),
    skipCSI data fuel i = Done r ->
    forall fuel', (fuel <= fuel')%nat -> skipCSI data fuel' i = Done r.
Proof.
  induction fuel as [|fuel IH]; intros i r H fuel' Hle.
  - simpl in H. destruct (i <? len data) eqn:E; [discriminate|].
    destruct fuel'; simpl; rewrite E; exact H.
  - destruct fuel' as [|fuel']; [lia|].
    simpl in H |- *. destruct (i <? len data); [|exact H].
    destruct (index data i) as [c| |]; simpl in H |- *; try discriminate.
    destruct (isFinal c); [exact H|]. apply IH with (1 := H). lia.
Qed.

Lemma skipOSC_mono (data : list Z) :
  forall (fuel : nat) (i r : Z),
    skipOSC data fuel i = Done r ->
    forall fuel', (fuel <= fuel')%nat -> skipOSC data fuel' i = Done r.
Proof.
  induction fuel as [|fuel IH]; intros i r H fuel' Hle.
  - simpl in H. destruct (i <? len data) eqn:E; [discriminate|].
    destruct fuel'; simpl; rewrite E; exact H.
  - destruct fuel' as [|fuel']; [lia|].
    simpl in H |- *. destruct (i <? len data); [|exact H].
    destruct (index data i) as [c| |]; simpl in H |- *; try discriminate.
    destruct (c =? BEL); [exact H|].
    destruct (_ &&& byteIs data (i + 1) BACKSLASH) as [st| |];
      simpl in H |- *; try discriminate.
    destruct st; [exact H|]. apply IH with (1 := H). lia.
Qed.

Lemma scan_mono (data : list Z) :
  forall (fuel : nat) (i : Z) (r : bool),
    scan data fuel i = Done r ->
    forall fuel', (fuel <= fuel')%nat -> scan data fuel' i = Done r.
Proof.
  induction fuel as [|fuel IH]; intros i r H fuel' Hle.
  - simpl in H. destruct (i <? len data) eqn:E; [discriminate|].
    destruct fuel'; simpl; rewrite E; exact H.
  - destruct fuel' as [|fuel']; [lia|].
    assert (Hle' : (fuel <= fuel')%nat) by lia.
    simpl in H |- *. destruct (i <? len data); [|exact H].
    destruct (index data i) as [b| |]; simpl in H |- *; try discriminate.
    assert (Hcsi : forall j,
              (i0 <- skipCSI data fuel j ;; scan data fuel i0) = Done r ->
              (i0 <- skipCSI data fuel' j ;; scan data fuel' i0) = Done r).
    { intros j Hj. destruct (skipCSI data fuel j) as [i'| |] eqn:E; try discriminate.
      rewrite (skipCSI_mono _ _ _ _ E _ Hle'). simpl in Hj |- *. eauto. }
    destruct (b =? ESC).
    + destruct (i + 1 <? len data).
      * destruct (index data (i + 1)) as [nx| |]; simpl in H |- *; try discriminate.
        destruct (nx =? LBRACKET); [auto|].
        destruct (nx =? RBRACKET).
        { destruct (skipOSC data fuel (i + 1 + 1)) as [i'| |] eqn:E; try discriminate.
          rewrite (skipOSC_mono _ _ _ _ E _ Hle'). simpl in H |- *. eauto. }
        destruct ((nx =? LPAREN) || (nx =? RPAREN))%bool; [eauto|].
        destruct (isVisibleByte b); [exact H|eauto].
      * destruct (isVisibleByte b); [exact H|eauto].
    + destruct (b =? CSI8); [auto|].
      destruct (isVisibleByte b); [exact H|eauto].
Qed.

(** With [len(data)] units of fuel the scan from the start returns. *)
Lemma containsVisibleContent_Done (data : list Z) :
  exists b : bool, containsVisibleContent data = Done b.
Proof.
  apply scan_total; [lia|unfold len; lia].
Qed.

(** C8.  [containsVisibleContent] returns a boolean on every byte slice,
    slices that end in the middle of an escape sequence included: no index
    is out of range (the outcome is not [Panic]) and every loop ends within
    [len(data)] executions of its body (the outcome is not [OutOfFuel]);
    any larger amount of fuel gives the same boolean. *)
Theorem containsVisibleContent_total :
  forall data : list Z,
    exists b : bool,
      containsVisibleContent data = Done b /\
      forall fuel, (length data <= fuel)%nat -> scan data fuel 0 = Done b.
Proof.
  intros data.
  destruct (containsVisibleContent_Done data) as [b Hb].
  exists b. split; [exact Hb|].
  intros fuel Hle. exact (scan_mono _ _ _ _ Hb _ Hle).
Qed.

End ClassifierTotal.

(* ===================================================================== *)
(** ** The classifier on sequences and single bytes *)
(* ===================================================================== *)

Module ClassifierTokens.
Import Classifier Tokens SliceFacts.

Lemma lt_len_mid (data a c : list Z) (b i : Z) :
  data = a ++ b :: c -> i = len a -> (i <? len data) = true.
Proof.
  intros -> ->. apply Z.ltb_lt. lens. pose proof (len_nonneg c). lia.
Qed.

Lemma ge_len_end (data : list Z) (i : Z) :
  len data <= i -> (i <? len data) = false.
Proof.
  intros H. apply Z.ltb_ge. exact H.
Qed.

(** *** The inner loops *)

(** Over the parameter bytes of a CSI sequence up to and including its
    final byte. *)
Lemma skipCSI_complete :
  forall (params pre rest : list Z) (final : Z) (data : list Z) (fuel : nat) (i : Z),
    data = pre ++ params ++ final :: rest -> i = len pre ->
    paramsOk params = true -> isFinal final = true ->
    (length params < fuel)%nat ->
    skipCSI data fuel i = Done (len pre + len params + 1).
Proof.
  induction params as [|c ps IH]; intros pre rest final data fuel i Hd Hi Hp Hf Hfuel;
    (destruct fuel as [|fuel]; [simpl in Hfuel; lia|]); cbn [skipCSI].
  - simpl in Hd.
    rewrite (lt_len_mid data pre rest final i Hd Hi).
    rewrite (index_mid data pre rest final i Hd Hi). cbn [bind].
    rewrite Hf. lens. f_equal. lia.
  - simpl in Hd, Hp. apply andb_prop in Hp. destruct Hp as [Hc Hp].
    apply negb_true_iff in Hc.
    rewrite (lt_len_mid data pre (ps ++ final :: rest) c i Hd Hi).
    rewrite (index_mid data pre (ps ++ final :: rest) c i Hd Hi). cbn [bind].
    rewrite Hc.
    rewrite (IH (pre ++ [c]) rest final data fuel (i + 1)); try assumption.
    + lens. f_equal. lia.
    + rewrite Hd, <- app_assoc. reflexivity.
    + lens. lia.
    + simpl in Hfuel. lia.
Qed.

(** Over parameter bytes that the end of the slice cuts short. *)
Lemma skipCSI_truncated :
  forall (params pre : list Z) (data : list Z) (fuel : nat) (i : Z),
    data = pre ++ params -> i = len pre ->
    paramsOk params = true -> (length params <= fuel)%nat ->
    skipCSI data fuel i = Done (len data).
Proof.
  induction params as [|c ps IH]; intros pre data fuel i Hd Hi Hp Hfuel.
  - rewrite app_nil_r in Hd. subst.
    destruct fuel; simpl; rewrite Z.ltb_irrefl; reflexivity.
  - destruct fuel as [|fuel]; [simpl in Hfuel; lia|]. cbn [skipCSI].
    simpl in Hp. apply andb_prop in Hp. destruct Hp as [Hc Hp].
    apply negb_true_iff in Hc.
    rewrite (lt_len_mid data pre ps c i Hd Hi).
    rewrite (index_mid data pre ps c i Hd Hi). cbn [bind].
    rewrite Hc.
    apply (IH (pre ++ [c])); try assumption.
    + rewrite Hd, <- app_assoc. reflexivity.
    + lens. lia.
    + simpl in Hfuel. lia.
Qed.

(** The test for the two-byte terminator, [c == 0x1B && i < len(data) &&
    data[i] == '\\'], in the three situations it meets. *)
Lemma st_test_not_esc (data : list Z) (c i : Z) :
  (c =? ESC) = false ->
  Done (c =? ESC) &&& Done (i <? len data) &&& byteIs data i BACKSLASH = Done false.
Proof.
  intros E. unfold andThen. rewrite E. reflexivity.
Qed.

Lemma st_test_at_end (data : list Z) (c i : Z) :
  (i <? len data) = false ->
  Done (c =? ESC) &&& Done (i <? len data) &&& byteIs data i BACKSLASH = Done false.
Proof.
  intros E. unfold andThen. rewrite E. simpl. destruct (c =? ESC); reflexivity.
Qed.

Lemma st_test_next (data : list Z) (c i q : Z) :
  (i <? len data) = true -> index data i = Done q ->
  Done (c =? ESC) &&& Done (i <? len data) &&& byteIs data i BACKSLASH
  = Done ((c =? ESC) && (q =? BACKSLASH))%bool.
Proof.
  intros E Hq. unfold andThen, byteIs. rewrite E, Hq. simpl.
  destruct (c =? ESC); reflexivity.
Qed.

(** Inside a well-formed body, an ESC is not followed by a backslash,
    whatever comes after the body, as long as that does not start with one. *)
Lemma oscBodyOk_next (c : Z) (r after : list Z) :
  oscBodyOk (c :: r) = true ->
  (forall q tl, after = q :: tl -> (q =? BACKSLASH) = false) ->
  forall q tl, r ++ after = q :: tl ->
               ((c =? ESC) && (q =? BACKSLASH))%bool = false.
Proof.
  intros Hok Hafter q tl E. simpl in Hok.
  apply andb_prop in Hok. destruct Hok as [Hok _].
  apply andb_prop in Hok. destruct Hok as [_ Hok].
  apply negb_true_iff in Hok.
  destruct r as [|q' r'].
  - simpl in E. rewrite (Hafter q tl E). apply andb_false_r.
  - simpl in E. injection E as -> _. exact Hok.
Qed.

Lemma terminator_head (st : bool) (rest : list Z) :
  forall q tl, terminator st ++ rest = q :: tl -> (q =? BACKSLASH) = false.
Proof.
  intros q tl E. destruct st; simpl in E; injection E as <- _; reflexivity.
Qed.

(** Over the body of an OSC sequence up to and including its terminator. *)
Lemma skipOSC_complete :
  forall (body pre rest : list Z) (st : bool) (data : list Z) (fuel : nat) (i : Z),
    data = pre ++ body ++ terminator st ++ rest -> i = len pre ->
    oscBodyOk body = true -> (length body < fuel)%nat ->
    skipOSC data fuel i = Done (len pre + len body + len (terminator st)).
Proof.
  induction body as [|c r IH]; intros pre rest st data fuel i Hd Hi Hok Hfuel;
    (destruct fuel as [|fuel]; [simpl in Hfuel; lia|]); cbn [skipOSC].
  - simpl in Hd. destruct st; simpl in Hd.
    + rewrite (lt_len_mid data pre (BACKSLASH :: rest) ESC i Hd Hi).
      rewrite (index_mid data pre (BACKSLASH :: rest) ESC i Hd Hi). cbn [bind].
      change (ESC =? BEL) with false. cbv iota.
      rewrite (st_test_next data ESC (i + 1) BACKSLASH).
      * cbn [bind]. simpl. f_equal. unfold terminator. lens. lia.
      * apply (lt_len_mid data (pre ++ [ESC]) rest BACKSLASH);
          [rewrite Hd, <- app_assoc; reflexivity | lens; lia].
      * apply (index_mid data (pre ++ [ESC]) rest BACKSLASH);
          [rewrite Hd, <- app_assoc; reflexivity | lens; lia].
    + rewrite (lt_len_mid data pre rest BEL i Hd Hi).
      rewrite (index_mid data pre rest BEL i Hd Hi). cbn [bind].
      change (BEL =? BEL) with true. cbv iota. f_equal. unfold terminator. lens. lia.
  - pose proof Hok as Hok'. simpl in Hok'.
    apply andb_prop in Hok'. destruct Hok' as [Hok1 Hr].
    apply andb_prop in Hok1. destruct Hok1 as [Hbel _].
    apply negb_true_iff in Hbel.
    simpl in Hd.
    rewrite (lt_len_mid data pre (r ++ terminator st ++ rest) c i Hd Hi).
    rewrite (index_mid data pre (r ++ terminator st ++ rest) c i Hd Hi). cbn [bind].
    rewrite Hbel.
    destruct (r ++ terminator st ++ rest) as [|q tl] eqn:Enext.
    { destruct r; destruct st; discriminate Enext. }
    rewrite (st_test_next data c (i + 1) q).
    + rewrite (oscBodyOk_next c r (terminator st ++ rest) Hok
                 (terminator_head st rest) q tl Enext).
      cbn [bind].
      rewrite (IH (pre ++ [c]) rest st data fuel (i + 1)); try assumption.
      * f_equal. lens. lia.
      * rewrite Hd, <- app_assoc. simpl. rewrite Enext. reflexivity.
      * lens. lia.
      * simpl in Hfuel. lia.
    + apply (lt_len_mid data (pre ++ [c]) tl q);
        [rewrite Hd, <- app_assoc; reflexivity | lens; lia].
    + apply (index_mid data (pre ++ [c]) tl q);
        [rewrite Hd, <- app_assoc; reflexivity | lens; lia].
Qed.

(** Over a body that the end of the slice cuts short. *)
Lemma skipOSC_truncated :
  forall (body pre : list Z) (data : list Z) (fuel : nat) (i : Z),
    data = pre ++ body -> i = len pre ->
    oscBodyOk body = true -> (length body <= fuel)%nat ->
    skipOSC data fuel i = Done (len data).
Proof.
  induction body as [|c r IH]; intros pre data fuel i Hd Hi Hok Hfuel.
  - rewrite app_nil_r in Hd. subst.
    destruct fuel; simpl; rewrite Z.ltb_irrefl; reflexivity.
  - destruct fuel as [|fuel]; [simpl in Hfuel; lia|]. cbn [skipOSC].
    pose proof Hok as Hok'. simpl in Hok'.
    apply andb_prop in Hok'. destruct Hok' as [Hok1 Hr].
    apply andb_prop in Hok1. destruct Hok1 as [Hbel _].
    apply negb_true_iff in Hbel.
    rewrite (lt_len_mid data pre r c i Hd Hi).
    rewrite (index_mid data pre r c i Hd Hi). cbn [bind].
    rewrite Hbel.
    assert (Htest : Done (c =? ESC) &&& Done (i + 1 <? len data)
                    &&& byteIs data (i + 1) BACKSLASH = Done false).
    { destruct r as [|q tl] eqn:Er.
      - apply st_test_at_end. apply ge_len_end. rewrite Hd. lens. lia.
      - rewrite (st_test_next data c (i + 1) q).
        + f_equal. apply (oscBodyOk_next c (q :: tl) [] Hok) with (tl := tl).
          * intros ? ? E. discriminate E.
          * rewrite app_nil_r. reflexivity.
        + apply (lt_len_mid data (pre ++ [c]) tl q);
            [rewrite Hd, <- app_assoc; reflexivity | lens; lia].
        + apply (index_mid data (pre ++ [c]) tl q);
            [rewrite Hd, <- app_assoc; reflexivity | lens; lia]. }
    rewrite Htest. cbn [bind].
    apply (IH (pre ++ [c])); try assumption.
    + rewrite Hd, <- app_assoc. reflexivity.
    + lens. lia.
    + simpl in Hfuel. lia.
Qed.

(** *** One turn of the outer loop *)

Lemma scan_at_end (data : list Z) (fuel : nat) (i : Z) :
  len data <= i -> scan data fuel i = Done false.
Proof.
  intros H. destruct fuel; simpl; rewrite (ge_len_end data i H); reflexivity.
Qed.

Lemma scan_byte (data : list Z) (fuel : nat) (i b : Z) :
  (i <? len data) = true -> index data i = Done b ->
  (b =? ESC) = false -> (b =? CSI8) = false ->
  scan data (S fuel) i =
  if isVisibleByte b then Done true else scan data fuel (i + 1).
Proof.
  intros Hlt Hb He Hc. cbn [scan]. rewrite Hlt, Hb. cbn [bind].
  rewrite He, Hc. reflexivity.
Qed.

Lemma scan_csi8 (data : list Z) (fuel : nat) (i : Z) :
  (i <? len data) = true -> index data i = Done CSI8 ->
  scan data (S fuel) i = (j <- skipCSI data fuel (i + 1) ;; scan data fuel j).
Proof.
  intros Hlt Hb. cbn [scan]. rewrite Hlt, Hb. cbn [bind]. reflexivity.
Qed.

Lemma scan_esc_last (data : list Z) (fuel : nat) (i : Z) :
  (i <? len data) = true -> index data i = Done ESC ->
  (i + 1 <? len data) = false ->
  scan data (S fuel) i = scan data fuel (i + 1 + 1).
Proof.
  intros Hlt Hb Hn. cbn [scan]. rewrite Hlt, Hb. cbn [bind].
  change (ESC =? ESC) with true. cbv iota. rewrite Hn. reflexivity.
Qed.

Lemma scan_esc_next (data : list Z) (fuel : nat) (i nx : Z) :
  (i <? len data) = true -> index data i = Done ESC ->
  (i + 1 <? len data) = true -> index data (i + 1) = Done nx ->
  scan data (S fuel) i =
  if nx =? LBRACKET then j <- skipCSI data fuel (i + 1 + 1) ;; scan data fuel j
  else if nx =? RBRACKET then j <- skipOSC data fuel (i + 1 + 1) ;; scan data fuel j
  else if ((nx =? LPAREN) || (nx =? RPAREN))%bool
       then scan data fuel (if i + 1 + 1 <? len data then i + 1 + 1 + 1 else i + 1 + 1)
       else scan data fuel (i + 1 + 1).
Proof.
  intros Hlt Hb Hn Hx. cbn [scan]. rewrite Hlt, Hb. cbn [bind].
  change (ESC =? ESC) with true. cbv iota. rewrite Hn, Hx. cbn [bind].
  reflexivity.
Qed.

Ltac list_eq :=
  subst; repeat first [rewrite <- !app_assoc | progress simpl]; reflexivity.

(** Where the scan is after a prefix [pre ++ a], read at the byte [b]. *)
Ltac at_byte Hd a b c :=
  first [ apply (lt_len_mid _ a c b); [rewrite Hd; list_eq | lens; lia]
        | apply (index_mid _ a c b); [rewrite Hd; list_eq | lens; lia] ].

(** *** The scan over a reading of the slice *)

(** At the end of the tokens: a sequence cut short is passed over. *)
Lemma scan_truncated (cut : Truncated) (pre data : list Z) (fuel : nat) (i : Z) :
  data = pre ++ bytesOfTruncated cut -> i = len pre ->
  truncatedOk cut = true ->
  (length (bytesOfTruncated cut) <= fuel)%nat ->
  scan data fuel i = Done false.
Proof.
  intros Hd Hi Hok Hfuel.
  destruct cut as [| |params|body|closing|params]; simpl in Hd, Hfuel, Hok.
  - apply scan_at_end. subst. rewrite app_nil_r. lia.
  - destruct fuel as [|fuel]; [lia|].
    rewrite scan_esc_last.
    + apply scan_at_end. subst. lens. lia.
    + at_byte Hd pre ESC (@nil Z).
    + at_byte Hd pre ESC (@nil Z).
    + apply ge_len_end. subst. lens. lia.
  - destruct fuel as [|fuel]; [lia|].
    rewrite (scan_esc_next data fuel i LBRACKET).
    + change (LBRACKET =? LBRACKET) with true. cbv iota.
      rewrite (skipCSI_truncated params (pre ++ [ESC; LBRACKET]) data fuel (i + 1 + 1)).
      * cbn [bind]. apply scan_at_end. lia.
      * rewrite Hd. list_eq.
      * lens. lia.
      * exact Hok.
      * lia.
    + at_byte Hd pre ESC (LBRACKET :: params).
    + at_byte Hd pre ESC (LBRACKET :: params).
    + at_byte Hd (pre ++ [ESC]) LBRACKET params.
    + at_byte Hd (pre ++ [ESC]) LBRACKET params.
  - destruct fuel as [|fuel]; [lia|].
    rewrite (scan_esc_next data fuel i RBRACKET).
    + change (RBRACKET =? LBRACKET) with false.
      change (RBRACKET =? RBRACKET) with true. cbv iota.
      rewrite (skipOSC_truncated body (pre ++ [ESC; RBRACKET]) data fuel (i + 1 + 1)).
      * cbn [bind]. apply scan_at_end. lia.
      * rewrite Hd. list_eq.
      * lens. lia.
      * exact Hok.
      * lia.
    + at_byte Hd pre ESC (RBRACKET :: body).
    + at_byte Hd pre ESC (RBRACKET :: body).
    + at_byte Hd (pre ++ [ESC]) RBRACKET body.
    + at_byte Hd (pre ++ [ESC]) RBRACKET body.
  - destruct fuel as [|fuel]; [lia|].
    set (p := if closing then RPAREN else LPAREN) in *.
    rewrite (scan_esc_next data fuel i p).
    + assert (Hp : (p =? LBRACKET) = false /\ (p =? RBRACKET) = false /\
                   ((p =? LPAREN) || (p =? RPAREN))%bool = true)
        by (unfold p; destruct closing; repeat split; reflexivity).
      destruct Hp as [-> [-> ->]].
      apply scan_at_end.
      assert (Hlen : len data = i + 1 + 1) by (subst; lens; lia).
      rewrite Hlen, Z.ltb_irrefl. lia.
    + at_byte Hd pre ESC [p].
    + at_byte Hd pre ESC [p].
    + at_byte Hd (pre ++ [ESC]) p (@nil Z).
    + at_byte Hd (pre ++ [ESC]) p (@nil Z).
  - destruct fuel as [|fuel]; [lia|].
    rewrite scan_csi8.
    + rewrite (skipCSI_truncated params (pre ++ [CSI8]) data fuel (i + 1)).
      * cbn [bind]. apply scan_at_end. lia.
      * rewrite Hd. list_eq.
      * lens. lia.
      * exact Hok.
      * lia.
    + at_byte Hd pre CSI8 params.
    + at_byte Hd pre CSI8 params.
Qed.

Lemma flatten_cons (t : Token) (toks : list Token) :
  flatten (t :: toks) = bytesOf t ++ flatten toks.
Proof. reflexivity. Qed.

Lemma scan_tokens :
  forall (toks : list Token) (cut : Truncated) (pre data : list Z) (fuel : nat) (i : Z),
    data = pre ++ flatten toks ++ bytesOfTruncated cut -> i = len pre ->
    forallb isScanToken toks = true -> truncatedOk cut = true ->
    (length (flatten toks ++ bytesOfTruncated cut) <= fuel)%nat ->
    scan data fuel i = Done (existsb isVisibleToken toks).
Proof.
  induction toks as [|tok toks IH]; intros cut pre data fuel i Hd Hi Hok Hcut Hfuel.
  - simpl in *. apply (scan_truncated cut pre); assumption.
  - rewrite flatten_cons, <- app_assoc in Hd, Hfuel.
    set (after := flatten toks ++ bytesOfTruncated cut) in *.
    cbn [forallb] in Hok. apply andb_prop in Hok. destruct Hok as [Htok Hok].
    rewrite length_app in Hfuel.
    assert (Hnext : forall fuel', (length after <= fuel')%nat ->
              scan data fuel' (i + len (bytesOf tok)) = Done (existsb isVisibleToken toks)).
    { intros fuel' Hf'. apply (IH cut (pre ++ bytesOf tok)); try assumption.
      - rewrite Hd, <- app_assoc. reflexivity.
      - lens. lia. }
    destruct tok as [params final|body st|closing set|params final|x|b];
      cbn [existsb isVisibleToken orb]; simpl bytesOf in *; simpl length in Hfuel;
      (destruct fuel as [|fuel]; [lia|]).
    + (* ESC [ params final *)
      simpl in Htok. apply andb_prop in Htok. destruct Htok as [Hp Hf].
      rewrite length_app in Hfuel. simpl in Hfuel.
      rewrite (scan_esc_next data fuel i LBRACKET).
      * change (LBRACKET =? LBRACKET) with true. cbv iota.
        rewrite (skipCSI_complete params (pre ++ [ESC; LBRACKET]) after final data fuel
                   (i + 1 + 1)); try assumption.
        -- cbn [bind].
           replace (len (pre ++ [ESC; LBRACKET]) + len params + 1)
             with (i + len (ESC :: LBRACKET :: params ++ [final])) by (lens; lia).
           apply Hnext. lia.
        -- rewrite Hd. list_eq.
        -- lens. lia.
        -- lia.
      * at_byte Hd pre ESC (LBRACKET :: (params ++ [final]) ++ after).
      * at_byte Hd pre ESC (LBRACKET :: (params ++ [final]) ++ after).
      * at_byte Hd (pre ++ [ESC]) LBRACKET ((params ++ [final]) ++ after).
      * at_byte Hd (pre ++ [ESC]) LBRACKET ((params ++ [final]) ++ after).
    + (* ESC ] body terminator *)
      simpl in Htok.
      rewrite length_app in Hfuel. simpl in Hfuel.
      rewrite (scan_esc_next data fuel i RBRACKET).
      * change (RBRACKET =? LBRACKET) with false.
        change (RBRACKET =? RBRACKET) with true. cbv iota.
        rewrite (skipOSC_complete body (pre ++ [ESC; RBRACKET]) after st data fuel
                   (i + 1 + 1)); try assumption.
        -- cbn [bind].
           replace (len (pre ++ [ESC; RBRACKET]) + len body + len (terminator st))
             with (i + len (ESC :: RBRACKET :: body ++ terminator st)) by (lens; lia).
           apply Hnext. lia.
        -- rewrite Hd. list_eq.
        -- lens. lia.
        -- lia.
      * at_byte Hd pre ESC (RBRACKET :: (body ++ terminator st) ++ after).
      * at_byte Hd pre ESC (RBRACKET :: (body ++ terminator st) ++ after).
      * at_byte Hd (pre ++ [ESC]) RBRACKET ((body ++ terminator st) ++ after).
      * at_byte Hd (pre ++ [ESC]) RBRACKET ((body ++ terminator st) ++ after).
    + (* ESC ( set *)
      set (p := if closing then RPAREN else LPAREN) in *.
      rewrite (scan_esc_next data fuel i p).
      * assert (Hp : (p =? LBRACKET) = false /\ (p =? RBRACKET) = false /\
                     ((p =? LPAREN) || (p =? RPAREN))%bool = true)
          by (unfold p; destruct closing; repeat split; reflexivity).
        destruct Hp as [-> [-> ->]].
        replace (i + 1 + 1 <? len data) with true.
        -- replace (i + 1 + 1 + 1) with (i + len [ESC; p; set]) by (lens; lia).
           apply Hnext. lia.
        -- symmetry. at_byte Hd (pre ++ [ESC; p]) set after.
      * at_byte Hd pre ESC (p :: set :: after).
      * at_byte Hd pre ESC (p :: set :: after).
      * at_byte Hd (pre ++ [ESC]) p (set :: after).
      * at_byte Hd (pre ++ [ESC]) p (set :: after).
    + (* 0x9B params final *)
      simpl in Htok. apply andb_prop in Htok. destruct Htok as [Hp Hf].
      rewrite length_app in Hfuel. simpl in Hfuel.
      rewrite scan_csi8.
      * rewrite (skipCSI_complete params (pre ++ [CSI8]) after final data fuel (i + 1));
          try assumption.
        -- cbn [bind].
           replace (len (pre ++ [CSI8]) + len params + 1)
             with (i + len (CSI8 :: params ++ [final])) by (lens; lia).
           apply Hnext. lia.
        -- rewrite Hd. list_eq.
        -- lens. lia.
        -- lia.
      * at_byte Hd pre CSI8 ((params ++ [final]) ++ after).
      * at_byte Hd pre CSI8 ((params ++ [final]) ++ after).
    + (* ESC x *)
      simpl in Htok. apply negb_true_iff in Htok.
      apply orb_false_elim in Htok. destruct Htok as [Htok Hrp].
      apply orb_false_elim in Htok. destruct Htok as [Htok Hlp].
      apply orb_false_elim in Htok. destruct Htok as [Hlb Hrb].
      rewrite (scan_esc_next data fuel i x).
      * rewrite Hlb, Hrb, Hlp, Hrp. cbn [orb].
        replace (i + 1 + 1) with (i + len [ESC; x]) by (lens; lia).
        apply Hnext. lia.
      * at_byte Hd pre ESC (x :: after).
      * at_byte Hd pre ESC (x :: after).
      * at_byte Hd (pre ++ [ESC]) x after.
      * at_byte Hd (pre ++ [ESC]) x after.
    + (* a byte on its own *)
      simpl in Htok. apply negb_true_iff in Htok.
      apply orb_false_elim in Htok. destruct Htok as [He Hc].
      rewrite (scan_byte data fuel i b); try assumption.
      * destruct (isVisibleByte b); [reflexivity|].
        replace (i + 1) with (i + len [b]) by (lens; lia).
        apply Hnext. lia.
      * at_byte Hd pre b after.
      * at_byte Hd pre b after.
Qed.

(** *** Every slice has such a reading *)

Lemma params_split (l : list Z) :
  paramsOk l = true \/
  exists params final rest,
    l = params ++ final :: rest /\ paramsOk params = true /\ isFinal final = true.
Proof.
  induction l as [|c r IH]; [left; reflexivity|].
  destruct (isFinal c) eqn:Ec.
  - right. exists [], c, r. auto.
  - destruct IH as [IH | [params [final [rest [-> [Hp Hf]]]]]].
    + left. unfold paramsOk in *. simpl. rewrite Ec, IH. reflexivity.
    + right. exists (c :: params), final, rest.
      split; [reflexivity|]. split; [|exact Hf].
      unfold paramsOk in *. simpl. rewrite Ec, Hp. reflexivity.
Qed.

Lemma osc_split (l : list Z) :
  oscBodyOk l = true \/
  exists body st rest,
    l = body ++ terminator st ++ rest /\ oscBodyOk body = true.
Proof.
  induction l as [|c r IH]; [left; reflexivity|].
  destruct (c =? BEL) eqn:Eb.
  { apply Z.eqb_eq in Eb. subst c. right. exists [], false, r. auto. }
  destruct ((c =? ESC) && match r with q :: _ => q =? BACKSLASH | [] => false end)%bool
    eqn:Est.
  { apply andb_prop in Est. destruct Est as [Ee Eq].
    destruct r as [|q r']; [discriminate Eq|].
    apply Z.eqb_eq in Ee, Eq. subst c q.
    right. exists [], true, r'. auto. }
  destruct IH as [IH | [body [st [rest [-> Hb]]]]].
  - left. simpl. rewrite Eb, Est, IH. reflexivity.
  - right. exists (c :: body), st, rest. split; [reflexivity|].
    simpl. rewrite Eb, Hb.
    replace ((c =? ESC) && match body with q :: _ => q =? BACKSLASH | [] => false end)%bool
      with false; [reflexivity|].
    destruct body as [|q body']; [symmetry; apply andb_false_r|].
    simpl in Est. symmetry. exact Est.
Qed.

Lemma reading_exists :
  forall (n : nat) (data : list Z),
    (length data <= n)%nat ->
    exists toks cut,
      forallb isScanToken toks = true /\ truncatedOk cut = true /\
      data = flatten toks ++ bytesOfTruncated cut.
Proof.
  induction n as [|n IH]; intros data Hn.
  - destruct data; [|simpl in Hn; lia]. exists [], CutNone. auto.
  - destruct data as [|b r]; [exists [], CutNone; auto|].
    simpl in Hn.
    (* a token [t] in front of a reading of what follows *)
    assert (Hcons : forall t rest,
               isScanToken t = true -> b :: r = bytesOf t ++ rest ->
               (length rest <= n)%nat ->
               exists toks cut,
                 forallb isScanToken toks = true /\ truncatedOk cut = true /\
                 b :: r = flatten toks ++ bytesOfTruncated cut).
    { intros t rest Ht E Hlen.
      destruct (IH rest Hlen) as [toks [cut [Hok [Hcut Hr]]]].
      exists (t :: toks), cut. split; [simpl; rewrite Ht, Hok; reflexivity|].
      split; [exact Hcut|].
      rewrite flatten_cons, <- app_assoc, <- Hr. exact E. }
    destruct (b =? CSI8) eqn:Ec.
    { apply Z.eqb_eq in Ec. subst b.
      destruct (params_split r) as [Hp | [params [final [rest [-> [Hp Hf]]]]]].
      - exists [], (CutCSI8 r). auto.
      - apply (Hcons (TokCSI8 params final) rest).
        + simpl. rewrite Hp, Hf. reflexivity.
        + simpl. rewrite <- app_assoc. reflexivity.
        + rewrite length_app in Hn. simpl in Hn. lia. }
    destruct (b =? ESC) eqn:Ee.
    2:{ apply (Hcons (TokByte b) r); [simpl; rewrite Ee, Ec; reflexivity|reflexivity|lia]. }
    apply Z.eqb_eq in Ee. subst b.
    destruct r as [|x r']; [exists [], CutEsc; auto|].
    simpl in Hn.
    destruct (x =? LBRACKET) eqn:E1.
    { apply Z.eqb_eq in E1. subst x.
      destruct (params_split r') as [Hp | [params [final [rest [-> [Hp Hf]]]]]].
      - exists [], (CutCSI r'). auto.
      - apply (Hcons (TokCSI params final) rest).
        + simpl. rewrite Hp, Hf. reflexivity.
        + simpl. rewrite <- app_assoc. reflexivity.
        + rewrite length_app in Hn. simpl in Hn. lia. }
    destruct (x =? RBRACKET) eqn:E2.
    { apply Z.eqb_eq in E2. subst x.
      destruct (osc_split r') as [Hb | [body [st [rest [-> Hb]]]]].
      - exists [], (CutOSC r'). auto.
      - apply (Hcons (TokOSC body st) rest).
        + exact Hb.
        + simpl. rewrite <- !app_assoc. reflexivity.
        + rewrite !length_app in Hn. lia. }
    destruct (x =? LPAREN) eqn:E3.
    { apply Z.eqb_eq in E3. subst x.
      destruct r' as [|set r'']; [exists [], (CutCharset false); auto|].
      apply (Hcons (TokCharset false set) r''); [reflexivity|reflexivity|simpl in Hn; lia]. }
    destruct (x =? RPAREN) eqn:E4.
    { apply Z.eqb_eq in E4. subst x.
      destruct r' as [|set r'']; [exists [], (CutCharset true); auto|].
      apply (Hcons (TokCharset true set) r''); [reflexivity|reflexivity|simpl in Hn; lia]. }
    apply (Hcons (TokEscPair x) r'); [|reflexivity|lia].
    simpl. rewrite E1, E2, E3, E4. reflexivity.
Qed.

(** The reading of C5 exists for every slice, so the classifier is
    determined on all inputs by the single bytes of the reading. *)
Lemma every_slice_has_a_reading (data : list Z) :
  exists toks cut,
    forallb isScanToken toks = true /\ truncatedOk cut = true /\
    data = flatten toks ++ bytesOfTruncated cut /\
    containsVisibleContent data = Done (existsb isVisibleToken toks).
Proof.
  destruct (reading_exists (length data) data (le_n _)) as [toks [cut [Hok [Hcut E]]]].
  exists toks, cut. repeat split; try assumption.
  unfold containsVisibleContent. apply (scan_tokens toks cut []); auto.
  rewrite <- E. reflexivity.
Qed.

(** C5 (amended).  Read a slice as the scan goes over it: CSI, OSC,
    character-set and 8-bit CSI sequences, ESC together with the byte after
    it when that byte is none of [[ ] ( )], single bytes other than ESC and
    0x9B, and at the end possibly a sequence cut short.  Then
    [containsVisibleContent] returns false when none of the single bytes is
    printable ASCII, newline, carriage return, tab or at least 0x80, and
    true when one of them is. *)
Theorem containsVisibleContent_on_tokens :
  forall (toks : list Token) (cut : Truncated),
    forallb isScanToken toks = true -> truncatedOk cut = true ->
    containsVisibleContent (flatten toks ++ bytesOfTruncated cut)
    = Done (existsb isVisibleToken toks).
Proof.
  intros toks cut Hok Hcut. unfold containsVisibleContent.
  apply (scan_tokens toks cut []); auto.
Qed.

(** ["\x1b[31mR\x1bc\x1b]0;Title\x07\x1b[2"]: colour, a letter, a terminal
    reset, a title, and a CSI sequence cut short. *)
Lemma containsVisibleContent_on_tokens_witness :
  containsVisibleContent
    (flatten [TokCSI (bs "31") 109; TokByte 82; TokEscPair 99; TokOSC (bs "0;Title") false]
     ++ bytesOfTruncated (CutCSI (bs "2")))
  = Done (existsb isVisibleToken
            [TokCSI (bs "31") 109; TokByte 82; TokEscPair 99; TokOSC (bs "0;Title") false]).
Proof.
  apply (containsVisibleContent_on_tokens
           [TokCSI (bs "31") 109; TokByte 82; TokEscPair 99; TokOSC (bs "0;Title") false]
           (CutCSI (bs "2"))).
  - reflexivity.
  - reflexivity.
Defined.

(** C5 as stated fails.  ["\x1bA"] holds none of the four kinds of
    sequence; read as the specification reads it, it is the control byte
    ESC and the printable byte 'A', each on its own.  The scan passes over
    the byte after ESC without looking at it and returns false. *)
Lemma printable_byte_after_ESC_is_not_seen :
  flatten [TokByte ESC; TokByte 65] = [ESC; 65] /\
  forallb (fun t => isRecognizedSequence t || isSingleByte t)%bool
          [TokByte ESC; TokByte 65] = true /\
  existsb isVisibleToken [TokByte ESC; TokByte 65] = true /\
  containsVisibleContent [ESC; 65] = Done false.
Proof.
  repeat split; reflexivity.
Qed.

(** The cases of the repository's test of the classifier. *)
Example TestContainsVisibleContent :
  containsVisibleContent (bs "Hello world") = Done true /\
  containsVisibleContent (bs "Hello" ++ [LF] ++ bs "world") = Done true /\
  containsVisibleContent [LF] = Done true /\
  containsVisibleContent [TAB] = Done true /\
  containsVisibleContent [CR] = Done true /\
  containsVisibleContent (bs "Hello " ++ [228; 184; 150; 231; 149; 140]) = Done true /\
  containsVisibleContent ([ESC] ++ bs "[31mRed text" ++ [ESC] ++ bs "[0m") = Done true /\
  containsVisibleContent ([ESC] ++ bs "[31m") = Done false /\
  containsVisibleContent ([ESC] ++ bs "[1A") = Done false /\
  containsVisibleContent ([ESC] ++ bs "[2J") = Done false /\
  containsVisibleContent ([ESC] ++ bs "]0;Title" ++ [BEL]) = Done false /\
  containsVisibleContent ([ESC] ++ bs "[?25l" ++ [ESC] ++ bs "[?25h") = Done false /\
  containsVisibleContent ([CSI8] ++ bs "31m") = Done false /\
  containsVisibleContent [1; 2; 3] = Done false /\
  containsVisibleContent [] = Done false /\
  containsVisibleContent [BEL] = Done false.
Proof.
  repeat split; reflexivity.
Qed.

End ClassifierTokens.

(* ===================================================================== *)
(** ** Terminal state *)
(* ===================================================================== *)

Module TermStateProps.
Import TermState.

(** C9.  [SetFocused(v)] on a state whose focus already is [v] changes
    nothing, the time of the last focus change included; whenever
    [SetFocused] does change the state, the focus was different before. *)
Theorem SetFocused_same_value_is_noop :
  forall (ts : TerminalState) (v : bool) (now : Z),
    focused ts = v ->
    SetFocused v now ts = ts /\
    (forall (v' : bool) (now' : Z),
        SetFocused v' now' ts <> ts -> focused ts <> v').
Proof.
  intros ts v now Hv. split.
  - unfold SetFocused. rewrite Hv, Bool.eqb_reflx. reflexivity.
  - intros v' now' Hne Heq. apply Hne.
    unfold SetFocused. rewrite Heq, Bool.eqb_reflx. reflexivity.
Qed.

Lemma SetFocused_same_value_is_noop_witness :
  SetFocused true 5 (NewTerminalState 0) = NewTerminalState 0 /\
  (forall (v' : bool) (now' : Z),
      SetFocused v' now' (NewTerminalState 0) <> NewTerminalState 0 ->
      focused (NewTerminalState 0) <> v').
Proof.
  apply (SetFocused_same_value_is_noop (NewTerminalState 0) true 5).
  reflexivity.
Defined.

(** A change of value stamps the time of the call. *)
Lemma SetFocused_change (ts : TerminalState) (v : bool) (now : Z) :
  focused ts <> v ->
  SetFocused v now ts =
  {| title := title ts; focused := v; lastFocusChange := now;
     focusReportingEnabled := focusReportingEnabled ts |}.
Proof.
  intros Hne. unfold SetFocused.
  destruct (Bool.eqb (focused ts) v) eqn:E; [|reflexivity].
  apply Bool.eqb_prop in E. contradiction.
Qed.

End TermStateProps.

(* ===================================================================== *)
(** ** Backstop notification engine *)
(* ===================================================================== *)

Module BackstopProps.
Import Backstop.

(** *** Stopping and arming a timer touch nothing but the timers *)

Lemma stopIfSet_frame (bn : BackstopNotifier) :
  timeout (stopIfSet bn) = timeout bn /\
  timer (stopIfSet bn) = timer bn /\
  backstopSent (stopIfSet bn) = backstopSent bn /\
  backstopDisabled (stopIfSet bn) = backstopDisabled bn /\
  idleNotificationSentSinceLastInteraction (stopIfSet bn) =
    idleNotificationSentSinceLastInteraction bn /\
  underlying (stopIfSet bn) = underlying bn.
Proof.
  unfold stopIfSet. destruct (timer bn) eqn:E; simpl; repeat split; auto.
Qed.

Lemma armIfConfigured_frame (now : Z) (bn : BackstopNotifier) :
  timeout (armIfConfigured now bn) = timeout bn /\
  backstopSent (armIfConfigured now bn) = backstopSent bn /\
  backstopDisabled (armIfConfigured now bn) = backstopDisabled bn /\
  idleNotificationSentSinceLastInteraction (armIfConfigured now bn) =
    idleNotificationSentSinceLastInteraction bn /\
  underlying (armIfConfigured now bn) = underlying bn.
Proof.
  unfold armIfConfigured. destruct (timeout bn >? 0); repeat split; reflexivity.
Qed.

Lemma stopIfSet_idle bn :
  idleNotificationSentSinceLastInteraction (stopIfSet bn) =
  idleNotificationSentSinceLastInteraction bn.
Proof. apply stopIfSet_frame. Qed.
Lemma stopIfSet_sent bn : backstopSent (stopIfSet bn) = backstopSent bn.
Proof. apply stopIfSet_frame. Qed.
Lemma stopIfSet_disabled bn : backstopDisabled (stopIfSet bn) = backstopDisabled bn.
Proof. apply stopIfSet_frame. Qed.
Lemma stopIfSet_underlying bn : underlying (stopIfSet bn) = underlying bn.
Proof. apply stopIfSet_frame. Qed.
Lemma stopIfSet_timeout bn : timeout (stopIfSet bn) = timeout bn.
Proof. apply stopIfSet_frame. Qed.
Lemma stopIfSet_timer bn : timer (stopIfSet bn) = timer bn.
Proof. apply stopIfSet_frame. Qed.
Lemma armIfConfigured_idle now bn :
  idleNotificationSentSinceLastInteraction (armIfConfigured now bn) =
  idleNotificationSentSinceLastInteraction bn.
Proof. apply armIfConfigured_frame. Qed.
Lemma armIfConfigured_sent now bn :
  backstopSent (armIfConfigured now bn) = backstopSent bn.
Proof. apply armIfConfigured_frame. Qed.
Lemma armIfConfigured_disabled now bn :
  backstopDisabled (armIfConfigured now bn) = backstopDisabled bn.
Proof. apply armIfConfigured_frame. Qed.
Lemma armIfConfigured_underlying now bn :
  underlying (armIfConfigured now bn) = underlying bn.
Proof. apply armIfConfigured_frame. Qed.
Lemma armIfConfigured_timeout now bn :
  timeout (armIfConfigured now bn) = timeout bn.
Proof. apply armIfConfigured_frame. Qed.

Create Rewrite HintDb frame.
#[local] Hint Rewrite stopIfSet_idle stopIfSet_sent stopIfSet_disabled
  stopIfSet_underlying stopIfSet_timeout stopIfSet_timer
  armIfConfigured_idle armIfConfigured_sent armIfConfigured_disabled
  armIfConfigured_underlying armIfConfigured_timeout : frame.

Ltac unfold_calls :=
  unfold step, Send, MarkActivity, SetBackstopSent, ResetSession,
    DisableBackstopTimer, Close, startTimer in *.

Ltac frame := unfold_calls; simpl; autorewrite with frame; simpl.

(** *** What each event does to the flags and to the deliveries *)

Lemma deliveries_snoc_backstop (l : list (CallSite * Notification)) (n : Notification) :
  length (filter isBackstopDelivery (l ++ [(FromBackstop, n)])) =
  S (length (filter isBackstopDelivery l)).
Proof.
  rewrite filter_app, length_app. simpl. lia.
Qed.

Lemma deliveries_snoc_send (l : list (CallSite * Notification)) (n : Notification) :
  length (filter isBackstopDelivery (l ++ [(FromSend, n)])) =
  length (filter isBackstopDelivery l).
Proof.
  rewrite filter_app, length_app. simpl. lia.
Qed.

(** The callback body: it delivers exactly when no flag is set, and then
    sets both "sent" flags. *)
Lemma sendBackstopNotification_cases (now : Z) (bn : BackstopNotifier) :
  (backstopSent bn || backstopDisabled bn || idle bn = true /\
   sendBackstopNotification now bn = bn)
  \/
  (backstopSent bn = false /\ backstopDisabled bn = false /\ idle bn = false /\
   backstopDeliveries (sendBackstopNotification now bn) = S (backstopDeliveries bn) /\
   idle (sendBackstopNotification now bn) = true /\
   backstopSent (sendBackstopNotification now bn) = true /\
   backstopDisabled (sendBackstopNotification now bn) = false).
Proof.
  unfold sendBackstopNotification, idle, backstopDeliveries.
  destruct (backstopSent bn) eqn:E1; simpl; [left; split; reflexivity|].
  destruct (backstopDisabled bn) eqn:E2; simpl; [left; split; reflexivity|].
  destruct (idleNotificationSentSinceLastInteraction bn) eqn:E3; simpl;
    [left; split; reflexivity|].
  right. rewrite deliveries_snoc_backstop. repeat split; auto.
Qed.

(** An event other than the callback delivers nothing on the backstop path. *)
Lemma step_no_callback_deliveries (now : Z) (e : Event) (bn : BackstopNotifier) :
  (forall k, e <> EvCallback k) ->
  backstopDeliveries (step now e bn) = backstopDeliveries bn.
Proof.
  intros Hne. unfold backstopDeliveries.
  destruct e as [n| |sent| | | |k|k]; frame;
    try rewrite deliveries_snoc_send; try reflexivity.
  - destruct sent; frame; reflexivity.
  - unfold expire.
    destruct (nth_error (timers bn) k) as [t|]; [|reflexivity].
    destruct (status t); try reflexivity.
    destruct (deadline t <=? now); reflexivity.
  - exfalso. apply (Hne k). reflexivity.
Qed.

Lemma callback_budget (k : nat) (now : Z) (bn : BackstopNotifier) :
  (backstopDeliveries (callback k now bn) + budget (callback k now bn)
   <= backstopDeliveries bn + budget bn)%nat.
Proof.
  unfold callback.
  destruct (statusOf k (timers bn)) as [[| | |]|]; try lia.
  set (bn' := set_timers (setStatus k Ran (timers bn)) bn).
  assert (Hd : backstopDeliveries bn' = backstopDeliveries bn) by reflexivity.
  assert (Hb : budget bn' = budget bn) by reflexivity.
  destruct (sendBackstopNotification_cases now bn')
    as [[_ Heq] | [_ [_ [Hidle [Hdel [Hidle' _]]]]]].
  - rewrite Heq. lia.
  - rewrite Hdel. unfold budget at 1. rewrite Hidle'.
    rewrite <- Hb, <- Hd. unfold budget. rewrite Hidle. lia.
Qed.

(** One event, other than a user interaction, uses up at most the budget
    plus one more for a session reset. *)
Lemma step_budget (now : Z) (e : Event) (bn : BackstopNotifier) :
  isUserInteraction e = false ->
  (backstopDeliveries (step now e bn) + budget (step now e bn)
   <= backstopDeliveries bn + budget bn + resetCost e)%nat.
Proof.
  intros Hu.
  destruct e as [n| |sent| | | |k|k]; try discriminate Hu;
    try (rewrite step_no_callback_deliveries by (intros ? ?; discriminate);
         unfold budget, idle, resetCost; frame).
  - lia.
  - lia.
  - destruct sent; frame; lia.
  - destruct (idleNotificationSentSinceLastInteraction bn); lia.
  - lia.
  - unfold expire.
    destruct (nth_error (timers bn) k) as [t|]; [|lia].
    destruct (status t); try lia.
    destruct (deadline t <=? now); simpl; lia.
  - simpl. pose proof (callback_budget k now bn). unfold resetCost. simpl. lia.
Qed.

Lemma run_budget :
  forall (trace : list (Z * Event)) (bn : BackstopNotifier),
    noUserInteraction trace = true ->
    (backstopDeliveries (run trace bn) + budget (run trace bn)
     <= backstopDeliveries bn + budget bn + sessionResets trace)%nat.
Proof.
  induction trace as [|[now e] rest IH]; intros bn Hno; simpl.
  - unfold sessionResets. simpl. lia.
  - unfold noUserInteraction in Hno. simpl in Hno.
    apply andb_prop in Hno. destruct Hno as [He Hrest].
    apply negb_true_iff in He.
    specialize (IH (step now e bn) Hrest).
    pose proof (step_budget now e bn He) as Hs.
    unfold sessionResets in *. simpl. unfold resetCost in Hs.
    destruct (isSessionReset e); simpl; lia.
Qed.




(** *** The timers of the runtime *)

Lemma length_setStatus (st : TimerStatus) :
  forall (ts : list Timer) (k : nat), length (setStatus k st ts) = length ts.
Proof.
  induction ts as [|t r IH]; intros [|k]; simpl; auto.
Qed.

Lemma statusOf_setStatus_same (st : TimerStatus) :
  forall (ts : list Timer) (k : nat),
    (k < length ts)%nat -> statusOf k (setStatus k st ts) = Some st.
Proof.
  unfold statusOf.
  induction ts as [|t r IH]; intros [|k] Hk; simpl in *; try lia; auto.
  apply IH. lia.
Qed.

Lemma statusOf_setStatus_other (st : TimerStatus) :
  forall (ts : list Timer) (k j : nat),
    j <> k -> statusOf j (setStatus k st ts) = statusOf j ts.
Proof.
  unfold statusOf.
  induction ts as [|t r IH]; intros [|k] [|j] Hne; simpl; auto; try congruence.
Qed.

Lemma statusOf_Some_lt (ts : list Timer) (k : nat) (st : TimerStatus) :
  statusOf k ts = Some st -> (k < length ts)%nat.
Proof.
  unfold statusOf. intros H. apply nth_error_Some.
  destruct (nth_error ts k); [discriminate|discriminate H].
Qed.

Lemma statusOf_app_old (ts : list Timer) (t : Timer) (k : nat) :
  (k < length ts)%nat -> statusOf k (ts ++ [t]) = statusOf k ts.
Proof.
  intros Hk. unfold statusOf. rewrite nth_error_app1 by exact Hk. reflexivity.
Qed.

Lemma nth_error_app_new (ts : list Timer) (t : Timer) :
  nth_error (ts ++ [t]) (length ts) = Some t.
Proof.
  rewrite nth_error_app2 by lia. rewrite Nat.sub_diag. reflexivity.
Qed.

(** After [Stop()] on the timer [bn.timer] refers to, a well-formed engine
    has no pending timer. *)
Lemma stopIfSet_noPending (bn : BackstopNotifier) :
  wellFormed bn -> noPending (stopIfSet bn).
Proof.
  intros [Ha [Hb Hc]] j. unfold stopIfSet, timerPending in *.
  destruct (timer bn) as [k|] eqn:Et; simpl.
  - unfold stopTimer.
    destruct (statusOf k (timers bn)) as [[| | |]|] eqn:Ek.
    + destruct (Nat.eq_dec j k) as [->|Hne].
      * rewrite statusOf_setStatus_same; [reflexivity|].
        eapply statusOf_Some_lt; eauto.
      * rewrite statusOf_setStatus_other by exact Hne.
        specialize (Ha j). destruct (statusOf j (timers bn)) as [[| | |]|]; auto.
        specialize (Ha eq_refl). congruence.
    + specialize (Ha j). destruct (statusOf j (timers bn)) as [[| | |]|] eqn:Ej; auto.
      specialize (Ha eq_refl). congruence.
    + specialize (Ha j). destruct (statusOf j (timers bn)) as [[| | |]|] eqn:Ej; auto.
      specialize (Ha eq_refl). congruence.
    + specialize (Ha j). destruct (statusOf j (timers bn)) as [[| | |]|] eqn:Ej; auto.
      specialize (Ha eq_refl). congruence.
    + specialize (Ha j). destruct (statusOf j (timers bn)) as [[| | |]|] eqn:Ej; auto.
      specialize (Ha eq_refl). congruence.
  - specialize (Ha j). destruct (statusOf j (timers bn)) as [[| | |]|]; auto.
    specialize (Ha eq_refl). congruence.
Qed.

Lemma stopIfSet_length (bn : BackstopNotifier) :
  length (timers (stopIfSet bn)) = length (timers bn).
Proof.
  unfold stopIfSet. destruct (timer bn) as [k|]; simpl; [|reflexivity].
  unfold stopTimer. destruct (statusOf k (timers bn)) as [[| | |]|]; try reflexivity.
  apply length_setStatus.
Qed.

Lemma stopIfSet_wellFormed (bn : BackstopNotifier) :
  wellFormed bn -> wellFormed (stopIfSet bn).
Proof.
  intros Hwf. pose proof (stopIfSet_noPending bn Hwf) as Hnp.
  destruct Hwf as [Ha [Hb Hc]].
  split; [|split].
  - intros k Hk. rewrite Hnp in Hk. discriminate.
  - intros k Hk. rewrite stopIfSet_timer in Hk. rewrite stopIfSet_length. auto.
  - intros Hne. rewrite stopIfSet_timeout. apply Hc.
    intros E. apply Hne. apply length_zero_iff_nil.
    rewrite stopIfSet_length, E. reflexivity.
Qed.

(** Arming when nothing is pending: the new timer is the only pending one,
    it is due one timeout from now, and [bn.timer] refers to it. *)
Lemma armIfConfigured_spec (now : Z) (bn : BackstopNotifier) :
  wellFormed bn -> noPending bn ->
  wellFormed (armIfConfigured now bn) /\
  (forall k, (k < length (timers bn))%nat -> timerPending k (armIfConfigured now bn) = false) /\
  (timeout bn > 0 ->
   timer (armIfConfigured now bn) = Some (length (timers bn)) /\
   armedAt now (armIfConfigured now bn) = true) /\
  (timeout bn <= 0 -> noPending (armIfConfigured now bn)).
Proof.
  intros [Ha [Hb Hc]] Hnp. unfold armIfConfigured.
  destruct (timeout bn >? 0) eqn:Et.
  - apply Z.gtb_lt in Et.
    assert (Hold : forall k, (k < length (timers bn))%nat ->
              timerPending k
                (set_timer (Some (length (timers bn)))
                   (set_timers (timers bn ++
                      [{| deadline := now + timeout bn; status := Pending |}]) bn)) = false).
    { intros k Hk. unfold timerPending. simpl.
      rewrite statusOf_app_old by exact Hk. apply (Hnp k). }
    split; [|split; [exact Hold|split]].
    + split; [|split]; simpl.
      * intros k Hk.
        destruct (Nat.lt_ge_cases k (length (timers bn))) as [Hlt|Hge].
        -- rewrite Hold in Hk by exact Hlt. discriminate.
        -- unfold timerPending in Hk. simpl in Hk.
           destruct (statusOf k _) eqn:Es; [|discriminate].
           apply statusOf_Some_lt in Es. rewrite length_app in Es. simpl in Es.
           f_equal. lia.
      * intros k Hk. injection Hk as <-. rewrite length_app. simpl. lia.
      * intros _. lia.
    + intros _. split; [reflexivity|].
      unfold armedAt. simpl. rewrite nth_error_app_new. simpl. apply Z.eqb_refl.
    + intros Hle. lia.
  - split; [|split; [|split]].
    + split; [|split]; auto.
    + intros k _. apply Hnp.
    + intros Hgt. assert (X : (timeout bn >? 0) = true) by (apply Z.gtb_lt; lia).
      congruence.
    + intros _. exact Hnp.
Qed.

(** *** Well-formedness is an invariant *)

Lemma wellFormed_ext (a b : BackstopNotifier) :
  timers a = timers b -> timer a = timer b -> timeout a = timeout b ->
  wellFormed a -> wellFormed b.
Proof.
  unfold wellFormed, timerPending. intros -> -> ->. auto.
Qed.

Lemma setStatus_wellFormed (k : nat) (st : TimerStatus) (bn : BackstopNotifier) :
  st <> Pending -> wellFormed bn ->
  wellFormed (set_timers (setStatus k st (timers bn)) bn).
Proof.
  intros Hst [Ha [Hb Hc]]. unfold wellFormed, timerPending in *. simpl.
  split; [|split].
  - intros j Hj. apply Ha.
    destruct (Nat.eq_dec j k) as [->|Hne].
    + destruct (Nat.lt_ge_cases k (length (timers bn))) as [Hlt|Hge].
      * rewrite statusOf_setStatus_same in Hj by exact Hlt.
        destruct st; try discriminate. contradiction.
      * destruct (statusOf k (setStatus k st (timers bn))) eqn:E; [|discriminate].
        apply statusOf_Some_lt in E. rewrite length_setStatus in E. lia.
    + rewrite statusOf_setStatus_other in Hj by exact Hne. exact Hj.
  - intros j Hj. rewrite length_setStatus. auto.
  - intros Hne. apply Hc. intros E. apply Hne.
    apply length_zero_iff_nil. rewrite length_setStatus, E. reflexivity.
Qed.

Lemma sendBackstopNotification_wellFormed (now : Z) (bn : BackstopNotifier) :
  wellFormed bn -> wellFormed (sendBackstopNotification now bn).
Proof.
  intros H. unfold sendBackstopNotification.
  destruct (backstopSent bn || backstopDisabled bn)%bool; [exact H|].
  destruct (idleNotificationSentSinceLastInteraction bn); [exact H|].
  eapply wellFormed_ext; [| | |exact H]; reflexivity.
Qed.

(** Stop, then arm: what [Send], [MarkActivity] and [ResetSession] end with. *)
Lemma rearm_spec (now : Z) (bn : BackstopNotifier) :
  wellFormed bn ->
  wellFormed (armIfConfigured now (stopIfSet bn)) /\
  (forall k, (k < length (timers bn))%nat ->
             timerPending k (armIfConfigured now (stopIfSet bn)) = false) /\
  (timeout bn > 0 ->
   timer (armIfConfigured now (stopIfSet bn)) = Some (length (timers bn)) /\
   armedAt now (armIfConfigured now (stopIfSet bn)) = true) /\
  (timeout bn <= 0 -> noPending (armIfConfigured now (stopIfSet bn))).
Proof.
  intros Hwf.
  pose proof (armIfConfigured_spec now (stopIfSet bn)
                (stopIfSet_wellFormed bn Hwf) (stopIfSet_noPending bn Hwf)) as H.
  rewrite stopIfSet_length, stopIfSet_timeout in H. exact H.
Qed.

Lemma step_wellFormed (now : Z) (e : Event) (bn : BackstopNotifier) :
  wellFormed bn -> wellFormed (step now e bn).
Proof.
  intros Hwf.
  destruct e as [n| |sent| | | |k|k]; simpl.
  - unfold Send.
    eapply wellFormed_ext; [| | |apply (rearm_spec now); eapply wellFormed_ext;
                                   [| | |exact Hwf]]; reflexivity.
  - unfold MarkActivity.
    apply (rearm_spec now). eapply wellFormed_ext; [| | |exact Hwf]; reflexivity.
  - unfold SetBackstopSent. destruct sent.
    + apply stopIfSet_wellFormed. eapply wellFormed_ext; [| | |exact Hwf]; reflexivity.
    + eapply wellFormed_ext; [| | |exact Hwf]; reflexivity.
  - unfold ResetSession.
    apply (rearm_spec now). eapply wellFormed_ext; [| | |exact Hwf]; reflexivity.
  - unfold DisableBackstopTimer.
    apply stopIfSet_wellFormed. eapply wellFormed_ext; [| | |exact Hwf]; reflexivity.
  - unfold Close. apply stopIfSet_wellFormed. exact Hwf.
  - unfold expire.
    destruct (nth_error (timers bn) k) as [t|]; [|exact Hwf].
    destruct (status t); try exact Hwf.
    destruct (deadline t <=? now); [|exact Hwf].
    apply setStatus_wellFormed; [discriminate|exact Hwf].
  - unfold callback.
    destruct (statusOf k (timers bn)) as [[| | |]|]; try exact Hwf.
    apply sendBackstopNotification_wellFormed.
    apply setStatus_wellFormed; [discriminate|exact Hwf].
Qed.

Lemma NewBackstopNotifier_wellFormed (timeout0 now : Z) :
  wellFormed (NewBackstopNotifier timeout0 now).
Proof.
  unfold NewBackstopNotifier, startTimer, armIfConfigured. simpl.
  destruct (timeout0 >? 0) eqn:E.
  - unfold wellFormed, timerPending. simpl.
    apply Z.gtb_lt in E.
    split; [|split].
    + intros [|[|k]]; simpl; intros H; try discriminate; reflexivity.
    + intros k Hk. injection Hk as <-. lia.
    + intros _. lia.
  - unfold wellFormed, timerPending. simpl.
    split; [|split].
    + intros [|k]; simpl; discriminate.
    + discriminate.
    + intros H. contradiction.
Qed.

Lemma run_wellFormed :
  forall (trace : list (Z * Event)) (bn : BackstopNotifier),
    wellFormed bn -> wellFormed (run trace bn).
Proof.
  induction trace as [|[now e] rest IH]; intros bn H; simpl; [exact H|].
  apply IH. apply step_wellFormed. exact H.
Qed.

Lemma step_timeout (now : Z) (e : Event) (bn : BackstopNotifier) :
  timeout (step now e bn) = timeout bn.
Proof.
  destruct e as [n| |sent| | | |k|k]; frame; try reflexivity.
  - destruct sent; frame; reflexivity.
  - unfold expire.
    destruct (nth_error (timers bn) k) as [t|]; [|reflexivity].
    destruct (status t); try reflexivity.
    destruct (deadline t <=? now); reflexivity.
  - unfold callback, sendBackstopNotification.
    destruct (statusOf k (timers bn)) as [[| | |]|]; try reflexivity.
    simpl. destruct (backstopSent bn || backstopDisabled bn)%bool; [reflexivity|].
    destruct (idleNotificationSentSinceLastInteraction bn); reflexivity.
Qed.

Lemma run_timeout :
  forall (trace : list (Z * Event)) (bn : BackstopNotifier),
    timeout (run trace bn) = timeout bn.
Proof.
  induction trace as [|[now e] rest IH]; intros bn; simpl; [reflexivity|].
  rewrite IH. apply step_timeout.
Qed.

Lemma run_app (t1 t2 : list (Z * Event)) :
  forall bn, run (t1 ++ t2) bn = run t2 (run t1 bn).
Proof.
  induction t1 as [|[now e] rest IH]; intros bn; simpl; [reflexivity|apply IH].
Qed.

(** *** [Send] *)

(** C3 (amended).  [Send] on a well-formed engine cancels every deadline
    that was pending, clears [backstopSent], leaves [backstopDisabled] and
    the since-last-interaction flag as they were, arms a fresh one-shot
    deadline one timeout from now when the timeout is positive (and none
    otherwise), and forwards the notification to the underlying notifier. *)
Theorem Send_effect :
  forall (bn : BackstopNotifier) (n : Notification) (now : Z),
    wellFormed bn ->
    backstopSent (Send n now bn) = false /\
    backstopDisabled (Send n now bn) = backstopDisabled bn /\
    idle (Send n now bn) = idle bn /\
    (forall k, (k < length (timers bn))%nat -> timerPending k (Send n now bn) = false) /\
    (timeout bn > 0 ->
     timer (Send n now bn) = Some (length (timers bn)) /\
     armedAt now (Send n now bn) = true) /\
    (timeout bn <= 0 -> noPending (Send n now bn)) /\
    underlying (Send n now bn) = underlying bn ++ [(FromSend, n)].
Proof.
  intros bn n now Hwf.
  set (bn1 := set_backstopSent false
                (set_lastNotificationTime now (set_lastActivityTime now bn))).
  assert (Hwf1 : wellFormed bn1)
    by (eapply wellFormed_ext; [| | |exact Hwf]; reflexivity).
  destruct (rearm_spec now bn1 Hwf1) as [_ [Hold [Hnew Hnone]]].
  change (timers bn1) with (timers bn) in *.
  change (timeout bn1) with (timeout bn) in *.
  unfold Send, idle. fold bn1.
  split; [simpl; autorewrite with frame; reflexivity|].
  split; [simpl; autorewrite with frame; reflexivity|].
  split; [simpl; autorewrite with frame; reflexivity|].
  split; [intros k Hk; apply (Hold k Hk)|].
  split; [intros Hto; apply (Hnew Hto)|].
  split; [intros Hto k; apply (Hnone Hto k)|].
  simpl. autorewrite with frame. reflexivity.
Qed.

Lemma Send_effect_witness :
  let bn := DisableBackstopTimer 1 (NewBackstopNotifier 30 0) in
  let n := startupNotification in
  backstopSent (Send n 2 bn) = false /\
  backstopDisabled (Send n 2 bn) = backstopDisabled bn /\
  idle (Send n 2 bn) = idle bn /\
  (forall k, (k < length (timers bn))%nat -> timerPending k (Send n 2 bn) = false) /\
  (timeout bn > 0 ->
   timer (Send n 2 bn) = Some (length (timers bn)) /\
   armedAt 2 (Send n 2 bn) = true) /\
  (timeout bn <= 0 -> noPending (Send n 2 bn)) /\
  underlying (Send n 2 bn) = underlying bn ++ [(FromSend, n)].
Proof.
  apply (Send_effect (DisableBackstopTimer 1 (NewBackstopNotifier 30 0))
           startupNotification 2).
  unfold wellFormed, timerPending. simpl.
  split; [|split].
  - intros [|[|k]]; simpl; intros H; try discriminate H; reflexivity.
  - intros k Hk. injection Hk as <-. simpl. lia.
  - intros _. lia.
Defined.

(** C3 as stated fails: after the user typed, [Send] leaves
    [backstopDisabled] set. *)
Lemma Send_keeps_disabled :
  backstopDisabled (DisableBackstopTimer 1 (NewBackstopNotifier 30 0)) = true /\
  backstopDisabled
    (Send startupNotification 2 (DisableBackstopTimer 1 (NewBackstopNotifier 30 0))) = true.
Proof.
  split; reflexivity.
Qed.

(** *** After a notification *)

Lemma step_deliveries_mono (now : Z) (e : Event) (bn : BackstopNotifier) :
  (backstopDeliveries bn <= backstopDeliveries (step now e bn))%nat.
Proof.
  destruct e as [n| |sent| | | |k|k];
    try (rewrite step_no_callback_deliveries by (intros ? ?; discriminate); lia).
  simpl. unfold callback.
  destruct (statusOf k (timers bn)) as [[| | |]|]; try lia.
  set (bn' := set_timers (setStatus k Ran (timers bn)) bn).
  change (backstopDeliveries bn) with (backstopDeliveries bn').
  destruct (sendBackstopNotification_cases now bn')
    as [[_ Heq] | [_ [_ [_ [Hdel _]]]]].
  - rewrite Heq. lia.
  - rewrite Hdel. lia.
Qed.

Lemma run_deliveries_mono :
  forall (trace : list (Z * Event)) (bn : BackstopNotifier),
    (backstopDeliveries bn <= backstopDeliveries (run trace bn))%nat.
Proof.
  induction trace as [|[now e] rest IH]; intros bn; simpl; [lia|].
  pose proof (step_deliveries_mono now e bn). specialize (IH (step now e bn)). lia.
Qed.

Lemma withinWindow_noUserInteraction (trace : list (Z * Event)) :
  withinWindow trace = true ->
  noUserInteraction trace = true /\ sessionResets trace = 0%nat.
Proof.
  unfold withinWindow, noUserInteraction, sessionResets.
  induction trace as [|[now e] rest IH]; simpl; intros H; [auto|].
  apply andb_prop in H. destruct H as [He Hrest].
  apply andb_prop in He. destruct He as [Hu Hr].
  destruct (IH Hrest) as [IH1 IH2].
  rewrite Hu, IH1. apply negb_true_iff in Hr. rewrite Hr. simpl. auto.
Qed.

(** Once "sent since the last interaction" is set, nothing is delivered
    before the next user interaction or session reset. *)
Lemma latched_no_delivery (trace : list (Z * Event)) (bn : BackstopNotifier) :
  idle bn = true -> withinWindow trace = true ->
  backstopDeliveries (run trace bn) = backstopDeliveries bn.
Proof.
  intros Hidle Hw.
  destruct (withinWindow_noUserInteraction trace Hw) as [Hno Hres].
  pose proof (run_budget trace bn Hno) as Hb.
  pose proof (run_deliveries_mono trace bn) as Hm.
  unfold budget at 2 in Hb. rewrite Hidle, Hres in Hb. lia.
Qed.

Lemma withinWindow_app (t1 t2 : list (Z * Event)) :
  withinWindow (t1 ++ t2) = (withinWindow t1 && withinWindow t2)%bool.
Proof.
  unfold withinWindow. apply forallb_app.
Qed.

(** C2.  Let the backstop notification fire (the callback of timer [k]
    delivers) in any state the engine can reach.  Then over every sequence
    of later events without a user interaction and without a session reset
    (activity marks, timer expiries and callbacks, sends, bells, in any
    order) the number of backstop deliveries stays what it was, although
    each [MarkActivity] in it leaves a pending timer due one timeout
    after it. *)
Theorem no_second_backstop_after_activity :
  forall (timeout0 t0 : Z) (pre : list (Z * Event)) (k : nat) (now : Z)
         (post : list (Z * Event)),
    let bn0 := run pre (NewBackstopNotifier timeout0 t0) in
    let bn1 := step now (EvCallback k) bn0 in
    backstopDeliveries bn1 = S (backstopDeliveries bn0) ->
    withinWindow post = true ->
    backstopDeliveries (run post bn1) = backstopDeliveries bn1 /\
    (forall post1 t post2,
        post = post1 ++ (t, EvMarkActivity) :: post2 ->
        armedAt t (run (post1 ++ [(t, EvMarkActivity)]) bn1) = true /\
        backstopDeliveries (run (post1 ++ [(t, EvMarkActivity)]) bn1)
        = backstopDeliveries bn1).
Proof.
  intros timeout0 t0 pre k now post bn0 bn1 Hfired Hw.
  assert (Hwf0 : wellFormed bn0)
    by (apply run_wellFormed, NewBackstopNotifier_wellFormed).
  assert (Hwf1 : wellFormed bn1) by (apply step_wellFormed; exact Hwf0).
  (* the callback delivered: its timer exists, and the latch is set *)
  assert (Hfacts : idle bn1 = true /\ timers bn0 <> []).
  { subst bn1. simpl in *. unfold callback in *.
    destruct (statusOf k (timers bn0)) as [[| | |]|] eqn:Ek; try lia.
    split.
    - set (bn' := set_timers (setStatus k Ran (timers bn0)) bn0) in *.
      destruct (sendBackstopNotification_cases now bn')
        as [[_ Heq] | [_ [_ [_ [_ [Hidle _]]]]]]; [|exact Hidle].
      rewrite Heq in Hfired. change (backstopDeliveries bn') with (backstopDeliveries bn0) in Hfired.
      lia.
    - intros E. rewrite E in Ek. destruct k; discriminate Ek. }
  destruct Hfacts as [Hidle Hne].
  assert (Hto : timeout bn1 > 0).
  { unfold bn1. rewrite step_timeout. destruct Hwf0 as [_ [_ Hc]]. auto. }
  split.
  - apply latched_no_delivery; assumption.
  - intros post1 t post2 ->.
    rewrite withinWindow_app in Hw. apply andb_prop in Hw. destruct Hw as [Hw1 _].
    split.
    + rewrite run_app. simpl. unfold MarkActivity.
      set (bnX := run post1 bn1).
      set (bnY := set_backstopDisabled false
                    (set_backstopSent false (set_lastActivityTime t bnX))).
      assert (HwfY : wellFormed bnY).
      { eapply wellFormed_ext; [| | |apply (run_wellFormed post1 bn1 Hwf1)]; reflexivity. }
      destruct (rearm_spec t bnY HwfY) as [_ [_ [Hnew _]]].
      apply Hnew. change (timeout bnY) with (timeout (run post1 bn1)).
      rewrite run_timeout. exact Hto.
    + apply latched_no_delivery; [exact Hidle|].
      rewrite withinWindow_app, Hw1. reflexivity.
Qed.

Lemma no_second_backstop_after_activity_witness :
  let bn0 := run [(30, EvExpire 0%nat)] (NewBackstopNotifier 30 0) in
  let bn1 := step 30 (EvCallback 0%nat) bn0 in
  let post := [(31, EvMarkActivity); (61, EvExpire 1%nat); (61, EvCallback 1%nat);
               (62, EvMarkActivity); (92, EvExpire 2%nat); (92, EvCallback 2%nat)] in
  backstopDeliveries (run post bn1) = backstopDeliveries bn1 /\
  (forall post1 t post2,
      post = post1 ++ (t, EvMarkActivity) :: post2 ->
      armedAt t (run (post1 ++ [(t, EvMarkActivity)]) bn1) = true /\
      backstopDeliveries (run (post1 ++ [(t, EvMarkActivity)]) bn1)
      = backstopDeliveries bn1).
Proof.
  apply (no_second_backstop_after_activity 30 0 [(30, EvExpire 0%nat)] 0%nat 30
           [(31, EvMarkActivity); (61, EvExpire 1%nat); (61, EvCallback 1%nat);
            (62, EvMarkActivity); (92, EvExpire 2%nat); (92, EvCallback 2%nat)]).
  - reflexivity.
  - reflexivity.
Defined.

(** *** After a bell *)

Lemma step_keepsSent (now : Z) (e : Event) (bn : BackstopNotifier) :
  backstopSent bn = true -> keepsSent e = true ->
  backstopSent (step now e bn) = true /\
  backstopDeliveries (step now e bn) = backstopDeliveries bn.
Proof.
  intros Hs Hk.
  destruct e as [n| |sent| | | |k|k]; try discriminate Hk;
    try (split; [|apply step_no_callback_deliveries; intros ? ?; discriminate]).
  - destruct sent; [|discriminate Hk]. frame. reflexivity.
  - frame. exact Hs.
  - frame. exact Hs.
  - simpl. unfold expire.
    destruct (nth_error (timers bn) k) as [t|]; [|exact Hs].
    destruct (status t); try exact Hs.
    destruct (deadline t <=? now); exact Hs.
  - simpl. unfold callback.
    destruct (statusOf k (timers bn)) as [[| | |]|]; auto.
    unfold sendBackstopNotification. simpl. rewrite Hs. simpl. auto.
Qed.

Lemma run_keepsSent :
  forall (trace : list (Z * Event)) (b : BackstopNotifier),
    backstopSent b = true -> allKeepSent trace = true ->
    backstopDeliveries (run trace b) = backstopDeliveries b /\
    backstopSent (run trace b) = true.
Proof.
  induction trace as [|[now e] rest IH]; intros b Hs Hall; simpl; [auto|].
  unfold allKeepSent in Hall. simpl in Hall.
  apply andb_prop in Hall. destruct Hall as [He Hrest].
  destruct (step_keepsSent now e b Hs He) as [Hs' Hd'].
  destruct (IH (step now e b) Hs' Hrest) as [IH1 IH2].
  rewrite IH1, Hd'. auto.
Qed.

(** C4 (amended).  After a bell ([SetBackstopSent(true)]) no sequence of
    timer expiries and callbacks, further bells, user interactions and
    [Close] makes the backstop path deliver: the suppression lasts until
    the next activity mark, forwarded notification or session reset. *)
Theorem bell_suppresses_until_activity :
  forall (bn : BackstopNotifier) (trace : list (Z * Event)),
    allKeepSent trace = true ->
    backstopDeliveries (run trace (SetBackstopSent true bn)) = backstopDeliveries bn /\
    backstopSent (run trace (SetBackstopSent true bn)) = true.
Proof.
  intros bn trace Hall.
  assert (Hd : backstopDeliveries (SetBackstopSent true bn) = backstopDeliveries bn).
  { unfold backstopDeliveries. frame. reflexivity. }
  assert (Hs : backstopSent (SetBackstopSent true bn) = true) by (frame; reflexivity).
  rewrite <- Hd. apply run_keepsSent; assumption.
Qed.

Lemma bell_suppresses_until_activity_witness :
  let trace := [(30, EvExpire 0%nat); (30, EvCallback 0%nat);
                (40, EvDisableBackstopTimer); (50, EvSetBackstopSent true)] in
  backstopDeliveries (run trace (SetBackstopSent true (NewBackstopNotifier 30 0)))
  = backstopDeliveries (NewBackstopNotifier 30 0) /\
  backstopSent (run trace (SetBackstopSent true (NewBackstopNotifier 30 0))) = true.
Proof.
  apply (bell_suppresses_until_activity (NewBackstopNotifier 30 0)
           [(30, EvExpire 0%nat); (30, EvCallback 0%nat);
            (40, EvDisableBackstopTimer); (50, EvSetBackstopSent true)]).
  reflexivity.
Defined.

(** At the level of the engine: a bell, then activity, then the timer that
    the activity armed fires and delivers. *)
Lemma bell_then_activity_delivers :
  backstopSent (run [(1, EvSetBackstopSent true)] (NewBackstopNotifier 30 0)) = true /\
  backstopDeliveries (run bellThenOutput (NewBackstopNotifier 30 0)) = 1%nat.
Proof.
  split; reflexivity.
Qed.

End BackstopProps.

(* ===================================================================== *)
(** ** Terminal sequence detector *)
(* ===================================================================== *)

Module DetectorProps.
Import Detector SliceFacts.

(** *** [detectBottomLineClear] stays within bounds *)

Lemma forReturn_total (cond : Z -> bool) (body : Z -> outcome bool) (hi : Z) :
  (forall j, cond j = true -> j < hi) ->
  forall (fuel : nat) (k : Z),
    (forall j, k <= j -> cond j = true -> exists r, body j = Done r) ->
    hi - k <= Z.of_nat fuel ->
    exists r, forReturn fuel cond body k = Done r.
Proof.
  intros Hcond. induction fuel as [|fuel IH]; intros k Hbody Hf; simpl.
  - destruct (cond k) eqn:E; [apply Hcond in E; lia|eauto].
  - destruct (cond k) eqn:E; [|simpl; eauto].
    destruct (Hbody k) as [r Hr]; [lia|exact E|]. rewrite Hr. simpl.
    destruct r; [eauto|].
    apply IH; [|apply Hcond in E; lia].
    intros j Hj. apply Hbody. lia.
Qed.

Lemma seekHf_total (data : list Z) :
  forall (fuel : nat) (j : Z),
    0 <= j -> len data - j <= Z.of_nat fuel ->
    exists j', seekHf data fuel j = Done j' /\ j <= j'.
Proof.
  induction fuel as [|fuel IH]; intros j H0 Hf; simpl; unfold andThen; simpl.
  - destruct (j <? len data) eqn:E; [apply Z.ltb_lt in E; lia|].
    simpl. exists j. split; [reflexivity|lia].
  - destruct (j <? len data) eqn:E; simpl.
    + apply Z.ltb_lt in E. destruct (index_ok data j) as [x Hx]; [lia|].
      rewrite Hx. simpl.
      destruct (negb (x =? 72)); simpl.
      * destruct (negb (x =? 102)); simpl.
        -- destruct (IH (j + 1)) as [j' [Hj' Hle]]; [lia|lia|].
           exists j'. split; [exact Hj'|lia].
        -- exists j. split; [reflexivity|lia].
      * exists j. split; [reflexivity|lia].
    + exists j. split; [reflexivity|lia].
Qed.

Lemma lineClearAt_total (data : list Z) (k : Z) :
  0 <= k -> k < len data - 2 -> exists r, lineClearAt data k = Done r.
Proof.
  intros H0 Hk. unfold lineClearAt, andThen, orElse.
  destruct (byteIs_ok data k ESC) as [b0 E0]; [lia|]. rewrite E0. simpl.
  destruct b0; [|simpl; eauto].
  destruct (byteIs_ok data (k + 1) LBRACKET) as [b1 E1]; [lia|]. rewrite E1. simpl.
  destruct b1; [|simpl; eauto].
  destruct (byteIs_ok data (k + 2) 75) as [b2 E2]; [lia|]. rewrite E2. simpl.
  destruct b2; [eauto|].
  destruct (k + 3 <? len data) eqn:E3; simpl; [|simpl; eauto].
  apply Z.ltb_lt in E3.
  destruct (byteIs_ok data (k + 2) 50) as [b3 E4]; [lia|]. rewrite E4. simpl.
  destruct b3; [|simpl; eauto].
  destruct (byteIs_ok data (k + 3) 75) as [b4 E5]; [lia|]. rewrite E5. eauto.
Qed.

Lemma cursorThenClearAt_total (data : list Z) (i : Z) :
  0 <= i -> i < len data - 5 -> exists r, cursorThenClearAt data i = Done r.
Proof.
  intros H0 Hi. unfold cursorThenClearAt, andThen, orElse.
  destruct (byteIs_ok data i ESC) as [b0 E0]; [lia|]. rewrite E0. simpl.
  destruct b0; simpl; [|simpl; eauto].
  destruct (byteIs_ok data (i + 1) LBRACKET) as [b1 E1]; [lia|]. rewrite E1. simpl.
  destruct b1; [|simpl; eauto].
  destruct (seekHf_total data (length data) (i + 2)) as [j [Hj Hle]];
    [lia|unfold len; lia|].
  rewrite Hj. simpl.
  destruct (j <? len data) eqn:Ej; simpl.
  - apply Z.ltb_lt in Ej.
    destruct (byteIs_ok data j 72) as [b2 E2]; [lia|]. rewrite E2. simpl.
    assert (Hloop : exists r,
               forReturn (length data)
                 (fun k => (k <? len data - 2) && (k <? j + 20))%bool
                 (lineClearAt data) (j + 1) = Done r).
    { apply forReturn_total with (hi := len data - 2).
      - intros k Hk. apply andb_prop in Hk. destruct Hk as [Hk _].
        apply Z.ltb_lt in Hk. exact Hk.
      - intros k Hk Hc. apply andb_prop in Hc. destruct Hc as [Hc _].
        apply Z.ltb_lt in Hc. apply lineClearAt_total; lia.
      - unfold len. lia. }
    destruct b2; [exact Hloop|].
    destruct (byteIs_ok data j 102) as [b3 E3]; [lia|]. rewrite E3. simpl.
    destruct b3; [exact Hloop|simpl; eauto].
  - simpl. eauto.
Qed.

Lemma detectBottomLineClear_total (data : list Z) :
  exists r, detectBottomLineClear data = Done r.
Proof.
  unfold detectBottomLineClear.
  assert (Hloop : exists r,
             forReturn (length data) (fun i => i <? len data - 5)
               (cursorThenClearAt data) 0 = Done r).
  { apply forReturn_total with (hi := len data - 5).
    - intros j Hj. apply Z.ltb_lt in Hj. exact Hj.
    - intros j Hj Hc. apply Z.ltb_lt in Hc. apply cursorThenClearAt_total; lia.
    - unfold len. lia. }
  destruct Hloop as [r Hr]. rewrite Hr. cbn [bind]. destruct r; [eauto|].
  match goal with |- context [if ?c then _ else _] => destruct c end; eauto.
Qed.

(** *** The rolling buffer *)

Lemma trim_lastBytes (buf : list Z) :
  (if len buf >? maxBufferSize
   then sliceFrom buf (len buf - maxBufferSize)
   else buf) = lastBytes 512 buf.
Proof.
  unfold lastBytes, sliceFrom, maxBufferSize, len.
  destruct (Z.of_nat (length buf) >? 512) eqn:E.
  - apply Z.gtb_lt in E. f_equal. lia.
  - assert (Hle : Z.of_nat (length buf) <= 512).
    { destruct (Z.gtb_spec (Z.of_nat (length buf)) 512); [discriminate|lia]. }
    replace (length buf - 512)%nat with 0%nat by lia. reflexivity.
Qed.

Lemma lastBytes_length (n : nat) (l : list Z) :
  length (lastBytes n l) = Nat.min n (length l).
Proof.
  unfold lastBytes. rewrite length_skipn. lia.
Qed.

Lemma lastBytes_short (n : nat) (l : list Z) :
  (length l <= n)%nat -> lastBytes n l = l.
Proof.
  intros H. unfold lastBytes. replace (length l - n)%nat with 0%nat by lia. reflexivity.
Qed.

Lemma lastBytes_app (n : nat) (a b : list Z) :
  lastBytes n (lastBytes n a ++ b) = lastBytes n (a ++ b).
Proof.
  unfold lastBytes.
  set (k := (length a - n)%nat).
  assert (Hk : (k <= length a)%nat) by (unfold k; lia).
  assert (E : skipn k a ++ b = skipn k (a ++ b)).
  { rewrite skipn_app. replace (k - length a)%nat with 0%nat by lia. reflexivity. }
  rewrite E, skipn_skipn. f_equal.
  rewrite length_skipn, !length_app. unfold k. lia.
Qed.

(** One call with a handler: the call returns, and the buffer it leaves is
    the tail of what it held extended by the chunk. *)
Lemma DetectSequences_Some {H : Type} `{ScreenEventHandler H}
    (data : list Z) (h : H) (t : TerminalSequenceDetector) :
  exists h' : H,
    DetectSequences data (Some h) t =
    Done ({| buffer := lastBytes 512 (buffer t ++ data);
             focusReportingEnabled := focusReportingEnabled t |}, Some h').
Proof.
  unfold DetectSequences.
  set (buf := buffer t ++ data).
  rewrite trim_lastBytes.
  match goal with
  | |- context [bind ?m _] => assert (Hm : exists fc, m = Done fc)
  end.
  { match goal with |- context [if ?c then _ else _] => destruct c end;
      [apply detectBottomLineClear_total|eauto]. }
  destruct Hm as [fc Hfc]. rewrite Hfc. cbn [bind].
  eexists. reflexivity.
Qed.

(** A call depends on the detector only through its buffer followed by the
    chunk. *)
Lemma DetectSequences_same_window {H : Type} `{ScreenEventHandler H}
    (d1 d2 : list Z) (h : option H) (t1 t2 : TerminalSequenceDetector) :
  buffer t1 ++ d1 = buffer t2 ++ d2 ->
  focusReportingEnabled t1 = focusReportingEnabled t2 ->
  (h = None -> t1 = t2) ->
  DetectSequences d1 h t1 = DetectSequences d2 h t2.
Proof.
  intros Hb Hf Hn. unfold DetectSequences.
  destruct h as [h|]; [|rewrite (Hn eq_refl); reflexivity].
  rewrite Hb, Hf. reflexivity.
Qed.

(** What every handler method preserves, a call preserves. *)
Lemma DetectSequences_preserves {H : Type} `{ScreenEventHandler H} (P : H -> Prop) :
  (forall h, P h -> P (HandleScreenClear h)) ->
  (forall title h, P h -> P (HandleTitleChange title h)) ->
  (forall h, P h -> P (HandleFocusIn h)) ->
  (forall h, P h -> P (HandleFocusOut h)) ->
  forall (data : list Z) (h h' : H) (t t' : TerminalSequenceDetector),
    P h -> DetectSequences data (Some h) t = Done (t', Some h') -> P h'.
Proof.
  intros Hc Ht Hi Ho data h h' t t' Ph E.
  unfold DetectSequences in E.
  match type of E with
  | context [bind ?m _] => destruct m as [fc| |]; cbn [bind] in E; try discriminate E
  end.
  injection E as _ <-.
  assert (P1 : P (if fc then HandleScreenClear h else h)) by (destruct fc; auto).
  set (h1 := if fc then HandleScreenClear h else h) in *.
  assert (P2 : P (if Contains (buffer t ++ data) focusInSequence
                  then HandleFocusIn h1 else h1))
    by (destruct (Contains (buffer t ++ data) focusInSequence); auto).
  set (h2 := if Contains (buffer t ++ data) focusInSequence
             then HandleFocusIn h1 else h1) in *.
  assert (P3 : P (if Contains (buffer t ++ data) focusOutSequence
                  then HandleFocusOut h2 else h2))
    by (destruct (Contains (buffer t ++ data) focusOutSequence); auto).
  destruct (findAllTitles 0 (buffer t ++ data)); auto.
Qed.

Lemma feed_total {H : Type} `{ScreenEventHandler H} :
  forall (chunks : list (list Z)) (h : H) (t : TerminalSequenceDetector),
    (length (buffer t) <= 512)%nat ->
    exists (t' : TerminalSequenceDetector) (h' : H),
      feed chunks h t = Done (t', h') /\
      buffer t' = lastBytes 512 (buffer t ++ concat chunks) /\
      focusReportingEnabled t' = focusReportingEnabled t.
Proof.
  induction chunks as [|c rest IH]; intros h t Hlen.
  - exists t, h. simpl. rewrite app_nil_r, lastBytes_short by exact Hlen. auto.
  - cbn [feed concat].
    destruct (DetectSequences_Some c h t) as [h1 E1]. rewrite E1. cbn [bind fst snd].
    set (t1 := {| buffer := lastBytes 512 (buffer t ++ c);
                  focusReportingEnabled := focusReportingEnabled t |}).
    destruct (IH h1 t1) as [t' [h' [E [Hb Hf]]]].
    { simpl. rewrite lastBytes_length. lia. }
    exists t', h'. split; [exact E|]. split; [|exact Hf].
    rewrite Hb. simpl. rewrite lastBytes_app, <- app_assoc. reflexivity.
Qed.

Lemma feed_app {H : Type} `{ScreenEventHandler H} (c1 c2 : list (list Z)) :
  forall (h : H) (t : TerminalSequenceDetector),
    feed (c1 ++ c2) h t = (r <- feed c1 h t ;; feed c2 (snd r) (fst r)).
Proof.
  induction c1 as [|c rest IH]; intros h t; [reflexivity|].
  cbn [app feed].
  destruct (DetectSequences c (Some h) t) as [[t1 [h1|]]| |]; cbn [bind fst snd]; auto.
Qed.

(** C7.  A call of [DetectSequences] with a handler returns and leaves a
    buffer of at most 512 bytes: the last 512 bytes of the old buffer
    followed by the chunk (a call with a nil handler leaves the detector as
    it is).  Over any number of calls on a fresh detector the buffer is the
    last 512 bytes of the concatenated chunks, all of them while they are
    no more than 512. *)
Theorem buffer_is_bounded_tail :
  forall (H : Type) (handler : ScreenEventHandler H),
    (forall (data : list Z) (h : H) (t : TerminalSequenceDetector),
        exists (t' : TerminalSequenceDetector) (h' : H),
          DetectSequences data (Some h) t = Done (t', Some h') /\
          len (buffer t') <= maxBufferSize /\
          buffer t' = lastBytes 512 (buffer t ++ data)) /\
    (forall (data : list Z) (t : TerminalSequenceDetector),
        DetectSequences data (@None H) t = Done (t, None)) /\
    (forall (chunks : list (list Z)) (h : H),
        exists (t' : TerminalSequenceDetector) (h' : H),
          feed chunks h NewTerminalSequenceDetector = Done (t', h') /\
          len (buffer t') <= maxBufferSize /\
          buffer t' = lastBytes 512 (concat chunks) /\
          length (buffer t') = Nat.min 512 (length (concat chunks))).
Proof.
  intros H handler. split; [|split].
  - intros data h t. destruct (DetectSequences_Some data h t) as [h' E].
    eexists; exists h'. split; [exact E|]. simpl. split; [|reflexivity].
    unfold len, maxBufferSize. rewrite lastBytes_length. lia.
  - reflexivity.
  - intros chunks h.
    destruct (feed_total chunks h NewTerminalSequenceDetector) as [t' [h' [E [Hb _]]]].
    { simpl. lia. }
    simpl in Hb. exists t', h'. split; [exact E|].
    rewrite Hb. unfold len, maxBufferSize. rewrite lastBytes_length.
    repeat split; lia.
Qed.

(** C6 (amended).  Feed a detector some chunks and then one more.  If the
    buffer with the earlier chunks fits the 512-byte cap, the last call sees
    the very window a single call with the concatenation sees: it acts on
    the handler, as the earlier calls left it, exactly as that single call
    would, and leaves the same detector.  When the earlier calls, which see
    only part of the input, leave the handler as it was ([h1 = h]), the
    split delivery and the delivery in one call agree altogether. *)
Theorem split_delivery_ends_like_single_call :
  forall (H : Type) (handler : ScreenEventHandler H)
         (chunks : list (list Z)) (last : list Z)
         (h h1 : H) (t t1 : TerminalSequenceDetector),
    len (buffer t ++ concat chunks) <= maxBufferSize ->
    feed chunks h t = Done (t1, h1) ->
    feed (chunks ++ [last]) h t = feed [concat chunks ++ last] h1 t.
Proof.
  intros H handler chunks last h h1 t t1 Hcap Hfeed.
  rewrite feed_app, Hfeed. cbn [bind fst snd].
  destruct (feed_total chunks h t) as [t' [h' [E [Hb Hf]]]].
  { unfold len, maxBufferSize in Hcap. rewrite length_app in Hcap. lia. }
  rewrite Hfeed in E. injection E as <- <-.
  rewrite lastBytes_short in Hb
    by (unfold len, maxBufferSize in Hcap; lia).
  cbn [feed].
  rewrite (DetectSequences_same_window last (concat chunks ++ last) (Some h1) t1 t).
  - reflexivity.
  - rewrite Hb, <- app_assoc. reflexivity.
  - exact Hf.
  - discriminate.
Qed.

(** The example of the specification: ["\x1b[2"] then ["J"]. *)
Lemma split_delivery_ends_like_single_call_witness :
  feed ([[ESC] ++ bs "[2"] ++ [bs "J"]) (@nil ScreenEvent) NewTerminalSequenceDetector
  = feed [concat [[ESC] ++ bs "[2"] ++ bs "J"] (@nil ScreenEvent) NewTerminalSequenceDetector.
Proof.
  apply (split_delivery_ends_like_single_call (list ScreenEvent) Recorder
           [[ESC] ++ bs "[2"] (bs "J") [] [] NewTerminalSequenceDetector
           {| buffer := [ESC] ++ bs "[2"; focusReportingEnabled := false |}).
  - vm_compute. discriminate.
  - reflexivity.
Defined.

Example split_clear_screen_fires_once :
  eventsOf [[ESC] ++ bs "[2"; bs "J"] = Done [ScreenClear] /\
  eventsOf [[ESC] ++ bs "[2J"] = Done [ScreenClear].
Proof.
  split; reflexivity.
Qed.

(** C6 as stated fails: ["\x1b[2Jab"] cut into ["\x1b[2"], ["Ja"], ["b"]
    reports the screen clear twice, because the completed sequence is still
    in the buffer at the third call; in one call it is reported once. *)
Lemma split_delivery_reports_clear_twice :
  concat [[ESC] ++ bs "[2"; bs "Ja"; bs "b"] = [ESC] ++ bs "[2Jab" /\
  eventsOf [[ESC] ++ bs "[2"; bs "Ja"; bs "b"] = Done [ScreenClear; ScreenClear] /\
  eventsOf [[ESC] ++ bs "[2Jab"] = Done [ScreenClear].
Proof.
  repeat split; reflexivity.
Qed.

(** The repository's own test of split sequences expects two clears where
    the same bytes in one call give one. *)
Example complex_sequence_split_across_chunks :
  eventsOf [bs "start" ++ [ESC]; bs "[2J" ++ [ESC] ++ bs "["; bs "3J" ++ [ESC] ++ bs "[H"]
  = Done [ScreenClear; ScreenClear] /\
  eventsOf [bs "start" ++ [ESC] ++ bs "[2J" ++ [ESC] ++ bs "[3J" ++ [ESC] ++ bs "[H"]
  = Done [ScreenClear].
Proof.
  split; reflexivity.
Qed.

End DetectorProps.

(* ===================================================================== *)
(** ** Output monitor *)
(* ===================================================================== *)

Module MonitorProps.
Import Monitor SliceFacts.

Lemma slice_mid (buffer pre cur rest : list Z) (lo hi : Z) :
  buffer = pre ++ cur ++ rest -> lo = len pre -> hi = len pre + len cur ->
  slice buffer lo hi = Done cur.
Proof.
  intros -> -> ->. unfold slice.
  pose proof (len_nonneg pre). pose proof (len_nonneg cur). pose proof (len_nonneg rest).
  replace ((0 <=? len pre) && (len pre <=? len pre + len cur) &&
           (len pre + len cur <=? len (pre ++ cur ++ rest)))%bool with true.
  - f_equal. unfold len.
    rewrite Nat2Z.id.
    replace (Z.to_nat (Z.of_nat (length pre) + Z.of_nat (length cur) - Z.of_nat (length pre)))
      with (length cur) by lia.
    rewrite skipn_app, skipn_all, Nat.sub_diag. simpl.
    rewrite firstn_app, firstn_all, Nat.sub_diag. simpl. apply app_nil_r.
  - symmetry. rewrite !len_app.
    repeat (apply andb_true_intro; split); apply Z.leb_le; lia.
Qed.

Lemma processLine_lineBuffer (line : list Z) (om : OutputMonitor) :
  lineBuffer (processLine line om) = lineBuffer om.
Proof.
  unfold processLine, ifBackstop.
  destruct (Detector.Contains line [BEL]); [|reflexivity].
  destruct (notifier om); reflexivity.
Qed.

Lemma noLF_app (a b : list Z) : noLF (a ++ b) = (noLF a && noLF b)%bool.
Proof. unfold noLF. apply forallb_app. Qed.

(** The loop over the buffer, started anywhere: the lines it passes to
    [processLine] and the index it ends with cut what was left into
    newline-free lines and a newline-free remainder. *)
Lemma lineLoop_spec :
  forall (rest pre cur : list Z) (fuel : nat) (st : OutputMonitor * list (list Z))
         (buffer : list Z) (i start : Z),
    buffer = pre ++ cur ++ rest -> i = len pre + len cur -> start = len pre ->
    noLF cur = true -> (length rest <= fuel)%nat ->
    exists (om' : OutputMonitor) (calls : list (list Z)) (rem : list Z),
      lineLoop buffer fuel i start st
      = Done (len buffer - len rem, (om', snd st ++ calls)) /\
      forallb noLF calls = true /\ noLF rem = true /\
      cur ++ rest = joinLines calls ++ rem /\
      lineBuffer om' = lineBuffer (fst st).
Proof.
  induction rest as [|b rest IH]; intros pre cur fuel st buffer i start Hb Hi Hs Hcur Hfuel.
  - exists (fst st), [], cur.
    assert (Hlen : len buffer = i).
    { subst. lens. lia. }
    assert (E : lineLoop buffer fuel i start st = Done (start, st)).
    { destruct fuel; simpl; rewrite Hlen, Z.ltb_irrefl; reflexivity. }
    rewrite E, Hlen, !app_nil_r.
    split; [destruct st; simpl; f_equal; f_equal; lia|].
    auto.
  - destruct fuel as [|fuel]; [simpl in Hfuel; lia|].
    simpl in Hfuel. cbn [lineLoop].
    assert (Hlt : (i <? len buffer) = true).
    { apply Z.ltb_lt. subst. lens. pose proof (len_nonneg rest). lia. }
    rewrite Hlt.
    rewrite (index_mid buffer (pre ++ cur) rest b i)
      by (subst; lens; rewrite <- ?app_assoc; reflexivity).
    cbn [bind].
    destruct (b =? LF) eqn:Eb.
    + apply Z.eqb_eq in Eb. subst b.
      rewrite (slice_mid buffer pre cur (LF :: rest) start i Hb Hs Hi). cbn [bind].
      destruct (IH (pre ++ cur ++ [LF]) [] fuel
                  (processLine cur (fst st), snd st ++ [cur]) buffer (i + 1) (i + 1))
        as [om' [calls [rem [E [Hc [Hr [Hj Hl]]]]]]].
      * subst. rewrite <- !app_assoc. reflexivity.
      * subst. lens. lia.
      * subst. lens. lia.
      * reflexivity.
      * lia.
      * exists om', (cur :: calls), rem. rewrite E. cbn [fst snd].
        split; [rewrite <- app_assoc; reflexivity|].
        split; [simpl; rewrite Hcur, Hc; reflexivity|].
        split; [exact Hr|].
        split.
        -- unfold joinLines in *. simpl in *. rewrite <- !app_assoc. simpl.
           rewrite Hj. reflexivity.
        -- rewrite Hl. apply processLine_lineBuffer.
    + destruct (IH pre (cur ++ [b]) fuel st buffer (i + 1) start)
        as [om' [calls [rem [E [Hc [Hr [Hj Hl]]]]]]].
      * subst. rewrite <- !app_assoc. reflexivity.
      * subst. lens. lia.
      * exact Hs.
      * rewrite noLF_app, Hcur. simpl. rewrite Eb. reflexivity.
      * lia.
      * exists om', calls, rem. rewrite E.
        split; [reflexivity|]. split; [exact Hc|]. split; [exact Hr|].
        split; [|exact Hl].
        rewrite <- Hj, <- app_assoc. reflexivity.
Qed.

Lemma ifBackstop_lineBuffer f (om : OutputMonitor) :
  lineBuffer (ifBackstop f om) = lineBuffer om.
Proof. unfold ifBackstop. destruct (notifier om); reflexivity. Qed.

(** One [HandleData] call: it returns; the lines it passes to
    [processLine] and the buffer it leaves cut the old buffer followed by
    the chunk at its newlines. *)
Lemma HandleData_spec (data : list Z) (now : Z) (om : OutputMonitor) :
  exists (om' : OutputMonitor) (calls : list (list Z)),
    HandleData data now om = Done (om', calls) /\
    forallb noLF calls = true /\ noLF (lineBuffer om') = true /\
    lineBuffer om ++ data = joinLines calls ++ lineBuffer om'.
Proof.
  unfold HandleData.
  destruct (@DetectorProps.DetectSequences_Some _ (asHandler now) data om
              (sequenceDetector om)) as [h' E].
  rewrite E. cbn [bind fst snd].
  assert (Hh : lineBuffer h' = lineBuffer om).
  { apply (@DetectorProps.DetectSequences_preserves _ (asHandler now)
             (fun x => lineBuffer x = lineBuffer om)) with (6 := E); try reflexivity.
    - intros h Hh. simpl. unfold HandleScreenClear. rewrite ifBackstop_lineBuffer. exact Hh.
    - intros title h Hh. exact Hh.
    - intros h Hh. exact Hh.
    - intros h Hh. exact Hh. }
  destruct (ClassifierTotal.containsVisibleContent_Done data) as [visible Ev].
  rewrite Ev. cbn [bind].
  match goal with
  | |- context [lineLoop ?b _ 0 0 (?o, [])] => set (buffer := b); set (om0 := o)
  end.
  destruct (lineLoop_spec buffer [] [] (length buffer) (om0, []) buffer 0 0)
    as [om1 [calls [rem [El [Hc [Hr [Hj Hl]]]]]]];
    [reflexivity|reflexivity|reflexivity|reflexivity|lia|].
  assert (Hbuf : buffer = lineBuffer om ++ data).
  { subst buffer. destruct visible; simpl; rewrite ?ifBackstop_lineBuffer; simpl;
      rewrite Hh; reflexivity. }
  rewrite El. cbn [bind fst snd app].
  simpl in Hj, Hl.
  pose proof (len_nonneg rem) as Hrem.
  destruct (len buffer - len rem <? len buffer) eqn:Es.
  - rewrite (slice_mid buffer (joinLines calls) rem [] (len buffer - len rem) (len buffer)).
    + cbn [bind]. eexists; eexists. split; [reflexivity|].
      simpl. rewrite <- Hbuf. auto.
    + rewrite app_nil_r. exact Hj.
    + rewrite Hj. lens. lia.
    + rewrite Hj. lens. lia.
  - assert (rem = []).
    { destruct rem; [reflexivity|]. rewrite len_cons in Es.
      pose proof (len_nonneg rem). apply Z.ltb_ge in Es. lia. }
    subst rem. eexists; eexists. split; [reflexivity|].
    rewrite Hl. simpl. rewrite <- Hbuf. auto.
Qed.

Lemma joinLines_app (a b : list (list Z)) :
  joinLines (a ++ b) = joinLines a ++ joinLines b.
Proof. unfold joinLines. rewrite map_app, concat_app. reflexivity. Qed.

(** There is one way only to cut bytes into newline-free lines, each
    followed by a newline, and a newline-free remainder. *)
Lemma line_cut_unique_head (a b x y : list Z) :
  noLF a = true -> noLF b = true ->
  a ++ LF :: x = b ++ LF :: y -> a = b /\ x = y.
Proof.
  revert b. induction a as [|c a IH]; intros [|d b] Ha Hb E; simpl in *.
  - injection E as E. auto.
  - injection E as E1 E2. subst d. discriminate Hb.
  - injection E as E1 E2. subst c. discriminate Ha.
  - injection E as E1 E2. subst d.
    apply andb_prop in Ha. apply andb_prop in Hb.
    destruct (IH b) as [-> ->]; [tauto|tauto|exact E2|auto].
Qed.

Lemma noLF_no_newline (a x r : list Z) :
  noLF r = true -> r <> a ++ LF :: x.
Proof.
  intros Hr E. subst r. rewrite noLF_app in Hr. apply andb_prop in Hr.
  destruct Hr as [_ Hr]. simpl in Hr. discriminate Hr.
Qed.

Lemma line_cut_unique :
  forall (c1 c2 : list (list Z)) (r1 r2 : list Z),
    forallb noLF c1 = true -> forallb noLF c2 = true ->
    noLF r1 = true -> noLF r2 = true ->
    joinLines c1 ++ r1 = joinLines c2 ++ r2 -> c1 = c2 /\ r1 = r2.
Proof.
  unfold joinLines.
  induction c1 as [|l1 c1 IH]; intros [|l2 c2] r1 r2 H1 H2 Hr1 Hr2 E; simpl in *.
  - auto.
  - rewrite <- !app_assoc in E. simpl in E.
    exfalso. exact (noLF_no_newline _ _ _ Hr1 E).
  - rewrite <- !app_assoc in E. simpl in E.
    exfalso. exact (noLF_no_newline _ _ _ Hr2 (eq_sym E)).
  - rewrite <- !app_assoc in E. simpl in E.
    apply andb_prop in H1. apply andb_prop in H2.
    destruct H1 as [Hl1 H1]. destruct H2 as [Hl2 H2].
    destruct (line_cut_unique_head l1 l2 _ _ Hl1 Hl2 E) as [-> E'].
    destruct (IH c2 r1 r2 H1 H2 Hr1 Hr2 E') as [-> ->]. auto.
Qed.

Lemma handleAll_cut :
  forall (chunks : list (list Z * Z)) (om : OutputMonitor),
    noLF (lineBuffer om) = true ->
    exists (om' : OutputMonitor) (calls : list (list Z)),
      handleAll chunks om = Done (om', calls) /\
      forallb noLF calls = true /\ noLF (lineBuffer om') = true /\
      lineBuffer om ++ concat (map fst chunks) = joinLines calls ++ lineBuffer om'.
Proof.
  induction chunks as [|[data now] rest IH]; intros om Hom.
  - exists om, []. simpl. rewrite app_nil_r. auto.
  - cbn [handleAll map concat fst].
    destruct (HandleData_spec data now om) as [om1 [c1 [E1 [Hc1 [Hr1 Hj1]]]]].
    rewrite E1. cbn [bind fst snd].
    destruct (IH om1 Hr1) as [om' [c2 [E2 [Hc2 [Hr2 Hj2]]]]].
    rewrite E2. cbn [bind fst snd].
    exists om', (c1 ++ c2). split; [reflexivity|].
    split; [rewrite forallb_app, Hc1, Hc2; reflexivity|].
    split; [exact Hr2|].
    rewrite joinLines_app, <- app_assoc, <- Hj2, !app_assoc, Hj1. reflexivity.
Qed.

(** C10.  Every [HandleData] call returns and leaves a line buffer without
    a newline; the lines it passes to [processLine], each followed by a
    newline, followed by the buffer it leaves, are the buffer it found
    followed by the chunk.  Over a whole stream into a new monitor the
    lines passed to [processLine], in order, and the final buffer are the
    one cut of the stream at its newlines, so every completed line is
    passed once.  [Flush] passes the buffer, if it is not empty, once, and
    empties it: a second [Flush] passes nothing. *)
Theorem line_buffer_invariant :
  (forall (data : list Z) (now : Z) (om : OutputMonitor),
      exists (om' : OutputMonitor) (calls : list (list Z)),
        HandleData data now om = Done (om', calls) /\
        forallb noLF calls = true /\ noLF (lineBuffer om') = true /\
        lineBuffer om ++ data = joinLines calls ++ lineBuffer om') /\
  (forall (chunks : list (list Z * Z)) (n : Notifier) (now0 : Z),
      exists (om' : OutputMonitor) (calls : list (list Z)),
        handleAll chunks (NewOutputMonitor n now0) = Done (om', calls) /\
        forallb noLF calls = true /\ noLF (lineBuffer om') = true /\
        concat (map fst chunks) = joinLines calls ++ lineBuffer om' /\
        (forall (calls' : list (list Z)) (rest' : list Z),
            forallb noLF calls' = true -> noLF rest' = true ->
            concat (map fst chunks) = joinLines calls' ++ rest' ->
            calls' = calls /\ rest' = lineBuffer om')) /\
  (forall om : OutputMonitor,
      lineBuffer (fst (Flush om)) = [] /\
      snd (Flush om) = match lineBuffer om with
                       | [] => []
                       | _ :: _ => [lineBuffer om]
                       end /\
      snd (Flush (fst (Flush om))) = []).
Proof.
  split; [exact HandleData_spec|]. split.
  - intros chunks n now0.
    destruct (handleAll_cut chunks (NewOutputMonitor n now0) eq_refl)
      as [om' [calls [E [Hc [Hr Hj]]]]].
    simpl in Hj. exists om', calls.
    split; [exact E|]. split; [exact Hc|]. split; [exact Hr|]. split; [exact Hj|].
    intros calls' rest' Hc' Hr' Hj'.
    apply (line_cut_unique calls' calls rest' (lineBuffer om') Hc' Hc Hr' Hr).
    rewrite <- Hj', <- Hj. reflexivity.
  - intros om. unfold Flush.
    destruct (lineBuffer om) as [|b l] eqn:E.
    + simpl. rewrite E. auto.
    + rewrite len_cons.
      replace (1 + len l >? 0) with true
        by (symmetry; apply Z.gtb_lt; pose proof (len_nonneg l); lia).
      simpl. auto.
Qed.

(** *** Bell, then output: the system level *)

(** C4 as stated fails.  The child prints a line with a bell (the engine's
    [backstopSent] is then set), prints more without a newline, and goes
    quiet; there is no user input and no screen clear.  The output after the
    bell re-arms the timer and clears [backstopSent], and the backstop
    notification is delivered. *)
Lemma bell_then_output_still_notifies :
  (exists om1, sysRun [(1, Output (bs "ding" ++ [BEL; LF]))] monitor30 = Done om1 /\
               backstopSentOf om1 = Some true /\ deliveries om1 = 0%nat) /\
  (exists om4, sysRun bellLineThenOutput monitor30 = Done om4 /\
               deliveries om4 = 1%nat) /\
  Detector.eventsOf [bs "ding" ++ [BEL; LF]; bs "more"] = Done [].
Proof.
  split; [|split].
  - eexists. split; [vm_compute; reflexivity|]. split; reflexivity.
  - eexists. split; [vm_compute; reflexivity|]. reflexivity.
  - reflexivity.
Qed.

End MonitorProps.

(* ===================================================================== *)
(** ** More about the backstop engine *)
(* ===================================================================== *)

Module BackstopMore.
Import Backstop BackstopVocab BackstopProps.

#[local] Hint Rewrite stopIfSet_idle stopIfSet_sent stopIfSet_disabled
  stopIfSet_underlying stopIfSet_timeout stopIfSet_timer
  armIfConfigured_idle armIfConfigured_sent armIfConfigured_disabled
  armIfConfigured_underlying armIfConfigured_timeout : frame.

(** X1.  In every state the engine reaches from its construction, the only
    timer that can be pending is the one [bn.timer] refers to (every
    method stops the old timer before it arms a new one), so at most one
    timer is pending; and timers exist only under a positive timeout. *)
Theorem at_most_one_pending_timer :
  forall (timeout0 t0 : Z) (trace : list (Z * Event)),
    let bn := run trace (NewBackstopNotifier timeout0 t0) in
    wellFormed bn /\
    (forall j k, timerPending j bn = true -> timerPending k bn = true -> j = k).
Proof.
  intros timeout0 t0 trace bn.
  assert (Hwf : wellFormed bn)
    by (apply run_wellFormed, NewBackstopNotifier_wellFormed).
  split; [exact Hwf|].
  intros j k Hj Hk. destruct Hwf as [Ha _].
  pose proof (Ha j Hj) as E1. pose proof (Ha k Hk) as E2. congruence.
Qed.

(** *** After the user typed *)

Lemma step_keepsDisabled (now : Z) (e : Event) (bn : BackstopNotifier) :
  backstopDisabled bn = true -> keepsDisabled e = true ->
  backstopDisabled (step now e bn) = true /\
  backstopDeliveries (step now e bn) = backstopDeliveries bn.
Proof.
  intros Hs Hk.
  destruct e as [n| |sent| | | |k|k]; try discriminate Hk;
    try (split; [|apply step_no_callback_deliveries; intros ? ?; discriminate]).
  - frame. exact Hs.
  - destruct sent; frame; exact Hs.
  - frame. reflexivity.
  - frame. exact Hs.
  - simpl. unfold expire.
    destruct (nth_error (timers bn) k) as [t|]; [|exact Hs].
    destruct (status t); try exact Hs.
    destruct (deadline t <=? now); exact Hs.
  - simpl. unfold callback.
    destruct (statusOf k (timers bn)) as [[| | |]|]; auto.
    unfold sendBackstopNotification. simpl. rewrite Hs, orb_true_r. simpl. auto.
Qed.

Lemma run_keepsDisabled :
  forall (trace : list (Z * Event)) (b : BackstopNotifier),
    backstopDisabled b = true -> allKeepDisabled trace = true ->
    backstopDeliveries (run trace b) = backstopDeliveries b /\
    backstopDisabled (run trace b) = true.
Proof.
  induction trace as [|[now e] rest IH]; intros b Hs Hall; simpl; [auto|].
  unfold allKeepDisabled in Hall. simpl in Hall.
  apply andb_prop in Hall. destruct Hall as [He Hrest].
  destruct (step_keepsDisabled now e b Hs He) as [Hs' Hd'].
  destruct (IH (step now e b) Hs' Hrest) as [IH1 IH2].
  rewrite IH1, Hd'. auto.
Qed.

(** X2.  After [DisableBackstopTimer] nothing is delivered on the backstop
    path until the next [MarkActivity] or [ResetSession]: not by timers,
    and not after a [Send] either, which re-arms the timer but leaves
    [backstopDisabled] set. *)
Theorem user_interaction_suppresses_until_activity :
  forall (bn : BackstopNotifier) (t : Z) (trace : list (Z * Event)),
    allKeepDisabled trace = true ->
    backstopDeliveries (run trace (DisableBackstopTimer t bn)) = backstopDeliveries bn /\
    backstopDisabled (run trace (DisableBackstopTimer t bn)) = true.
Proof.
  intros bn t trace Hall.
  assert (Hd : backstopDeliveries (DisableBackstopTimer t bn) = backstopDeliveries bn).
  { unfold backstopDeliveries. frame. reflexivity. }
  assert (Hs : backstopDisabled (DisableBackstopTimer t bn) = true) by (frame; reflexivity).
  rewrite <- Hd. apply run_keepsDisabled; assumption.
Qed.

Lemma user_interaction_suppresses_until_activity_witness :
  let trace := [(11, EvSend startupNotification);
                (41, EvExpire 1%nat); (41, EvCallback 1%nat)] in
  backstopDeliveries (run trace (DisableBackstopTimer 10 (NewBackstopNotifier 30 0)))
  = backstopDeliveries (NewBackstopNotifier 30 0) /\
  backstopDisabled (run trace (DisableBackstopTimer 10 (NewBackstopNotifier 30 0))) = true.
Proof.
  apply (user_interaction_suppresses_until_activity (NewBackstopNotifier 30 0) 10
           [(11, EvSend startupNotification);
            (41, EvExpire 1%nat); (41, EvCallback 1%nat)]).
  reflexivity.
Defined.

(** *** Timers that are stopped or not yet due *)

Lemma timer_event_noop (d now : Z) (e : Event) (bn : BackstopNotifier) :
  pendingNotBefore d bn -> noExpired bn ->
  isTimerEvent e = true -> now < d ->
  step now e bn = bn.
Proof.
  intros Hp He Ht Hnow.
  destruct e as [n| |sent| | | |k|k]; try discriminate Ht; simpl.
  - unfold expire.
    destruct (nth_error (timers bn) k) as [tm|] eqn:E; [|reflexivity].
    destruct (status tm) eqn:Es; try reflexivity.
    pose proof (Hp k tm E Es) as Hd.
    replace (deadline tm <=? now) with false; [reflexivity|].
    symmetry. apply Z.leb_gt. lia.
  - unfold callback.
    destruct (statusOf k (timers bn)) as [[| | |]|] eqn:E; try reflexivity.
    exfalso. exact (He k E).
Qed.

Lemma run_timer_noop (d : Z) :
  forall (trace : list (Z * Event)) (bn : BackstopNotifier),
    pendingNotBefore d bn -> noExpired bn ->
    timerEventsOnly trace = true -> allBefore d trace = true ->
    run trace bn = bn.
Proof.
  induction trace as [|[now e] rest IH]; intros bn Hp He Ht Hb; simpl; [reflexivity|].
  unfold timerEventsOnly, allBefore in Ht, Hb. simpl in Ht, Hb.
  apply andb_prop in Ht. destruct Ht as [Ht1 Ht2].
  apply andb_prop in Hb. destruct Hb as [Hb1 Hb2].
  apply Z.ltb_lt in Hb1.
  rewrite (timer_event_noop d now e bn Hp He Ht1 Hb1).
  apply IH; assumption.
Qed.

Lemma noPending_pendingNotBefore (d : Z) (bn : BackstopNotifier) :
  noPending bn -> pendingNotBefore d bn.
Proof.
  intros Hn k tm E Es. specialize (Hn k).
  unfold timerPending, statusOf in Hn. rewrite E in Hn. simpl in Hn.
  rewrite Es in Hn. discriminate Hn.
Qed.

Lemma run_stopped_noop :
  forall (trace : list (Z * Event)) (bn : BackstopNotifier),
    noPending bn -> noExpired bn -> timerEventsOnly trace = true ->
    run trace bn = bn.
Proof.
  induction trace as [|[now e] rest IH]; intros bn Hp He Ht; simpl; [reflexivity|].
  unfold timerEventsOnly in Ht. simpl in Ht.
  apply andb_prop in Ht. destruct Ht as [Ht1 Ht2].
  rewrite (timer_event_noop (now + 1) now e bn); auto; try lia.
  apply noPending_pendingNotBefore. exact Hp.
Qed.

Lemma stopTimer_noExpired (k j : nat) (ts : list Timer) :
  statusOf j (stopTimer k ts) = Some Expired -> statusOf j ts = Some Expired.
Proof.
  unfold stopTimer.
  destruct (statusOf k ts) as [[| | |]|] eqn:Ek; auto.
  destruct (Nat.eq_dec j k) as [->|Hne].
  - rewrite statusOf_setStatus_same by (eapply statusOf_Some_lt; eauto).
    discriminate.
  - rewrite statusOf_setStatus_other by exact Hne. auto.
Qed.

Lemma stopIfSet_noExpired (bn : BackstopNotifier) :
  noExpired bn -> noExpired (stopIfSet bn).
Proof.
  intros H j E. unfold stopIfSet in E.
  destruct (timer bn) as [k|]; simpl in E; [|exact (H j E)].
  apply stopTimer_noExpired in E. exact (H j E).
Qed.

Lemma noExpired_ext (a b : BackstopNotifier) :
  timers a = timers b -> noExpired a -> noExpired b.
Proof.
  unfold noExpired. intros <-. auto.
Qed.

Lemma statusOf_app_new (ts : list Timer) (t : Timer) (k : nat) :
  statusOf k (ts ++ [t]) =
  if (k <? length ts)%nat then statusOf k ts
  else if (k =? length ts)%nat then Some (status t) else None.
Proof.
  unfold statusOf.
  destruct (k <? length ts)%nat eqn:E.
  - apply Nat.ltb_lt in E. rewrite nth_error_app1 by exact E. reflexivity.
  - apply Nat.ltb_ge in E. rewrite nth_error_app2 by exact E.
    destruct (k =? length ts)%nat eqn:E2.
    + apply Nat.eqb_eq in E2. subst k. rewrite Nat.sub_diag. reflexivity.
    + apply Nat.eqb_neq in E2.
      destruct (k - length ts)%nat as [|m] eqn:Em; [lia|].
      simpl. destruct m; reflexivity.
Qed.

Lemma armIfConfigured_noExpired (now : Z) (bn : BackstopNotifier) :
  noExpired bn -> noExpired (armIfConfigured now bn).
Proof.
  intros H j E. unfold armIfConfigured in E.
  destruct (timeout bn >? 0); [|exact (H j E)].
  simpl in E. rewrite statusOf_app_new in E.
  destruct (j <? length (timers bn))%nat; [exact (H j E)|].
  destruct (j =? length (timers bn))%nat; discriminate E.
Qed.

(** After stop-then-arm at [now], no pending timer is due before
    [now + timeout]. *)
Lemma rearm_pendingNotBefore (now : Z) (bn : BackstopNotifier) :
  wellFormed bn ->
  pendingNotBefore (now + timeout bn) (armIfConfigured now (stopIfSet bn)).
Proof.
  intros Hwf.
  pose proof (stopIfSet_noPending bn Hwf) as Hnp.
  unfold armIfConfigured. rewrite stopIfSet_timeout.
  destruct (timeout bn >? 0).
  - intros k tm E Es. simpl in E.
    destruct (Nat.lt_ge_cases k (length (timers (stopIfSet bn)))) as [Hlt|Hge].
    + rewrite nth_error_app1 in E by exact Hlt.
      specialize (Hnp k). unfold timerPending, statusOf in Hnp.
      rewrite E in Hnp. simpl in Hnp. rewrite Es in Hnp. discriminate Hnp.
    + rewrite nth_error_app2 in E by exact Hge.
      destruct (k - length (timers (stopIfSet bn)))%nat as [|m];
        [|destruct m; discriminate E].
      simpl in E. injection E as <-. simpl. lia.
  - apply noPending_pendingNotBefore. exact Hnp.
Qed.

(** X3.  Once the timer has been stopped by [Close], by
    [DisableBackstopTimer] or by a bell ([SetBackstopSent(true)]), and no
    callback is already under way, timer events change nothing at all:
    nothing expires, nothing is delivered. *)
Theorem stopped_timer_never_fires :
  forall (bn : BackstopNotifier) (t : Z) (trace : list (Z * Event)),
    wellFormed bn -> noExpired bn -> timerEventsOnly trace = true ->
    run trace (Close bn) = Close bn /\
    run trace (DisableBackstopTimer t bn) = DisableBackstopTimer t bn /\
    run trace (SetBackstopSent true bn) = SetBackstopSent true bn.
Proof.
  intros bn t trace Hwf He Ht.
  split; [|split].
  - apply run_stopped_noop; [|apply stopIfSet_noExpired|]; auto.
    apply stopIfSet_noPending; exact Hwf.
  - unfold DisableBackstopTimer.
    apply run_stopped_noop; [| |exact Ht].
    + apply stopIfSet_noPending. eapply wellFormed_ext; [| | |exact Hwf]; reflexivity.
    + apply stopIfSet_noExpired. eapply noExpired_ext; [|exact He]. reflexivity.
  - unfold SetBackstopSent.
    apply run_stopped_noop; [| |exact Ht].
    + apply stopIfSet_noPending. eapply wellFormed_ext; [| | |exact Hwf]; reflexivity.
    + apply stopIfSet_noExpired. eapply noExpired_ext; [|exact He]. reflexivity.
Qed.

Lemma stopped_timer_never_fires_witness :
  let bn := NewBackstopNotifier 30 0 in
  let trace := [(30, EvExpire 0%nat); (30, EvCallback 0%nat)] in
  run trace (Close bn) = Close bn /\
  run trace (DisableBackstopTimer 5 bn) = DisableBackstopTimer 5 bn /\
  run trace (SetBackstopSent true bn) = SetBackstopSent true bn.
Proof.
  apply (stopped_timer_never_fires (NewBackstopNotifier 30 0) 5
           [(30, EvExpire 0%nat); (30, EvCallback 0%nat)]).
  - unfold wellFormed, timerPending. simpl.
    split; [|split].
    + intros [|[|k]]; simpl; intros H; try discriminate H; reflexivity.
    + intros k Hk. injection Hk as <-. simpl. lia.
    + intros _. lia.
  - intros [|[|k]]; simpl; discriminate.
  - reflexivity.
Defined.

(** X4.  Activity at time [t] puts the notification off by a full timeout:
    after [MarkActivity], [ResetSession] or [Send] at [t], with no callback
    already under way, timer events before [t + timeout] change nothing. *)
Theorem activity_postpones_by_timeout :
  forall (bn : BackstopNotifier) (n : Notification) (t : Z) (trace : list (Z * Event)),
    wellFormed bn -> noExpired bn ->
    timerEventsOnly trace = true -> allBefore (t + timeout bn) trace = true ->
    run trace (MarkActivity t bn) = MarkActivity t bn /\
    run trace (ResetSession t bn) = ResetSession t bn /\
    run trace (Send n t bn) = Send n t bn.
Proof.
  intros bn n t trace Hwf He Ht Hb.
  assert (Hgen : forall b0 : BackstopNotifier,
             timers b0 = timers bn -> timer b0 = timer bn -> timeout b0 = timeout bn ->
             run trace (armIfConfigured t (stopIfSet b0)) = armIfConfigured t (stopIfSet b0)).
  { intros b0 E1 E2 E3.
    assert (Hwf0 : wellFormed b0) by (eapply wellFormed_ext; [| | |exact Hwf]; auto).
    apply (run_timer_noop (t + timeout bn)); auto.
    - rewrite <- E3. apply rearm_pendingNotBefore. exact Hwf0.
    - apply armIfConfigured_noExpired, stopIfSet_noExpired.
      eapply noExpired_ext; [|exact He]. auto. }
  split; [|split].
  - unfold MarkActivity. apply Hgen; reflexivity.
  - unfold ResetSession. apply Hgen; reflexivity.
  - unfold Send.
    set (b1 := armIfConfigured t (stopIfSet _)).
    apply (run_timer_noop (t + timeout bn)); auto.
    + intros k tm E Es. simpl in E.
      pose proof (rearm_pendingNotBefore t
                    (set_backstopSent false
                       (set_lastNotificationTime t (set_lastActivityTime t bn)))) as Hp.
      simpl in Hp. apply (Hp ltac:(eapply wellFormed_ext; [| | |exact Hwf]; reflexivity) k tm E Es).
    + eapply noExpired_ext with (a := b1); [reflexivity|].
      apply armIfConfigured_noExpired, stopIfSet_noExpired.
      eapply noExpired_ext; [|exact He]. reflexivity.
Qed.

Lemma activity_postpones_by_timeout_witness :
  let bn := NewBackstopNotifier 30 0 in
  let trace := [(30, EvExpire 0%nat); (30, EvCallback 0%nat);
                (39, EvExpire 1%nat); (39, EvCallback 1%nat)] in
  run trace (MarkActivity 10 bn) = MarkActivity 10 bn /\
  run trace (ResetSession 10 bn) = ResetSession 10 bn /\
  run trace (Send startupNotification 10 bn) = Send startupNotification 10 bn.
Proof.
  apply (activity_postpones_by_timeout (NewBackstopNotifier 30 0) startupNotification 10
           [(30, EvExpire 0%nat); (30, EvCallback 0%nat);
            (39, EvExpire 1%nat); (39, EvCallback 1%nat)]).
  - unfold wellFormed, timerPending. simpl.
    split; [|split].
    + intros [|[|k]]; simpl; intros H; try discriminate H; reflexivity.
    + intros k Hk. injection Hk as <-. simpl. lia.
    + intros _. lia.
  - intros [|[|k]]; simpl; discriminate.
  - reflexivity.
  - reflexivity.
Defined.

(** *** A timer that is due *)

Lemma armed_fire_delivers (bn : BackstopNotifier) (k : nat) (d now1 now2 : Z) :
  nth_error (timers bn) k = Some {| deadline := d; status := Pending |} ->
  d <= now1 ->
  backstopSent bn = false -> backstopDisabled bn = false ->
  underlying (callback k now2 (expire k now1 bn)) =
  if idleNotificationSentSinceLastInteraction bn then underlying bn
  else underlying bn ++ [(FromBackstop, backstopNotification now2)].
Proof.
  intros E Hd Hs Hdis.
  assert (Hk : (k < length (timers bn))%nat) by (apply nth_error_Some; congruence).
  unfold expire. rewrite E. simpl.
  replace (d <=? now1) with true by (symmetry; apply Z.leb_le; exact Hd).
  unfold callback. simpl.
  rewrite statusOf_setStatus_same by exact Hk.
  unfold sendBackstopNotification. simpl. rewrite Hs, Hdis. simpl.
  destruct (idleNotificationSentSinceLastInteraction bn); reflexivity.
Qed.

Lemma rearm_new_timer (now : Z) (bn : BackstopNotifier) :
  timeout bn > 0 ->
  nth_error (timers (armIfConfigured now (stopIfSet bn))) (length (timers bn))
  = Some {| deadline := now + timeout bn; status := Pending |}.
Proof.
  intros Hto. unfold armIfConfigured. rewrite stopIfSet_timeout.
  replace (timeout bn >? 0) with true by (symmetry; apply Z.gtb_lt; lia).
  simpl. rewrite <- (stopIfSet_length bn). apply nth_error_app_new.
Qed.

(** X5.  A session reset opens a fresh window: when the timer it arms is
    due and its callback runs, one backstop notification is delivered,
    whatever was sent or disabled before.  The timer armed by
    [MarkActivity] delivers exactly when nothing was sent since the last
    user interaction. *)
Theorem rearmed_timer_delivers :
  forall (bn : BackstopNotifier) (now now1 now2 : Z),
    timeout bn > 0 -> now + timeout bn <= now1 ->
    let k := length (timers bn) in
    underlying (callback k now2 (expire k now1 (ResetSession now bn)))
    = underlying bn ++ [(FromBackstop, backstopNotification now2)] /\
    underlying (callback k now2 (expire k now1 (MarkActivity now bn)))
    = if idleNotificationSentSinceLastInteraction bn then underlying bn
      else underlying bn ++ [(FromBackstop, backstopNotification now2)].
Proof.
  intros bn now now1 now2 Hto Hdue k. split.
  - unfold ResetSession.
    rewrite (armed_fire_delivers _ k (now + timeout bn)); auto.
    + autorewrite with frame. reflexivity.
    + apply (rearm_new_timer now
               (set_idleNotificationSentSinceLastInteraction false
                  (set_lastActivityTime now
                     (set_backstopDisabled false (set_backstopSent false bn))))).
      exact Hto.
    + autorewrite with frame. reflexivity.
    + autorewrite with frame. reflexivity.
  - unfold MarkActivity.
    rewrite (armed_fire_delivers _ k (now + timeout bn)); auto.
    + autorewrite with frame. reflexivity.
    + apply (rearm_new_timer now
               (set_backstopDisabled false
                  (set_backstopSent false (set_lastActivityTime now bn)))).
      exact Hto.
    + autorewrite with frame. reflexivity.
    + autorewrite with frame. reflexivity.
Qed.

Lemma rearmed_timer_delivers_witness :
  let bn := run fireResetFire (NewBackstopNotifier 30 0) in
  let k := length (timers bn) in
  underlying (callback k 101 (expire k 100 (ResetSession 70 bn)))
  = underlying bn ++ [(FromBackstop, backstopNotification 101)] /\
  underlying (callback k 101 (expire k 100 (MarkActivity 70 bn)))
  = if idleNotificationSentSinceLastInteraction bn then underlying bn
    else underlying bn ++ [(FromBackstop, backstopNotification 101)].
Proof.
  apply (rearmed_timer_delivers (run fireResetFire (NewBackstopNotifier 30 0)) 70 100 101).
  - reflexivity.
  - vm_compute. discriminate.
Defined.

(** X6.  A quiet session: the timer armed at construction, once due,
    delivers exactly one notification, the backstop notification stamped
    with the time of the callback; asked before it is due, the runtime
    does not fire it and nothing is delivered. *)
Theorem first_timer_delivers_once_due :
  forall (timeout0 t0 now1 now2 : Z),
    timeout0 > 0 ->
    (t0 + timeout0 <= now1 ->
     underlying (callback 0 now2 (expire 0 now1 (NewBackstopNotifier timeout0 t0)))
     = [(FromBackstop, backstopNotification now2)]) /\
    (now1 < t0 + timeout0 ->
     callback 0 now2 (expire 0 now1 (NewBackstopNotifier timeout0 t0))
     = NewBackstopNotifier timeout0 t0).
Proof.
  intros timeout0 t0 now1 now2 Hto.
  unfold NewBackstopNotifier, startTimer, armIfConfigured. simpl.
  replace (timeout0 >? 0) with true by (symmetry; apply Z.gtb_lt; lia).
  split; intros H.
  - unfold expire. simpl.
    replace (t0 + timeout0 <=? now1) with true by (symmetry; apply Z.leb_le; lia).
    reflexivity.
  - unfold expire. simpl.
    replace (t0 + timeout0 <=? now1) with false by (symmetry; apply Z.leb_gt; lia).
    reflexivity.
Qed.

Lemma first_timer_delivers_once_due_witness :
  (0 + 30 <= 30 ->
   underlying (callback 0 31 (expire 0 30 (NewBackstopNotifier 30 0)))
   = [(FromBackstop, backstopNotification 31)]) /\
  (30 < 0 + 30 ->
   callback 0 31 (expire 0 30 (NewBackstopNotifier 30 0)) = NewBackstopNotifier 30 0).
Proof.
  apply (first_timer_delivers_once_due 30 0 30 31). reflexivity.
Defined.

(** *** What the underlying notifier receives *)

Lemma forwarded_snoc_send (l : list (CallSite * Notification)) (n : Notification) :
  map snd (filter (fun d => negb (isBackstopDelivery d)) (l ++ [(FromSend, n)]))
  = map snd (filter (fun d => negb (isBackstopDelivery d)) l) ++ [n].
Proof. rewrite filter_app, map_app. reflexivity. Qed.

Lemma forwarded_snoc_backstop (l : list (CallSite * Notification)) (n : Notification) :
  map snd (filter (fun d => negb (isBackstopDelivery d)) (l ++ [(FromBackstop, n)]))
  = map snd (filter (fun d => negb (isBackstopDelivery d)) l).
Proof. rewrite filter_app, map_app. simpl. apply app_nil_r. Qed.

Lemma backstops_snoc_backstop (l : list (CallSite * Notification)) (n : Notification) :
  map snd (filter isBackstopDelivery (l ++ [(FromBackstop, n)]))
  = map snd (filter isBackstopDelivery l) ++ [n].
Proof. rewrite filter_app, map_app. reflexivity. Qed.

Lemma backstops_snoc_send (l : list (CallSite * Notification)) (n : Notification) :
  map snd (filter isBackstopDelivery (l ++ [(FromSend, n)]))
  = map snd (filter isBackstopDelivery l).
Proof. rewrite filter_app, map_app. simpl. apply app_nil_r. Qed.

(** The three calls the output monitor makes leave the deliveries alone. *)
Lemma monitor_call_underlying (now : Z) (e : Event) (bn : BackstopNotifier) :
  match e with
  | EvResetSession | EvMarkActivity | EvSetBackstopSent _ => true
  | _ => false
  end = true ->
  underlying (step now e bn) = underlying bn.
Proof.
  destruct e as [n| |sent| | | |k|k]; intros He; try discriminate He.
  - frame. reflexivity.
  - destruct sent; frame; reflexivity.
  - frame. reflexivity.
Qed.

Lemma step_underlying (now : Z) (e : Event) (bn : BackstopNotifier) :
  forwarded (step now e bn) = forwarded bn ++ sentIn [(now, e)] /\
  (backstops (step now e bn) = backstops bn \/
   backstops (step now e bn) = backstops bn ++ [backstopNotification now]).
Proof.
  unfold forwarded, backstops.
  destruct e as [n| |sent| | | |k|k]; simpl sentIn; rewrite ?app_nil_r.
  - frame. rewrite forwarded_snoc_send, backstops_snoc_send. auto.
  - frame. auto.
  - destruct sent; frame; auto.
  - frame. auto.
  - frame. auto.
  - frame. auto.
  - simpl. unfold expire.
    destruct (nth_error (timers bn) k) as [t|]; [|auto].
    destruct (status t); auto.
    destruct (deadline t <=? now); auto.
  - simpl. unfold callback.
    destruct (statusOf k (timers bn)) as [[| | |]|]; auto.
    unfold sendBackstopNotification. simpl.
    destruct (backstopSent bn || backstopDisabled bn)%bool; [auto|].
    destruct (idleNotificationSentSinceLastInteraction bn); [auto|].
    simpl. rewrite forwarded_snoc_backstop, backstops_snoc_backstop. auto.
Qed.

(** X7.  The engine is transparent for notifications sent through it: over
    any sequence of events the underlying notifier receives from [Send]
    exactly the notifications handed to [Send], in order, none dropped,
    changed or repeated; and whatever the backstop path adds is the fixed
    "Gemini needs attention" notification stamped with a time. *)
Theorem forwarding_is_transparent :
  forall (trace : list (Z * Event)) (bn : BackstopNotifier),
    forwarded (run trace bn) = forwarded bn ++ sentIn trace /\
    (forall n, In n (backstops (run trace bn)) ->
               In n (backstops bn) \/ exists t, n = backstopNotification t).
Proof.
  induction trace as [|[now e] rest IH]; intros bn.
  - simpl. rewrite app_nil_r. auto.
  - cbn [run]. destruct (IH (step now e bn)) as [IH1 IH2].
    destruct (step_underlying now e bn) as [Hf Hb].
    split.
    + rewrite IH1, Hf, <- app_assoc. f_equal.
      destruct e; reflexivity.
    + intros n Hn. destruct (IH2 n Hn) as [Hin | Hex]; [|auto].
      destruct Hb as [Hb | Hb]; rewrite Hb in Hin; [auto|].
      apply in_app_or in Hin. destruct Hin as [Hin | [<- | []]]; eauto.
Qed.

(** X8.  Without a positive timeout the engine never arms a timer and
    never delivers a backstop notification, whatever happens. *)
Theorem no_timeout_no_backstop :
  forall (timeout0 t0 : Z) (trace : list (Z * Event)),
    timeout0 <= 0 ->
    timers (run trace (NewBackstopNotifier timeout0 t0)) = [] /\
    backstopDeliveries (run trace (NewBackstopNotifier timeout0 t0)) = 0%nat.
Proof.
  intros timeout0 t0 trace Hto.
  assert (Hgen : forall tr bn, timeout bn <= 0 -> timers bn = [] ->
             timers (run tr bn) = [] /\
             backstopDeliveries (run tr bn) = backstopDeliveries bn).
  { induction tr as [|[now e] rest IH]; intros bn H1 H2; [simpl; auto|].
    cbn [run].
    assert (Hstop : forall b, timers b = [] -> stopIfSet b = b \/ timers (stopIfSet b) = []).
    { intros b Hb. right. unfold stopIfSet.
      destruct (timer b) as [k|]; simpl; [|exact Hb].
      rewrite Hb. unfold stopTimer. destruct k; reflexivity. }
    assert (Hstep : timeout (step now e bn) <= 0 /\ timers (step now e bn) = [] /\
                    backstopDeliveries (step now e bn) = backstopDeliveries bn).
    { rewrite step_timeout. split; [exact H1|].
      assert (Harm : forall b, timeout b = timeout bn -> armIfConfigured now b = b).
      { intros b Eb. unfold armIfConfigured. rewrite Eb.
        replace (timeout bn >? 0) with false; [reflexivity|].
        symmetry. destruct (Z.gtb_spec (timeout bn) 0); [lia|reflexivity]. }
      assert (Hst : forall b, timers b = [] -> timers (stopIfSet b) = []).
      { intros b Hb. unfold stopIfSet.
        destruct (timer b) as [k|]; simpl; [|exact Hb].
        rewrite Hb. unfold stopTimer. destruct k; reflexivity. }
      destruct e as [n| |sent| | | |k|k];
        try (split; [|apply step_no_callback_deliveries; intros ? ?; discriminate]).
      - simpl. unfold Send. rewrite Harm by (autorewrite with frame; reflexivity).
        simpl. apply Hst. exact H2.
      - simpl. unfold MarkActivity. rewrite Harm by (autorewrite with frame; reflexivity).
        apply Hst. exact H2.
      - simpl. unfold SetBackstopSent. destruct sent; [apply Hst|]; exact H2.
      - simpl. unfold ResetSession. rewrite Harm by (autorewrite with frame; reflexivity).
        apply Hst. exact H2.
      - simpl. unfold DisableBackstopTimer. apply Hst. exact H2.
      - simpl. unfold Close. apply Hst. exact H2.
      - simpl. unfold expire. rewrite H2. destruct k; exact H2.
      - simpl. unfold callback. rewrite H2. destruct k; simpl; auto. }
    destruct Hstep as [S1 [S2 S3]].
    destruct (IH (step now e bn) S1 S2) as [I1 I2].
    split; [exact I1|]. rewrite I2. exact S3. }
  assert (Hnew : NewBackstopNotifier timeout0 t0 =
                 {| timeout := timeout0; lastNotificationTime := 0;
                    lastActivityTime := t0; lastUserInteraction := t0;
                    timer := None; backstopSent := false; backstopDisabled := false;
                    idleNotificationSentSinceLastInteraction := false;
                    timers := []; underlying := [] |}).
  { unfold NewBackstopNotifier.
    replace (timeout0 >? 0) with false; [reflexivity|].
    symmetry. destruct (Z.gtb_spec timeout0 0); [lia|reflexivity]. }
  destruct (Hgen trace (NewBackstopNotifier timeout0 t0)) as [G1 G2].
  - rewrite Hnew. simpl. exact Hto.
  - rewrite Hnew. reflexivity.
  - split; [exact G1|]. rewrite G2, Hnew. reflexivity.
Qed.

Lemma no_timeout_no_backstop_witness :
  timers (run quietThenOutput (NewBackstopNotifier 0 0)) = [] /\
  backstopDeliveries (run quietThenOutput (NewBackstopNotifier 0 0)) = 0%nat.
Proof.
  apply (no_timeout_no_backstop 0 0 quietThenOutput). lia.
Defined.

End BackstopMore.

(* ===================================================================== *)
(** ** More about the detector *)
(* ===================================================================== *)

Module DetectorMore.
Import Detector DetectorVocab DetectorProps SliceFacts.

(** *** Every handler sees what the recorder records *)

(** The events of one call, from what the window holds. *)
Lemma DetectSequences_events_of_window :
  forall (H : Type) (handler : ScreenEventHandler H)
         (data : list Z) (h : H) (t : TerminalSequenceDetector),
    exists (t' : TerminalSequenceDetector) (clear : bool),
      let evs := eventsOfCall clear
                   (Contains (buffer t ++ data) focusInSequence)
                   (Contains (buffer t ++ data) focusOutSequence)
                   (match findAllTitles 0 (buffer t ++ data) with
                    | [] => None
                    | m :: ms => Some (last ms m)
                    end) in
      @DetectSequences _ Recorder data (Some []) t = Done (t', Some evs) /\
      DetectSequences data (Some h) t = Done (t', Some (fold_left notify evs h)).
Proof.
  intros H handler data h t.
  unfold DetectSequences.
  match goal with
  | |- context [bind ?m _] => assert (Hm : exists fc, m = Done fc)
  end.
  { match goal with |- context [if ?c then _ else _] => destruct c end;
      [apply detectBottomLineClear_total|eauto]. }
  destruct Hm as [fc Hfc]. rewrite Hfc. cbn [bind].
  eexists. exists fc. cbv zeta.
  split.
  - f_equal. f_equal. f_equal.
    destruct fc;
      destruct (Contains (buffer t ++ data) focusInSequence);
      destruct (Contains (buffer t ++ data) focusOutSequence);
      destruct (findAllTitles 0 (buffer t ++ data)); reflexivity.
  - f_equal. f_equal. f_equal.
    destruct fc;
      destruct (Contains (buffer t ++ data) focusInSequence);
      destruct (Contains (buffer t ++ data) focusOutSequence);
      destruct (findAllTitles 0 (buffer t ++ data)); reflexivity.
Qed.

(** X9.  Whatever the handler, one [DetectSequences] call hands it the
    events the recording handler records, in the same order; these are at
    most one screen clear, one focus-in, one focus-out and one title
    change, in this order, however many sequences the buffer holds. *)
Theorem handler_gets_recorded_events :
  forall (H : Type) (handler : ScreenEventHandler H)
         (data : list Z) (h : H) (t : TerminalSequenceDetector),
    exists (t' : TerminalSequenceDetector) (evs : list ScreenEvent),
      @DetectSequences _ Recorder data (Some []) t = Done (t', Some evs) /\
      DetectSequences data (Some h) t = Done (t', Some (fold_left notify evs h)) /\
      exists clear focusIn focusOut title,
        evs = eventsOfCall clear focusIn focusOut title.
Proof.
  intros H handler data h t.
  destruct (DetectSequences_events_of_window H handler data h t) as [t' [clear [E1 E2]]].
  exists t'. eexists. split; [exact E1|]. split; [exact E2|].
  eexists. eexists. eexists. eexists. reflexivity.
Qed.

(** *** Output without an ESC byte *)

Lemma HasPrefix_head (l s : list Z) (c : Z) :
  HasPrefix l (c :: s) = true -> exists r, l = c :: r.
Proof.
  destruct l as [|b r]; simpl; [discriminate|].
  intros H. apply andb_prop in H. destruct H as [H _].
  apply Z.eqb_eq in H. subst. eauto.
Qed.

Lemma Contains_noByte (c : Z) (s : list Z) :
  forall l, noByte c l = true -> Contains l (c :: s) = false.
Proof.
  induction l as [|b r IH]; intros Hn; [reflexivity|].
  simpl in Hn. apply andb_prop in Hn. destruct Hn as [Hb Hr].
  apply negb_true_iff in Hb.
  cbn [Contains HasPrefix]. rewrite Hb. simpl. apply IH. exact Hr.
Qed.

Lemma index_In (data : list Z) (i b : Z) :
  index data i = Done b -> In b data.
Proof.
  unfold index. destruct ((0 <=? i) && (i <? len data))%bool; [|discriminate].
  destruct (nth_error data (Z.to_nat i)) eqn:E; [|discriminate].
  intros H. injection H as <-. eapply nth_error_In; eauto.
Qed.

Lemma byteIs_noByte (data : list Z) (i c : Z) :
  noByte c data = true -> 0 <= i < len data -> byteIs data i c = Done false.
Proof.
  intros Hn Hi. unfold byteIs.
  destruct (index_ok data i Hi) as [b Hb]. rewrite Hb. simpl.
  apply index_In in Hb. unfold noByte in Hn. rewrite forallb_forall in Hn.
  apply Hn in Hb. apply negb_true_iff in Hb. rewrite Hb. reflexivity.
Qed.

Lemma forReturn_false (cond : Z -> bool) (body : Z -> outcome bool) (hi : Z) :
  (forall j, cond j = true -> j < hi) ->
  forall (fuel : nat) (k : Z),
    (forall j, k <= j -> cond j = true -> body j = Done false) ->
    hi - k <= Z.of_nat fuel ->
    forReturn fuel cond body k = Done false.
Proof.
  intros Hcond. induction fuel as [|fuel IH]; intros k Hbody Hf; simpl.
  - destruct (cond k) eqn:E; [apply Hcond in E; lia|reflexivity].
  - destruct (cond k) eqn:E; [|reflexivity].
    rewrite (Hbody k) by (auto; lia). simpl.
    apply IH; [|apply Hcond in E; lia].
    intros j Hj. apply Hbody. lia.
Qed.

Lemma detectBottomLineClear_noESC (data : list Z) :
  noByte ESC data = true -> detectBottomLineClear data = Done false.
Proof.
  intros Hn. unfold detectBottomLineClear.
  rewrite (forReturn_false _ _ (len data - 5)).
  - cbn [bind]. cbn [app].
    rewrite !(Contains_noByte ESC) by exact Hn. reflexivity.
  - intros j Hj. apply Z.ltb_lt in Hj. exact Hj.
  - intros j Hj Hc. apply Z.ltb_lt in Hc.
    unfold cursorThenClearAt, andThen.
    rewrite (byteIs_noByte data j ESC Hn) by lia. reflexivity.
  - unfold len. lia.
Qed.

Lemma matchTitleAt_not_ESC (b : Z) (r : list Z) :
  (b =? ESC) = false -> matchTitleAt (b :: r) = None.
Proof.
  intros Hb. unfold matchTitleAt.
  destruct r as [|rb [|d [|semi body]]]; try reflexivity.
  rewrite Hb. reflexivity.
Qed.

Lemma findAllTitles_noESC_prefix :
  forall (pre l : list Z),
    noByte ESC pre = true -> findAllTitles 0 (pre ++ l) = findAllTitles 0 l.
Proof.
  induction pre as [|b r IH]; intros l Hn; [reflexivity|].
  simpl in Hn. apply andb_prop in Hn. destruct Hn as [Hb Hr].
  apply negb_true_iff in Hb.
  change ((b :: r) ++ l) with (b :: (r ++ l)).
  cbn [findAllTitles]. rewrite (matchTitleAt_not_ESC b (r ++ l) Hb).
  apply IH. exact Hr.
Qed.

Lemma findAllTitles_noESC (l : list Z) :
  noByte ESC l = true -> findAllTitles 0 l = [].
Proof.
  intros H. rewrite <- (app_nil_r l). rewrite findAllTitles_noESC_prefix by exact H.
  reflexivity.
Qed.

(** X10.  Output without an ESC byte triggers nothing: when neither the
    buffer nor the chunk holds the byte 0x1B, [DetectSequences] calls no
    handler method and only extends (and trims) the buffer. *)
Theorem no_escape_no_event :
  forall (H : Type) (handler : ScreenEventHandler H)
         (data : list Z) (h : H) (t : TerminalSequenceDetector),
    noByte ESC (buffer t ++ data) = true ->
    DetectSequences data (Some h) t =
    Done ({| buffer := lastBytes 512 (buffer t ++ data);
             focusReportingEnabled := focusReportingEnabled t |}, Some h).
Proof.
  intros H handler data h t Hn.
  unfold DetectSequences.
  set (buf := buffer t ++ data) in *.
  rewrite trim_lastBytes.
  assert (Hc1 : existsb (Contains buf) screenClearSequences = false).
  { unfold screenClearSequences. cbn [existsb app].
    rewrite !(Contains_noByte ESC) by exact Hn. reflexivity. }
  assert (Hc2 : existsb (Contains buf) statusInterferingSequences = false).
  { unfold statusInterferingSequences. cbn [existsb app].
    rewrite !(Contains_noByte ESC) by exact Hn. reflexivity. }
  rewrite Hc1. cbn [negb]. rewrite Hc2. cbn [negb].
  rewrite (detectBottomLineClear_noESC buf Hn). cbn [bind].
  unfold focusInSequence, focusOutSequence. cbn [app].
  rewrite !(Contains_noByte ESC) by exact Hn.
  rewrite (findAllTitles_noESC buf Hn). reflexivity.
Qed.

Lemma no_escape_no_event_witness :
  @DetectSequences _ Recorder (bs "plain text") (Some [])
    {| buffer := bs "earlier "; focusReportingEnabled := false |} =
  Done ({| buffer := lastBytes 512 (bs "earlier " ++ bs "plain text");
           focusReportingEnabled := false |}, Some []).
Proof.
  apply (no_escape_no_event (list ScreenEvent) Recorder (bs "plain text") []
           {| buffer := bs "earlier "; focusReportingEnabled := false |}).
  reflexivity.
Defined.

(** *** What stays in the buffer is reported again *)

Lemma HasPrefix_app (l d s : list Z) :
  HasPrefix l s = true -> HasPrefix (l ++ d) s = true.
Proof.
  revert l. induction s as [|c s IH]; intros l H;
    [destruct l; simpl; try destruct d; reflexivity|].
  destruct l as [|b r]; [discriminate H|].
  simpl in *. apply andb_prop in H. destruct H as [H1 H2].
  rewrite H1, (IH r H2). reflexivity.
Qed.

Lemma Contains_app (l d s : list Z) :
  Contains l s = true -> Contains (l ++ d) s = true.
Proof.
  induction l as [|b r IH]; intros H.
  - simpl in H. rewrite orb_false_r in H.
    destruct s; [destruct d; reflexivity|discriminate H].
  - cbn [Contains] in H. apply orb_prop in H.
    change ((b :: r) ++ d) with (b :: (r ++ d)). cbn [Contains].
    destruct H as [H|H].
    + pose proof (HasPrefix_app (b :: r) d s H) as Hp.
      change ((b :: r) ++ d) with (b :: (r ++ d)) in Hp. rewrite Hp. reflexivity.
    + rewrite (IH H). apply orb_true_r.
Qed.

Lemma existsb_Contains_app (l d : list Z) (seqs : list (list Z)) :
  existsb (Contains l) seqs = true -> existsb (Contains (l ++ d)) seqs = true.
Proof.
  induction seqs as [|s r IH]; simpl; [auto|].
  intros H. apply orb_prop in H. destruct H as [H|H].
  - rewrite (Contains_app l d s H). reflexivity.
  - rewrite (IH H). apply orb_true_r.
Qed.

(** X11.  The detector does not forget what it has reported: while a
    screen-clear or status-interfering sequence is in the buffer, every
    further call with a handler reports a screen clear, first of all
    events, whatever the chunk, the empty chunk included. *)
Theorem buffered_sequence_is_reported_again :
  forall (data : list Z) (t : TerminalSequenceDetector),
    existsb (Contains (buffer t)) (screenClearSequences ++ statusInterferingSequences) = true ->
    exists t' evs,
      @DetectSequences _ Recorder data (Some []) t = Done (t', Some (ScreenClear :: evs)).
Proof.
  intros data t Hc.
  apply (existsb_Contains_app (buffer t) data) in Hc.
  rewrite existsb_app in Hc.
  unfold DetectSequences. set (buf := buffer t ++ data) in *.
  assert (Hfc : (if negb (existsb (Contains buf) screenClearSequences)
                 then existsb (Contains buf) statusInterferingSequences
                 else existsb (Contains buf) screenClearSequences) = true).
  { destruct (existsb (Contains buf) screenClearSequences); simpl in *; auto. }
  rewrite Hfc. cbn [negb bind].
  destruct (Contains buf focusInSequence); destruct (Contains buf focusOutSequence);
    destruct (findAllTitles 0 buf); eexists; eexists; reflexivity.
Qed.

Lemma buffered_sequence_is_reported_again_witness :
  exists t' evs,
    @DetectSequences _ Recorder (bs "typing goes on") (Some [])
      {| buffer := bs "$ " ++ [ESC] ++ bs "[2J"; focusReportingEnabled := false |}
    = Done (t', Some (ScreenClear :: evs)).
Proof.
  apply (buffered_sequence_is_reported_again (bs "typing goes on")
           {| buffer := bs "$ " ++ [ESC] ++ bs "[2J"; focusReportingEnabled := false |}).
  reflexivity.
Defined.

(** *** Titles *)

Lemma titleBody_spec (title after : list Z) :
  forallb (fun b => negb ((b =? BEL) || (b =? ESC))) title = true ->
  (match after with
   | [] => True
   | c :: _ => ((c =? BEL) || (c =? ESC))%bool = true
   end) ->
  titleBody (title ++ after) = (title, after).
Proof.
  intros Ht Ha. induction title as [|b r IH]; cbn [app titleBody].
  - destruct after as [|c a]; [reflexivity|]. cbn [titleBody]. rewrite Ha. reflexivity.
  - cbn [forallb] in Ht. apply andb_prop in Ht. destruct Ht as [Hb Hr].
    apply negb_true_iff in Hb. rewrite Hb, (IH Hr). reflexivity.
Qed.

Lemma findAllTitles_skip :
  forall (a l : list Z), findAllTitles (length a) (a ++ l) = findAllTitles 0 l.
Proof.
  induction a as [|b r IH]; intros l; [reflexivity|].
  simpl. apply IH.
Qed.

Lemma matchTitleAt_sequence (d : Z) (title : list Z) (st : bool) (post : list Z) :
  isTitleKind d = true ->
  forallb (fun b => negb ((b =? BEL) || (b =? ESC))) title = true ->
  matchTitleAt (titleSequence d title st ++ post)
  = Some (title, length (titleSequence d title st)).
Proof.
  intros Hd Ht. unfold titleSequence, matchTitleAt. cbn [app].
  change (ESC =? ESC) with true. change (RBRACKET =? RBRACKET) with true.
  change (59 =? 59) with true. unfold isTitleKind in Hd. rewrite Hd. cbn [andb].
  rewrite <- app_assoc.
  rewrite titleBody_spec; [|exact Ht|destruct st; reflexivity].
  destruct st; cbn [app]; simpl; rewrite length_app; simpl;
    f_equal; f_equal; lia.
Qed.

Lemma Mock_titleChanges (data : list Z) (m m' : mockScreenEventHandler)
    (t t' : TerminalSequenceDetector) :
  DetectSequences data (Some m) t = Done (t', Some m') ->
  titleChanges m' =
  titleChanges m ++ match findAllTitles 0 (buffer t ++ data) with
                    | [] => []
                    | x :: xs => [last xs x]
                    end.
Proof.
  intros E. unfold DetectSequences in E.
  match type of E with
  | context [bind ?c _] => destruct c as [fc| |]; cbn [bind] in E; try discriminate E
  end.
  injection E as _ <-.
  destruct fc;
    destruct (Contains (buffer t ++ data) focusInSequence);
    destruct (Contains (buffer t ++ data) focusOutSequence);
    destruct (findAllTitles 0 (buffer t ++ data)); simpl;
    rewrite ?app_nil_r; reflexivity.
Qed.

(** X12.  A title written as an OSC sequence comes back as it was: for a
    chunk that holds no ESC byte outside one title sequence
    [ESC ] d ; title] with [d] one of 0, 1, 2, terminated by BEL or by
    ESC backslash, and a title free of BEL and ESC, a fresh detector calls
    [HandleTitleChange] once, with exactly the title. *)
Theorem title_round_trip :
  forall (pre post title : list Z) (d : Z) (st : bool),
    noByte ESC pre = true -> noByte ESC post = true ->
    isTitleKind d = true ->
    forallb (fun b => negb ((b =? BEL) || (b =? ESC))) title = true ->
    exists t' m,
      feed [pre ++ titleSequence d title st ++ post] newMock NewTerminalSequenceDetector
      = Done (t', m) /\
      titleChanges m = [title].
Proof.
  intros pre post title d st Hpre Hpost Hd Ht.
  assert (Hfind : findAllTitles 0 (pre ++ titleSequence d title st ++ post) = [title]).
  { rewrite findAllTitles_noESC_prefix by exact Hpre.
    remember (titleSequence d title st) as seq eqn:Eseq.
    assert (Hm : matchTitleAt (seq ++ post) = Some (title, length seq))
      by (subst seq; apply matchTitleAt_sequence; assumption).
    destruct seq as [|e rest] eqn:Es; [unfold titleSequence in Eseq; discriminate Eseq|].
    change ((e :: rest) ++ post) with (e :: (rest ++ post)) in *.
    cbn [findAllTitles]. rewrite Hm.
    replace (length (e :: rest) - 1)%nat with (length rest) by (simpl; lia).
    rewrite findAllTitles_skip, findAllTitles_noESC by exact Hpost. reflexivity. }
  destruct (DetectSequences_Some (pre ++ titleSequence d title st ++ post) newMock
              NewTerminalSequenceDetector) as [m E].
  cbn [feed]. rewrite E. cbn [bind fst snd].
  eexists. exists m. split; [reflexivity|].
  rewrite (Mock_titleChanges _ _ _ _ _ E). cbn [buffer NewTerminalSequenceDetector app].
  rewrite Hfind. reflexivity.
Qed.

Lemma title_round_trip_witness :
  exists t' m,
    feed [bs "ok " ++ titleSequence 50 (bs "Another Title") true ++ bs " done"]
         newMock NewTerminalSequenceDetector = Done (t', m) /\
    titleChanges m = [bs "Another Title"].
Proof.
  apply (title_round_trip (bs "ok ") (bs " done") (bs "Another Title") 50 true);
    reflexivity.
Defined.

(** *** The bottom-line heuristic *)

(** X13.  [detectBottomLineClear] stays within the slice on every input
    (its reads at [i+1], [k+1], [k+2] and [k+3] are all in range and its
    loops end), and it answers true whenever the data holds [ESC [ 0 J]
    or [ESC [ J]. *)
Theorem detectBottomLineClear_in_bounds :
  forall data : list Z,
    exists r : bool,
      detectBottomLineClear data = Done r /\
      (Contains data ([ESC] ++ bs "[0J") || Contains data ([ESC] ++ bs "[J") = true ->
       r = true).
Proof.
  intros data. unfold detectBottomLineClear.
  assert (Hloop : exists r,
             forReturn (length data) (fun i => i <? len data - 5)
               (cursorThenClearAt data) 0 = Done r).
  { apply forReturn_total with (hi := len data - 5).
    - intros j Hj. apply Z.ltb_lt in Hj. exact Hj.
    - intros j Hj Hc. apply Z.ltb_lt in Hc. apply cursorThenClearAt_total; lia.
    - unfold len. lia. }
  destruct Hloop as [r Hr]. rewrite Hr. cbn [bind].
  destruct r; [eauto|].
  destruct (Contains data ([ESC] ++ bs "[0J") || Contains data ([ESC] ++ bs "[J"))%bool;
    eexists; split; try reflexivity; auto.
Qed.

End DetectorMore.

(* ===================================================================== *)
(** ** More about the classifier *)
(* ===================================================================== *)

Module ClassifierMore.
Import Classifier Tokens SliceFacts ClassifierTokens DetectorVocab.

Lemma flatten_app (a b : list Token) : flatten (a ++ b) = flatten a ++ flatten b.
Proof. unfold flatten. rewrite map_app, concat_app. reflexivity. Qed.

Lemma existsb_split {A : Type} (f : A -> bool) (l : list A) :
  existsb f l = true -> exists l1 x l2, l = l1 ++ x :: l2 /\ f x = true.
Proof.
  intros H. apply existsb_exists in H. destruct H as [x [Hin Hx]].
  apply in_split in Hin. destruct Hin as [l1 [l2 ->]]. eauto.
Qed.

(** X14.  More output never hides what was visible: when a chunk is
    classified as visible, so is the chunk followed by any further bytes. *)
Theorem visible_stays_visible_when_extended :
  forall a b : list Z,
    containsVisibleContent a = Done true ->
    containsVisibleContent (a ++ b) = Done true.
Proof.
  intros a b Ha.
  destruct (every_slice_has_a_reading a) as [toks [cut [Hok [Hcut [Ea Hres]]]]].
  rewrite Ha in Hres. injection Hres as Hvis. symmetry in Hvis.
  destruct (existsb_split _ _ Hvis) as [t1 [v [t2 [-> Hv]]]].
  rewrite forallb_app in Hok. apply andb_prop in Hok. destruct Hok as [Hok1 Hok2].
  cbn [forallb] in Hok2. apply andb_prop in Hok2. destruct Hok2 as [Hokv _].
  destruct (reading_exists (length (flatten t2 ++ bytesOfTruncated cut ++ b))
              (flatten t2 ++ bytesOfTruncated cut ++ b) (le_n _))
    as [toks' [cut' [Hok' [Hcut' Er]]]].
  assert (E : a ++ b = flatten ((t1 ++ [v]) ++ toks') ++ bytesOfTruncated cut').
  { rewrite Ea, !flatten_app, <- !app_assoc. f_equal.
    change (flatten (v :: t2)) with (bytesOf v ++ flatten t2).
    change (flatten [v]) with (bytesOf v ++ []).
    rewrite <- !app_assoc. f_equal. simpl. rewrite <- Er. reflexivity. }
  unfold containsVisibleContent.
  rewrite (scan_tokens ((t1 ++ [v]) ++ toks') cut' [] (a ++ b) (length (a ++ b)) 0).
  - rewrite !existsb_app. cbn [existsb]. rewrite Hv.
    rewrite orb_true_r. reflexivity.
  - exact E.
  - reflexivity.
  - rewrite !forallb_app, Hok1, Hok'. cbn [forallb]. rewrite Hokv. reflexivity.
  - exact Hcut'.
  - rewrite <- E. lia.
Qed.

Lemma visible_stays_visible_when_extended_witness :
  containsVisibleContent (([ESC] ++ bs "[31mRed") ++ ([ESC] ++ bs "[0")) = Done true.
Proof.
  apply (visible_stays_visible_when_extended ([ESC] ++ bs "[31mRed") ([ESC] ++ bs "[0")).
  reflexivity.
Defined.

Lemma flatten_bytes (data : list Z) : flatten (map TokByte data) = data.
Proof.
  induction data as [|b r IH]; [reflexivity|].
  simpl. unfold flatten in *. simpl. rewrite IH. reflexivity.
Qed.

(** X15.  On output that holds neither ESC nor 0x9B the classifier looks
    at every byte: the result is true exactly when some byte is printable
    ASCII, newline, carriage return, tab or at least 0x80. *)
Theorem plain_bytes_are_all_examined :
  forall data : list Z,
    noByte ESC data = true -> noByte CSI8 data = true ->
    containsVisibleContent data = Done (existsb isVisibleByte data).
Proof.
  intros data He Hc. unfold containsVisibleContent.
  rewrite (scan_tokens (map TokByte data) CutNone [] data (length data) 0).
  - f_equal. induction data as [|b r IH]; [reflexivity|].
    simpl in *. apply andb_prop in He. apply andb_prop in Hc.
    rewrite IH; tauto.
  - simpl. rewrite app_nil_r, flatten_bytes. reflexivity.
  - reflexivity.
  - clear -He Hc. induction data as [|b r IH]; [reflexivity|].
    simpl in *. apply andb_prop in He. apply andb_prop in Hc.
    destruct He as [He1 He2]. destruct Hc as [Hc1 Hc2].
    apply negb_true_iff in He1, Hc1. rewrite He1, Hc1, IH by assumption. reflexivity.
  - reflexivity.
  - simpl. rewrite app_nil_r, flatten_bytes. lia.
Qed.

Lemma plain_bytes_are_all_examined_witness :
  containsVisibleContent [1; 2; BEL; 65] = Done (existsb isVisibleByte [1; 2; BEL; 65]).
Proof.
  apply (plain_bytes_are_all_examined [1; 2; BEL; 65]); reflexivity.
Defined.

End ClassifierMore.

(* ===================================================================== *)
(** ** More about the output monitor and the terminal state *)
(* ===================================================================== *)

Module MonitorMore.
Import Monitor MonitorVocab MonitorProps SliceFacts.

(** The monitor a line loop ends with is the one it started with after
    [processLine] on each line it passed, in order. *)
Lemma lineLoop_fold (buffer : list Z) :
  forall (fuel : nat) (i start : Z) (st : OutputMonitor * list (list Z))
         (r : Z * (OutputMonitor * list (list Z))),
    lineLoop buffer fuel i start st = Done r ->
    exists new : list (list Z),
      snd (snd r) = snd st ++ new /\
      fst (snd r) = fold_left (fun o l => processLine l o) new (fst st).
Proof.
  induction fuel as [|fuel IH]; intros i start st r E; simpl in E.
  - destruct (i <? len buffer); [discriminate E|].
    injection E as <-. exists []. simpl. rewrite app_nil_r. auto.
  - destruct (i <? len buffer).
    + destruct (index buffer i) as [b| |]; cbn [bind] in E; try discriminate E.
      destruct (b =? LF).
      * destruct (slice buffer start i) as [line| |]; cbn [bind] in E; try discriminate E.
        destruct (IH _ _ _ _ E) as [new [H1 H2]]. cbn [fst snd] in H1, H2.
        exists (line :: new). rewrite H1, H2, <- app_assoc. auto.
      * apply (IH _ _ _ _ E).
    + injection E as <-. exists []. simpl. rewrite app_nil_r. auto.
Qed.

(** [processLine] over lines, seen from a backstop notifier: one
    [SetBackstopSent(true)] per line with a bell. *)
Lemma processLines_backstop :
  forall (calls : list (list Z)) (om : OutputMonitor) (bn : Backstop.BackstopNotifier) (now : Z),
    notifier om = IsBackstop bn ->
    notifier (fold_left (fun o l => processLine l o) calls om)
    = IsBackstop (Backstop.run
                    (map (fun _ => (now, Backstop.EvSetBackstopSent true))
                         (filter hasBell calls)) bn).
Proof.
  induction calls as [|l rest IH]; intros om bn now Hn; [exact Hn|].
  cbn [fold_left filter]. unfold hasBell at 1.
  destruct (Detector.Contains l [BEL]) eqn:Eb.
  - cbn [map Backstop.run Backstop.step].
    apply IH. unfold processLine, ifBackstop. rewrite Eb, Hn. reflexivity.
  - apply IH. unfold processLine. rewrite Eb. exact Hn.
Qed.

Lemma processLines_sendOnly :
  forall (calls : list (list Z)) (om : OutputMonitor) (s : list Backstop.Notification),
    notifier om = SendOnly s ->
    notifier (fold_left (fun o l => processLine l o) calls om) = SendOnly s.
Proof.
  induction calls as [|l rest IH]; intros om s Hn; [exact Hn|].
  cbn [fold_left]. apply IH. unfold processLine, ifBackstop.
  destruct (Detector.Contains l [BEL]); [rewrite Hn|]; auto.
Qed.

Lemma processLines_fields :
  forall (cs : list (list Z)) (o : OutputMonitor),
    lastOutputTime (fold_left (fun o l => processLine l o) cs o) = lastOutputTime o /\
    sequenceDetector (fold_left (fun o l => processLine l o) cs o) = sequenceDetector o /\
    terminalState (fold_left (fun o l => processLine l o) cs o) = terminalState o.
Proof.
  induction cs as [|c cs IHc]; intros o; [auto|].
  cbn [fold_left]. destruct (IHc (processLine c o)) as [A [B C]].
  rewrite A, B, C. unfold processLine, ifBackstop.
  destruct (Detector.Contains c [BEL]); [destruct (notifier o)|]; auto.
Qed.

(** What [processLine] does to the notifier depends on the notifier only. *)
Lemma processLines_notifier :
  forall (cs : list (list Z)) (o o' : OutputMonitor),
    notifier o = notifier o' ->
    notifier (fold_left (fun o l => processLine l o) cs o)
    = notifier (fold_left (fun o l => processLine l o) cs o').
Proof.
  induction cs as [|c cs IHc]; intros o o' E; [exact E|].
  cbn [fold_left]. apply IHc. unfold processLine, ifBackstop.
  destruct (Detector.Contains c [BEL]); [|exact E].
  rewrite E. destruct (notifier o') eqn:E'; simpl; congruence.
Qed.

(** The part of [HandleData] after the detector: time stamp, activity
    mark, line loop, remainder. *)
Lemma HandleData_after_detector (data : list Z) (now : Z) (om : OutputMonitor)
    (t' : Detector.TerminalSequenceDetector) (h' : OutputMonitor) :
  @Detector.DetectSequences _ (asHandler now) data (Some om) (sequenceDetector om)
  = Done (t', Some h') ->
  exists (om' : OutputMonitor) (calls : list (list Z)) (visible : bool),
    HandleData data now om = Done (om', calls) /\
    Classifier.containsVisibleContent data = Done visible /\
    lastOutputTime om' = now /\
    sequenceDetector om' = t' /\
    terminalState om' = terminalState h' /\
    notifier om' =
    notifier (fold_left (fun o l => processLine l o) calls
                (if visible then ifBackstop (Backstop.MarkActivity now) h' else h')).
Proof.
  intros E.
  destruct (HandleData_spec data now om) as [om' [calls [EH _]]].
  exists om', calls.
  destruct (ClassifierTotal.containsVisibleContent_Done data) as [visible Ev].
  exists visible. split; [exact EH|]. split; [exact Ev|].
  unfold HandleData in EH. rewrite E in EH. cbn [bind fst snd] in EH.
  rewrite Ev in EH. cbn [bind] in EH.
  match type of EH with
  | context [lineLoop ?b ?f 0 0 ?s] =>
      destruct (lineLoop b f 0 0 s) as [r| |] eqn:El; cbn [bind] in EH;
        try discriminate EH;
      destruct (lineLoop_fold _ _ _ _ _ _ El) as [new [H1 H2]]
  end.
  cbn [fst snd app] in H1, H2.
  assert (Hfin : lastOutputTime (fst (snd r)) = now /\
                 sequenceDetector (fst (snd r)) = t' /\
                 terminalState (fst (snd r)) = terminalState h' /\
                 notifier (fst (snd r)) =
                 notifier (fold_left (fun o l => processLine l o) (snd (snd r))
                             (if visible then ifBackstop (Backstop.MarkActivity now) h'
                              else h'))).
  { rewrite H1, H2.
    match goal with
    | |- context [fold_left _ new ?o] => destruct (processLines_fields new o) as [A [B C]]
    end.
    rewrite A, B, C.
    split; [|split; [|split]].
    - destruct visible; unfold ifBackstop; simpl; destruct (notifier h'); reflexivity.
    - destruct visible; unfold ifBackstop; simpl; destruct (notifier h'); reflexivity.
    - destruct visible; unfold ifBackstop; simpl; destruct (notifier h'); reflexivity.
    - apply processLines_notifier.
      destruct visible; unfold ifBackstop; simpl; destruct (notifier h'); reflexivity. }
  destruct Hfin as [A [B [C D]]].
  destruct (fst r <? len _) in EH.
  - destruct (slice _ _ _) as [rest| |] in EH; cbn [bind] in EH; try discriminate EH.
    injection EH as <- <-. simpl. auto.
  - injection EH as <- <-. auto.
Qed.

Lemma SetFocused_focused (v : bool) (now : Z) (ts : TermState.TerminalState) :
  TermState.focused (TermState.SetFocused v now ts) = v.
Proof.
  unfold TermState.SetFocused.
  destruct (TermState.focused ts) eqn:E, v; simpl; auto.
Qed.

Lemma SetFocused_title (v : bool) (now : Z) (ts : TermState.TerminalState) :
  TermState.title (TermState.SetFocused v now ts) = TermState.title ts.
Proof.
  unfold TermState.SetFocused.
  destruct (negb _); reflexivity.
Qed.

(** The handler half of a [HandleData] call: the notifier and the terminal
    state after the detector has reported its events to the monitor. *)
Lemma asHandler_events (now : Z) (clear fi fo : bool) (ti : option (list Z))
    (om : OutputMonitor) :
  let h' := @fold_left _ _ (@DetectorVocab.notify _ (asHandler now))
              (DetectorVocab.eventsOfCall clear fi fo ti) om in
  notifier h' = notifier (if clear then HandleScreenClear now om else om) /\
  TermState.title (terminalState h') =
    match ti with Some x => x | None => TermState.title (terminalState om) end /\
  TermState.focused (terminalState h') =
    (if fo then false else if fi then true else TermState.focused (terminalState om)).
Proof.
  cbv zeta.
  assert (Hc : terminalState (HandleScreenClear now om) = terminalState om)
    by (unfold HandleScreenClear, ifBackstop; destruct (notifier om); reflexivity).
  destruct clear, fi, fo, ti as [x|];
    cbn [DetectorVocab.eventsOfCall app fold_left DetectorVocab.notify asHandler
         Detector.HandleScreenClear Detector.HandleTitleChange
         Detector.HandleFocusIn Detector.HandleFocusOut
         HandleTitleChange HandleFocusIn HandleFocusOut set_terminalState
         notifier terminalState TermState.SetTitle TermState.title TermState.focused];
    rewrite ?Hc;
    (split; [reflexivity|]);
    rewrite ?SetFocused_focused, ?SetFocused_title; auto.
Qed.

Lemma existsb_isScreenClear (clear fi fo : bool) (ti : option (list Z)) :
  existsb isScreenClear (DetectorVocab.eventsOfCall clear fi fo ti) = clear.
Proof. destruct clear, fi, fo, ti; reflexivity. Qed.

(** One [HandleData] call, decomposed. *)
Lemma HandleData_decomposed (data : list Z) (now : Z) (om : OutputMonitor) :
  exists (om' : OutputMonitor) (calls : list (list Z)) (visible clear : bool)
         (t' : Detector.TerminalSequenceDetector) (evs : list Detector.ScreenEvent),
    HandleData data now om = Done (om', calls) /\
    Classifier.containsVisibleContent data = Done visible /\
    @Detector.DetectSequences _ Detector.Recorder data (Some []) (sequenceDetector om)
    = Done (t', Some evs) /\
    existsb isScreenClear evs = clear /\
    lastOutputTime om' = now /\
    sequenceDetector om' = t' /\
    notifier om' =
      notifier (fold_left (fun o l => processLine l o) calls
                  (let o := if clear then HandleScreenClear now om else om in
                   if visible then ifBackstop (Backstop.MarkActivity now) o else o)) /\
    TermState.title (terminalState om') =
      match lastTitle (Detector.buffer (sequenceDetector om) ++ data) with
      | Some x => x
      | None => TermState.title (terminalState om)
      end /\
    TermState.focused (terminalState om') =
      (if Detector.Contains (Detector.buffer (sequenceDetector om) ++ data)
            Detector.focusOutSequence then false
       else if Detector.Contains (Detector.buffer (sequenceDetector om) ++ data)
                 Detector.focusInSequence then true
       else TermState.focused (terminalState om)).
Proof.
  destruct (DetectorMore.DetectSequences_events_of_window OutputMonitor (asHandler now)
              data om (sequenceDetector om)) as [t' [clear [E1 E2]]].
  cbv zeta in E1, E2.
  destruct (HandleData_after_detector data now om t' _ E2)
    as [om' [calls [visible [EH [Ev [Ht [Hs [Hts Hn]]]]]]]].
  match type of E2 with
  | context [DetectorVocab.eventsOfCall ?c ?fi ?fo ?ti] =>
      destruct (asHandler_events now c fi fo ti om) as [An [At Af]]
  end.
  cbv zeta in An, At, Af.
  exists om', calls, visible, clear, t'. eexists.
  split; [exact EH|]. split; [exact Ev|]. split; [exact E1|].
  split; [apply existsb_isScreenClear|].
  split; [exact Ht|]. split; [exact Hs|].
  split; [|split].
  - rewrite Hn. apply processLines_notifier.
    destruct visible; [|exact An].
    unfold ifBackstop. rewrite An.
    destruct (notifier (if clear then HandleScreenClear now om else om)) eqn:E';
      simpl; congruence.
  - rewrite Hts, At. unfold lastTitle.
    destruct (Detector.findAllTitles 0 _); reflexivity.
  - rewrite Hts, Af. reflexivity.
Qed.

(** *** The monitor as a driver of the backstop engine *)

(** X16.  On a backstop notifier, one [HandleData] call acts on the
    engine as this sequence of calls, all at the time of the call: a
    session reset if the detector reports a screen clear, then an activity
    mark if the chunk has visible content, then one [SetBackstopSent(true)]
    for each completed line that holds a bell. *)
Theorem HandleData_drives_engine :
  forall (data : list Z) (now : Z) (om : OutputMonitor) (bn : Backstop.BackstopNotifier),
    notifier om = IsBackstop bn ->
    exists (om' : OutputMonitor) (calls : list (list Z)) (visible : bool)
           (t' : Detector.TerminalSequenceDetector) (evs : list Detector.ScreenEvent),
      HandleData data now om = Done (om', calls) /\
      Classifier.containsVisibleContent data = Done visible /\
      @Detector.DetectSequences _ Detector.Recorder data (Some []) (sequenceDetector om)
      = Done (t', Some evs) /\
      notifier om' =
        IsBackstop (Backstop.run
                      (engineEvents now (existsb isScreenClear evs) visible calls) bn).
Proof.
  intros data now om bn Hbn.
  destruct (HandleData_decomposed data now om)
    as [om' [calls [visible [clear [t' [evs [EH [Ev [Er [Hc [_ [_ [Hn _]]]]]]]]]]]]].
  exists om', calls, visible, t', evs.
  split; [exact EH|]. split; [exact Ev|]. split; [exact Er|].
  rewrite Hn, Hc. unfold engineEvents.
  rewrite !BackstopProps.run_app.
  apply processLines_backstop.
  unfold HandleScreenClear, ifBackstop.
  destruct clear, visible; cbn [app Backstop.run Backstop.step];
    rewrite ?Hbn; cbn [notifier set_notifier]; rewrite ?Hbn; reflexivity.
Qed.

Lemma HandleData_drives_engine_witness :
  exists (om' : OutputMonitor) (calls : list (list Z)) (visible : bool)
         (t' : Detector.TerminalSequenceDetector) (evs : list Detector.ScreenEvent),
    HandleData ([ESC] ++ bs "[2Jdone" ++ [BEL; LF] ++ bs "next") 5 monitor30
    = Done (om', calls) /\
    Classifier.containsVisibleContent ([ESC] ++ bs "[2Jdone" ++ [BEL; LF] ++ bs "next")
    = Done visible /\
    @Detector.DetectSequences _ Detector.Recorder
      ([ESC] ++ bs "[2Jdone" ++ [BEL; LF] ++ bs "next") (Some [])
      (sequenceDetector monitor30) = Done (t', Some evs) /\
    notifier om' =
      IsBackstop (Backstop.run
                    (engineEvents 5 (existsb isScreenClear evs) visible calls)
                    (Backstop.NewBackstopNotifier 30 0)).
Proof.
  apply (HandleData_drives_engine ([ESC] ++ bs "[2Jdone" ++ [BEL; LF] ++ bs "next") 5
           monitor30 (Backstop.NewBackstopNotifier 30 0)).
  reflexivity.
Defined.

(** X17.  The monitor never sends: whatever the chunk and whatever the
    notifier, [HandleData] returns, stamps the time of the call, and leaves
    the notifications handed to the notifier as they were.  Notifications
    come from the timer callback only. *)
Theorem HandleData_never_sends :
  forall (data : list Z) (now : Z) (om : OutputMonitor),
    exists (om' : OutputMonitor) (calls : list (list Z)),
      HandleData data now om = Done (om', calls) /\
      lastOutputTime om' = now /\
      notifications (notifier om') = notifications (notifier om).
Proof.
  intros data now om.
  destruct (HandleData_decomposed data now om)
    as [om' [calls [visible [clear [t' [evs [EH [Ev [Er [Hc [Ht [_ [Hn _]]]]]]]]]]]]].
  exists om', calls. split; [exact EH|]. split; [exact Ht|].
  rewrite Hn. cbv zeta.
  destruct (notifier om) as [bn|sent] eqn:Hbn.
  - rewrite (processLines_backstop calls _
               (Backstop.run ((if clear then [(now, Backstop.EvResetSession)] else []) ++
                              (if visible then [(now, Backstop.EvMarkActivity)] else [])) bn)
               now).
    + cbn [notifications]. rewrite <- BackstopProps.run_app.
      assert (Hrun : forall (tr : list (Z * Backstop.Event)) (b : Backstop.BackstopNotifier),
                 forallb (fun e => match snd e with
                                   | Backstop.EvResetSession | Backstop.EvMarkActivity
                                   | Backstop.EvSetBackstopSent _ => true
                                   | _ => false
                                   end) tr = true ->
                 Backstop.underlying (Backstop.run tr b) = Backstop.underlying b).
      { induction tr as [|[n e] tr IH]; intros b Hall; [reflexivity|].
        simpl in Hall. apply andb_prop in Hall. destruct Hall as [He Hall].
        cbn [Backstop.run]. rewrite (IH _ Hall).
        apply BackstopMore.monitor_call_underlying. exact He. }
      rewrite Hrun; [reflexivity|].
      rewrite !forallb_app. destruct clear, visible; simpl;
        induction (filter hasBell calls) as [|c cs IHc]; simpl; auto.
    + unfold HandleScreenClear, ifBackstop.
      destruct clear, visible; cbn [app Backstop.run Backstop.step];
        rewrite ?Hbn; cbn [notifier set_notifier]; rewrite ?Hbn; reflexivity.
  - rewrite (processLines_sendOnly calls _ sent); [reflexivity|].
    unfold HandleScreenClear, ifBackstop.
    destruct clear, visible; rewrite ?Hbn; cbn [notifier]; rewrite ?Hbn; reflexivity.
Qed.

Lemma bell_step (bn : Backstop.BackstopNotifier) :
  Backstop.wellFormed bn ->
  Backstop.backstopSent (Backstop.SetBackstopSent true bn) = true /\
  Backstop.noPending (Backstop.SetBackstopSent true bn) /\
  Backstop.wellFormed (Backstop.SetBackstopSent true bn).
Proof.
  intros Hwf.
  assert (Hwf1 : Backstop.wellFormed (Backstop.set_backstopSent true bn))
    by (eapply BackstopProps.wellFormed_ext; [| | |exact Hwf]; reflexivity).
  unfold Backstop.SetBackstopSent. cbv zeta. cbn [negb].
  split; [rewrite BackstopProps.stopIfSet_sent; reflexivity|].
  split; [apply BackstopProps.stopIfSet_noPending; exact Hwf1|].
  apply (BackstopProps.step_wellFormed 0 (Backstop.EvSetBackstopSent true) bn Hwf).
Qed.

Lemma bells_run (now : Z) :
  forall (lines : list (list Z)) (bn : Backstop.BackstopNotifier),
    Backstop.wellFormed bn ->
    lines <> [] ->
    let bn' := Backstop.run (map (fun _ => (now, Backstop.EvSetBackstopSent true)) lines) bn in
    Backstop.backstopSent bn' = true /\ Backstop.noPending bn'.
Proof.
  induction lines as [|l rest IH]; intros bn Hwf Hne; [congruence|].
  cbn [map Backstop.run Backstop.step].
  destruct (bell_step bn Hwf) as [Hs [Hp Hw]].
  destruct rest as [|l' rest]; [simpl; auto|].
  apply IH; [exact Hw|discriminate].
Qed.

(** X21.  Within one chunk the bell has the last word: when a completed
    line of the chunk holds a bell, [HandleData] on a backstop notifier
    ends with [backstopSent] set and no timer pending, also when the same
    chunk has visible content or clears the screen, which re-arm the timer
    earlier in the call. *)
Theorem bell_in_chunk_has_last_word :
  forall (data : list Z) (now : Z) (om : OutputMonitor) (bn : Backstop.BackstopNotifier),
    notifier om = IsBackstop bn ->
    Backstop.wellFormed bn ->
    exists (om' : OutputMonitor) (calls : list (list Z)) (bn' : Backstop.BackstopNotifier),
      HandleData data now om = Done (om', calls) /\
      notifier om' = IsBackstop bn' /\
      (existsb hasBell calls = true ->
       Backstop.backstopSent bn' = true /\ Backstop.noPending bn').
Proof.
  intros data now om bn Hbn Hwf.
  destruct (HandleData_decomposed data now om)
    as [om' [calls [visible [clear [t' [evs [EH [Ev [Er [Hc [_ [_ [Hn _]]]]]]]]]]]]].
  set (bn0 := Backstop.run ((if clear then [(now, Backstop.EvResetSession)] else []) ++
                            (if visible then [(now, Backstop.EvMarkActivity)] else [])) bn).
  assert (Hn' : notifier om' =
                IsBackstop (Backstop.run
                              (map (fun _ => (now, Backstop.EvSetBackstopSent true))
                                   (filter hasBell calls)) bn0)).
  { rewrite Hn. apply processLines_backstop.
    unfold bn0, HandleScreenClear, ifBackstop. cbv zeta.
    destruct clear, visible; cbn [app Backstop.run Backstop.step];
      rewrite ?Hbn; cbn [notifier set_notifier]; rewrite ?Hbn; reflexivity. }
  exists om', calls. eexists. split; [exact EH|]. split; [exact Hn'|].
  intros Hb. apply bells_run.
  - apply BackstopProps.run_wellFormed. exact Hwf.
  - intros Hnil. rewrite existsb_exists in Hb. destruct Hb as [l [Hin Hl]].
    assert (Hf : In l (filter hasBell calls)) by (apply filter_In; auto).
    rewrite Hnil in Hf. exact Hf.
Qed.

Lemma bell_in_chunk_has_last_word_witness :
  exists (om' : OutputMonitor) (calls : list (list Z)) (bn' : Backstop.BackstopNotifier),
    HandleData ([ESC] ++ bs "[2Jding" ++ [BEL; LF] ++ bs "more") 5 monitor30
    = Done (om', calls) /\
    notifier om' = IsBackstop bn' /\
    existsb hasBell calls = true /\
    Backstop.backstopSent bn' = true /\ Backstop.noPending bn'.
Proof.
  assert (Hwf : Backstop.wellFormed (Backstop.NewBackstopNotifier 30 0)).
  { unfold Backstop.wellFormed, Backstop.timerPending. simpl.
    split; [|split].
    - intros [|k]; simpl; intros H; try discriminate H; [reflexivity|].
      destruct k; discriminate H.
    - intros k Hk. injection Hk as <-. simpl. lia.
    - intros _. lia. }
  destruct (bell_in_chunk_has_last_word ([ESC] ++ bs "[2Jding" ++ [BEL; LF] ++ bs "more") 5
              monitor30 (Backstop.NewBackstopNotifier 30 0) eq_refl Hwf)
    as [om' [calls [bn' [EH [Hn Himp]]]]].
  exists om', calls, bn'. split; [exact EH|]. split; [exact Hn|].
  assert (Hb : existsb hasBell calls = true).
  { vm_compute in EH. injection EH as _ <-. reflexivity. }
  split; [exact Hb|exact (Himp Hb)].
Defined.

(** *** The terminal state the monitor keeps *)

(** X18.  After [HandleData] the terminal title is the title of the last
    title sequence in the detector's window (what it had buffered, then the
    chunk); without one the title stays. *)
Theorem HandleData_title :
  forall (data : list Z) (now : Z) (om : OutputMonitor),
    exists (om' : OutputMonitor) (calls : list (list Z)),
      HandleData data now om = Done (om', calls) /\
      GetTerminalTitle om' =
        match lastTitle (Detector.buffer (sequenceDetector om) ++ data) with
        | Some x => x
        | None => GetTerminalTitle om
        end.
Proof.
  intros data now om.
  destruct (HandleData_decomposed data now om)
    as [om' [calls [visible [clear [t' [evs [EH [_ [_ [_ [_ [_ [_ [Ht _]]]]]]]]]]]]]].
  exists om', calls. split; [exact EH|exact Ht].
Qed.

(** X19.  Focus-out wins: when the detector's window holds a focus-out
    sequence the terminal is unfocused after [HandleData], also when a
    focus-in sequence follows it in the window; with a focus-in sequence
    only it is focused; with neither the focus stays. *)
Theorem HandleData_focus :
  forall (data : list Z) (now : Z) (om : OutputMonitor),
    exists (om' : OutputMonitor) (calls : list (list Z)),
      HandleData data now om = Done (om', calls) /\
      TermState.IsFocused (terminalState om') =
        (if Detector.Contains (Detector.buffer (sequenceDetector om) ++ data)
              Detector.focusOutSequence then false
         else if Detector.Contains (Detector.buffer (sequenceDetector om) ++ data)
                   Detector.focusInSequence then true
         else TermState.IsFocused (terminalState om)).
Proof.
  intros data now om.
  destruct (HandleData_decomposed data now om)
    as [om' [calls [visible [clear [t' [evs [EH [_ [_ [_ [_ [_ [_ [_ Hf]]]]]]]]]]]]]].
  exists om', calls. split; [exact EH|exact Hf].
Qed.

(** *** [HandleLine] *)

(** X20.  [HandleLine] completes the pending line: with a line and a line
    buffer free of newlines, [processLine] is called once, on the buffer
    followed by the line, and the buffer is empty afterwards. *)
Theorem HandleLine_completes_pending_line :
  forall (line : list Z) (now : Z) (om : OutputMonitor),
    noLF line = true ->
    noLF (lineBuffer om) = true ->
    exists om' : OutputMonitor,
      HandleLine line now om = Done (om', [lineBuffer om ++ line]) /\
      lineBuffer om' = [].
Proof.
  intros line now om Hl Hb. unfold HandleLine.
  destruct (HandleData_spec (line ++ [LF]) now om) as [om' [calls [EH [Hc [Hr Hj]]]]].
  destruct (line_cut_unique [lineBuffer om ++ line] calls [] (lineBuffer om'))
    as [Ec Er].
  - simpl. rewrite noLF_app, Hl, Hb. reflexivity.
  - exact Hc.
  - reflexivity.
  - exact Hr.
  - rewrite <- Hj. unfold joinLines. simpl. rewrite !app_nil_r, <- !app_assoc. reflexivity.
  - exists om'. rewrite EH, <- Ec, <- Er. auto.
Qed.

Lemma HandleLine_completes_pending_line_witness :
  exists om' : OutputMonitor,
    HandleLine (bs "world") 3 (set_lineBuffer (bs "hello ") monitor30)
    = Done (om', [lineBuffer (set_lineBuffer (bs "hello ") monitor30) ++ bs "world"]) /\
    lineBuffer om' = [].
Proof.
  apply (HandleLine_completes_pending_line (bs "world") 3
           (set_lineBuffer (bs "hello ") monitor30)); reflexivity.
Defined.

End MonitorMore.

(* ===================================================================== *)
(** ** The command line and the child environment *)
(* ===================================================================== *)

Module MainProps.
Import Main.

Lemma Merge_left_app {A : Type} (x : list A) :
  forall a b l : list A, Merge a b l -> Merge (x ++ a) b (x ++ l).
Proof.
  induction x as [|y x IH]; intros a b l H; simpl; [exact H|].
  apply MergeLeft. apply IH. exact H.
Qed.

Lemma Merge_In_right {A : Type} (a b l : list A) :
  Merge a b l -> forall x, In x b -> In x l.
Proof.
  induction 1 as [|y a b l H IH|y a b l H IH]; intros x Hx; simpl in *; auto.
  destruct Hx as [->|Hx]; auto.
Qed.

Lemma Merge_length {A : Type} (a b l : list A) :
  Merge a b l -> (length l = length a + length b)%nat.
Proof.
  induction 1; simpl; lia.
Qed.

(** The loop, from any point on: what it adds to the two lists. *)
Lemma splitArgs_spec :
  forall (n : nat) (args ourArgs geminiArgs : list string),
    (length args <= n)%nat ->
    exists ours gemini : list string,
      splitArgs args ourArgs geminiArgs = (ourArgs ++ ours, geminiArgs ++ gemini) /\
      Merge ours gemini args /\
      forallb notOwn gemini = true.
Proof.
  induction n as [|n IH]; intros args o g Hlen.
  - destruct args; [|simpl in Hlen; lia].
    exists [], []. simpl. rewrite !app_nil_r. repeat split. constructor.
  - destruct args as [|arg rest].
    { exists [], []. simpl. rewrite !app_nil_r. repeat split. constructor. }
    simpl in Hlen. cbn [splitArgs].
    destruct (isConfigFlag arg) eqn:Ec.
    { destruct rest as [|next rest'].
      - exists [arg], []. simpl. repeat split. rewrite app_nil_r. reflexivity.
        repeat constructor.
      - destruct (negb (HasPrefix next "-")).
        + destruct (IH rest' ((o ++ [arg]) ++ [next]) g) as [o' [g' [E [M F]]]];
            [simpl in Hlen; lia|].
          exists (arg :: next :: o'), g'. rewrite E, <- !app_assoc. simpl.
          repeat split; [|exact F]. apply MergeLeft, MergeLeft, M.
        + destruct (IH (next :: rest') (o ++ [arg]) g) as [o' [g' [E [M F]]]];
            [simpl in *; lia|].
          exists (arg :: o'), g'. rewrite E, <- !app_assoc. simpl.
          repeat split; [|exact F]. apply MergeLeft, M. }
    destruct (isQuietFlag arg) eqn:Eq.
    { destruct (IH rest (o ++ [arg]) g) as [o' [g' [E [M F]]]]; [lia|].
      exists (arg :: o'), g'. rewrite E, <- !app_assoc. simpl.
      repeat split; [|exact F]. apply MergeLeft, M. }
    destruct (isHelpFlag arg) eqn:Eh.
    { destruct (IH rest (o ++ [arg]) g) as [o' [g' [E [M F]]]]; [lia|].
      exists (arg :: o'), g'. rewrite E, <- !app_assoc. simpl.
      repeat split; [|exact F]. apply MergeLeft, M. }
    destruct (isConfigAssignment arg) eqn:Ea.
    { destruct (IH rest (o ++ [arg]) g) as [o' [g' [E [M F]]]]; [lia|].
      exists (arg :: o'), g'. rewrite E, <- !app_assoc. simpl.
      repeat split; [|exact F]. apply MergeLeft, M. }
    destruct (IH rest o (g ++ [arg])) as [o' [g' [E [M F]]]]; [lia|].
    exists o', (arg :: g'). rewrite E, <- !app_assoc. simpl.
    repeat split; [apply MergeRight, M|].
    unfold notOwn at 1, isOwnFlag. rewrite Ec, Eq, Eh, Ea. exact F.
Qed.

(** Words that are none of the wrapper's flags all go to Gemini. *)
Lemma splitArgs_passes :
  forall args ourArgs geminiArgs : list string,
    forallb notOwn args = true ->
    splitArgs args ourArgs geminiArgs = (ourArgs, geminiArgs ++ args).
Proof.
  induction args as [|arg rest IH]; intros o g H.
  - simpl. rewrite app_nil_r. reflexivity.
  - simpl in H. apply andb_prop in H. destruct H as [Ha Hr].
    unfold notOwn, isOwnFlag in Ha. apply negb_true_iff in Ha.
    apply orb_false_iff in Ha. destruct Ha as [Ha Ea].
    apply orb_false_iff in Ha. destruct Ha as [Ha Eh].
    apply orb_false_iff in Ha. destruct Ha as [Ec Eq].
    cbn [splitArgs]. rewrite Ec, Eq, Eh, Ea, (IH _ _ Hr), <- app_assoc. reflexivity.
Qed.

(** X22.  The loop loses nothing and reorders nothing: the command line
    after the program name is the wrapper's arguments and Gemini's
    arguments interleaved, each list in the order of the command line. *)
Theorem args_are_split_in_order :
  forall args : list string,
    Merge (fst (splitArgs args [] [])) (snd (splitArgs args [] [])) args.
Proof.
  intros args.
  destruct (splitArgs_spec (length args) args [] [] (le_n _)) as [o [g [E [M _]]]].
  rewrite E. exact M.
Qed.

(** X23.  None of the wrapper's own flags reaches Gemini, and the split is
    stable: run on Gemini's arguments again, the loop takes nothing from
    them. *)
Theorem gemini_args_hold_no_own_flag :
  forall args : list string,
    forallb (fun a => negb (isOwnFlag a)) (snd (splitArgs args [] [])) = true /\
    splitArgs (snd (splitArgs args [] [])) [] [] = ([], snd (splitArgs args [] [])).
Proof.
  intros args.
  destruct (splitArgs_spec (length args) args [] [] (le_n _)) as [o [g [E [_ F]]]].
  rewrite E. cbn [snd app]. split; [exact F|].
  apply (splitArgs_passes g [] [] F).
Qed.

Lemma helpLoop_true (all : list string) :
  forall rest : list string,
    helpLoop all rest = true -> existsb countsAsGeminiArg all = false.
Proof.
  induction rest as [|arg rest IH]; intros H; simpl in H; [discriminate H|].
  destruct (isHelpWord arg); [|exact (IH H)].
  destruct (existsb countsAsGeminiArg all); [exact (IH H)|reflexivity].
Qed.

Lemma existsb_false_In {A : Type} (f : A -> bool) (l : list A) :
  existsb f l = false -> forall x, In x l -> f x = false.
Proof.
  intros H x Hx. destruct (f x) eqn:E; [|reflexivity].
  rewrite <- H. symmetry. apply existsb_exists. eauto.
Qed.

(** X24.  When [main] prints its own usage and exits, it keeps nothing
    from Gemini but words the early check takes for the wrapper's: every
    argument the loop had set aside for Gemini is [-h] or starts with
    [--config] or [-config]. *)
Theorem usage_only_without_gemini_args :
  forall args : list string,
    showsUsage args = true ->
    forallb (fun a => String.eqb a "-h" || HasPrefix a "--config" || HasPrefix a "-config")
            (snd (splitArgs args [] [])) = true.
Proof.
  intros args Hu.
  pose proof (helpLoop_true args args Hu) as Hnone.
  destruct (splitArgs_spec (length args) args [] [] (le_n _)) as [o [g [E [M F]]]].
  rewrite E. cbn [snd app].
  apply forallb_forall. intros a Ha.
  pose proof (existsb_false_In _ _ Hnone a (Merge_In_right _ _ _ M a Ha)) as Hc.
  rewrite forallb_forall in F. specialize (F a Ha).
  unfold notOwn, isOwnFlag, isConfigFlag, isQuietFlag, isHelpFlag in F.
  unfold countsAsGeminiArg in Hc.
  destruct (String.eqb a "-h"); [reflexivity|].
  destruct (HasPrefix a "--config"); [reflexivity|].
  destruct (HasPrefix a "-config"); [reflexivity|].
  destruct (String.eqb a "-help"), (String.eqb a "--help"),
    (String.eqb a "--quiet"), (String.eqb a "-quiet");
    simpl in Hc; try discriminate Hc;
    destruct (String.eqb a "--config"), (String.eqb a "-config");
    simpl in F; discriminate F.
Qed.

Lemma usage_only_without_gemini_args_witness :
  showsUsage ["--quiet"; "-h"; "--configure"]%string = true /\
  snd (splitArgs ["--quiet"; "-h"; "--configure"]%string [] [])
  = ["-h"; "--configure"]%string /\
  forallb (fun a => String.eqb a "-h" || HasPrefix a "--config" || HasPrefix a "-config")
          (snd (splitArgs ["--quiet"; "-h"; "--configure"]%string [] [])) = true.
Proof.
  split; [reflexivity|]. split; [reflexivity|].
  apply (usage_only_without_gemini_args ["--quiet"; "-h"; "--configure"]%string).
  reflexivity.
Defined.

End MainProps.

Module ProcessProps.
Import Process.





End ProcessProps.
